(** * SMARTS local traffic provider: a shallow embedding and its properties

    Sources embedded here:
    - [smarts/core/utils/kinematics.py]  ([time_to_cover], [distance_covered])
    - [smarts/core/local_traffic_provider.py]
      ([LocalTrafficProvider] and [_TrafficActor]).

    Modelling conventions.
    - A Python float is a [pyfloat]: a real number or one of the IEEE special
      values [+inf], [-inf], [nan].  Finite arithmetic is exact (no rounding,
      one zero); the special values follow IEEE 754, which is what Python
      floats do.  [x / y] raises [ZeroDivisionError] when [y] is zero, as
      Python's true division of floats does, and [x ** 2] raises
      [OverflowError] when the square is out of the range of a float.
    - Code that can raise returns an [outcome]; code that also mutates
      objects runs in the monad [M], which keeps the mutated state when an
      exception propagates, as Python does.
    - Python dicts are insertion-ordered association lists ([dict]).
    - The road map, the geometry library and the random generator are
      outside the embedded sources; they are the fields of the class
      [Host]. *)

From Stdlib Require Import Reals Lra Lia List String ZArith Bool DecimalString.
From Stdlib Require Import QArith Qreals Field.
Import ListNotations.
Local Open Scope R_scope.

(* ================================================================== *)
(** * Python values *)
(* ================================================================== *)

(** ** Exceptions and outcomes *)

Inductive exn : Type :=
| ZeroDivisionError
| KeyError
| IndexError
| AttributeError
| TypeError
| ValueError
| OverflowError
| AssertionError
| RecursionError
| PyException.          (* [raise Exception(...)] *)

Inductive outcome (A : Type) : Type :=
| Returns (a : A)
| Raises (e : exn).
Arguments Returns {A} a.
Arguments Raises {A} e.

Definition obind {A B} (m : outcome A) (k : A -> outcome B) : outcome B :=
  match m with
  | Returns a => k a
  | Raises e => Raises e
  end.

Declare Scope py_scope.
Delimit Scope py_scope with py.
Notation "'let!' x ':=' m 'in' k" := (obind m (fun x => k))
  (at level 10, x name, m at level 100, k at level 200) : py_scope.
Notation "'let!' ' p ':=' m 'in' k" :=
  (obind m (fun x => match x with p => k end))
  (at level 10, p pattern, m at level 100, k at level 200) : py_scope.
Local Open Scope py_scope.

(** ** Floats *)

Inductive pyfloat : Type :=
| Fin (r : R)
| PInf
| NInf
| NaN.

Coercion Fin : R >-> pyfloat.

Definition Rltb (a b : R) : bool := if Rlt_dec a b then true else false.
Definition Reqb (a b : R) : bool := if Req_dec_T a b then true else false.

(** [x < y]; every comparison with [nan] is false. *)
Definition f_lt (x y : pyfloat) : bool :=
  match x, y with
  | Fin a, Fin b => Rltb a b
  | Fin _, PInf => true
  | NInf, Fin _ => true
  | NInf, PInf => true
  | _, _ => false
  end.

(** [x == y]. *)
Definition f_eq (x y : pyfloat) : bool :=
  match x, y with
  | Fin a, Fin b => Reqb a b
  | PInf, PInf => true
  | NInf, NInf => true
  | _, _ => false
  end.

Definition f_le (x y : pyfloat) : bool := f_lt x y || f_eq x y.
Definition f_gt (x y : pyfloat) : bool := f_lt y x.
Definition f_ge (x y : pyfloat) : bool := f_le y x.

Definition f_neg (x : pyfloat) : pyfloat :=
  match x with
  | Fin a => Fin (- a)
  | PInf => NInf
  | NInf => PInf
  | NaN => NaN
  end.

Definition f_add (x y : pyfloat) : pyfloat :=
  match x, y with
  | NaN, _ | _, NaN => NaN
  | Fin a, Fin b => Fin (a + b)
  | PInf, NInf | NInf, PInf => NaN
  | PInf, _ | _, PInf => PInf
  | NInf, _ | _, NInf => NInf
  end.

Definition f_sub (x y : pyfloat) : pyfloat := f_add x (f_neg y).

(** The sign of a float: [Some true] positive, [Some false] negative,
    [None] zero or [nan]. *)
Definition f_sign (x : pyfloat) : option bool :=
  match x with
  | Fin a => if Rltb 0 a then Some true
             else if Rltb a 0 then Some false else None
  | PInf => Some true
  | NInf => Some false
  | NaN => None
  end.

Definition inf_of_sign (s : bool) : pyfloat := if s then PInf else NInf.

Definition f_mul (x y : pyfloat) : pyfloat :=
  match x, y with
  | NaN, _ | _, NaN => NaN
  | Fin a, Fin b => Fin (a * b)
  | _, _ =>
      match f_sign x, f_sign y with
      | Some s, Some t => inf_of_sign (Bool.eqb s t)
      | _, _ => NaN                      (* 0 * inf *)
      end
  end.

(** IEEE division, used where the divisor is known not to be zero. *)
Definition f_div_ieee (x y : pyfloat) : pyfloat :=
  match x, y with
  | NaN, _ | _, NaN => NaN
  | Fin a, Fin b => Fin (a / b)
  | Fin _, _ => Fin 0
  | _, Fin _ =>
      match f_sign x, f_sign y with
      | Some s, Some t => inf_of_sign (Bool.eqb s t)
      | _, _ => NaN
      end
  | _, _ => NaN                          (* inf / inf *)
  end.

(** Python's [x / y] on floats. *)
Definition pydiv (x y : pyfloat) : outcome pyfloat :=
  if f_eq y 0 then Raises ZeroDivisionError else Returns (f_div_ieee x y).

(** [abs(x)]. *)
Definition f_abs (x : pyfloat) : pyfloat :=
  match x with
  | Fin a => Fin (Rabs a)
  | PInf | NInf => PInf
  | NaN => NaN
  end.

(** [math.sqrt(x)]. *)
Definition math_sqrt (x : pyfloat) : outcome pyfloat :=
  match x with
  | Fin a => if Rltb a 0 then Raises ValueError else Returns (Fin (sqrt a))
  | PInf => Returns PInf
  | NInf => Raises ValueError
  | NaN => Returns NaN
  end.

(** [min(a, b)] and [max(a, b)] keep the first argument unless the
    second is strictly better. *)
Definition py_min2 (a b : pyfloat) : pyfloat := if f_lt b a then b else a.
Definition py_max2 (a b : pyfloat) : pyfloat := if f_gt b a then b else a.

(** The truth value of a float: non-zero. *)
Definition f_truthy (x : pyfloat) : bool := negb (f_eq x 0).

(* ================================================================== *)
(** * Kinematics ([smarts/core/utils/kinematics.py]) *)
(* ================================================================== *)

(** The least magnitude that rounds to infinity in binary64: half an ulp
    above the largest float. *)
Definition float_overflow : R := 2 ^ 1024 - 2 ^ 970.

(** [x ** 2].  Unlike [*] and [+], Python's float power raises
    [OverflowError] when the result of finite operands is out of range. *)
Definition py_pow2 (x : pyfloat) : outcome pyfloat :=
  match x with
  | Fin a => if Rltb (a * a) float_overflow then Returns (Fin (a * a))
             else Raises OverflowError
  | PInf | NInf => Returns PInf
  | NaN => Returns NaN
  end.

(** The statements of [time_to_cover] after the [abs(acc) < 1e9] test:
    the roots of [0.5*acc*t^2 + speed*t - dist = 0]. *)
Definition time_to_cover_quadratic (dist speed acc : pyfloat) : outcome pyfloat :=
  let! speed2 := py_pow2 speed in
  let discriminant := f_add speed2 (f_mul (f_mul 2 acc) dist) in
  if f_lt discriminant 0 then Returns PInf
  else
    let! rad := math_sqrt discriminant in
    let! t1 := pydiv (f_sub rad speed) acc in
    let! t2 := pydiv (f_neg (f_add rad speed)) acc in
    let mnt := py_min2 t1 t2 in
    if f_ge mnt 0 then Returns mnt
    else
      let mxt := py_max2 t1 t2 in
      if f_ge mxt 0 then Returns mxt
      else Returns PInf.

Definition time_to_cover (dist speed acc : pyfloat) : outcome pyfloat :=
  if f_eq dist 0 then Returns (Fin 0)
  else if f_lt (f_abs acc) 1e9 then
    if f_eq speed 0 then Returns PInf
    else
      let! t := pydiv dist speed in
      Returns (if f_ge t 0 then t else PInf)
  else time_to_cover_quadratic dist speed acc.

Definition distance_covered (time speed acc : pyfloat) : pyfloat :=
  f_mul time (f_add speed (f_mul (f_mul 0.5 acc) time)).

(** ** Further float operations used by the traffic provider *)

(** [min(a, b, c, d)]. *)
Definition py_min4 (a b c d : pyfloat) : pyfloat :=
  py_min2 (py_min2 (py_min2 a b) c) d.

(** [np.clip(x, lo, hi)]: [np.minimum(np.maximum(x, lo), hi)], where
    numpy's [minimum] and [maximum] propagate [nan]. *)
Definition np_maximum (a b : pyfloat) : pyfloat :=
  match a, b with
  | NaN, _ | _, NaN => NaN
  | _, _ => if f_lt a b then b else a
  end.

Definition np_minimum (a b : pyfloat) : pyfloat :=
  match a, b with
  | NaN, _ | _, NaN => NaN
  | _, _ => if f_lt b a then b else a
  end.

Definition np_clip (x lo hi : pyfloat) : pyfloat :=
  np_minimum (np_maximum x lo) hi.

(** [np.sign(x)]. *)
Definition np_sign (x : pyfloat) : pyfloat :=
  match x with
  | NaN => NaN
  | _ => match f_sign x with
         | Some true => Fin 1
         | Some false => Fin (-1)
         | None => Fin 0
         end
  end.

(** [np.sqrt(x)]: [nan] on a negative argument, no exception. *)
Definition np_sqrt (x : pyfloat) : pyfloat :=
  match x with
  | Fin a => if Rltb a 0 then NaN else Fin (sqrt a)
  | PInf => PInf
  | NInf => NaN
  | NaN => NaN
  end.

(** [np.linalg.norm(v)] of a vector. *)
Definition np_linalg_norm (v : list pyfloat) : pyfloat :=
  np_sqrt (fold_left (fun acc x => f_add acc (f_mul x x)) v (Fin 0)).

(** [math.sin], [math.cos], [math.tan]: a domain error at an infinity. *)
Definition math_trig (f : R -> R) (x : pyfloat) : outcome pyfloat :=
  match x with
  | Fin a => Returns (Fin (f a))
  | NaN => Returns NaN
  | PInf | NInf => Raises ValueError
  end.
Definition math_sin := math_trig sin.
Definition math_cos := math_trig cos.
Definition math_tan := math_trig tan.

(** [math.log(x)]. *)
Definition math_log (x : pyfloat) : outcome pyfloat :=
  match x with
  | Fin a => if Rltb 0 a then Returns (Fin (ln a)) else Raises ValueError
  | PInf => Returns PInf
  | NInf => Raises ValueError
  | NaN => Returns NaN
  end.

(** [math.ceil(x)], a Python int. *)
Definition Rceil (a : R) : Z := (- Int_part (- a))%Z.
Definition math_ceil (x : pyfloat) : outcome Z :=
  match x with
  | Fin a => Returns (Rceil a)
  | PInf | NInf => Raises OverflowError
  | NaN => Raises ValueError
  end.

(** [x % m] on floats: the result takes the sign of [m]. *)
Definition Rfloor (a : R) : Z := Int_part a.
Definition f_mod (x m : pyfloat) : outcome pyfloat :=
  if f_eq m 0 then Raises ZeroDivisionError
  else match x, m with
       | Fin a, Fin b => Returns (Fin (a - IZR (Rfloor (a / b)) * b))
       | Fin a, PInf => Returns (if Rltb a 0 then PInf else Fin a)
       | Fin a, NInf => Returns (if Rltb 0 a then NInf else Fin a)
       | _, _ => Returns NaN
       end.

Definition f_of_Z (z : Z) : pyfloat := Fin (IZR z).

(* ================================================================== *)
(** * Dicts and the state-and-exception monad *)
(* ================================================================== *)

(** ** Insertion-ordered dicts *)

Class KeyEq (K : Type) := key_eqb : K -> K -> bool.
#[export] Instance KeyEq_string : KeyEq string := String.eqb.
#[export] Instance KeyEq_Z : KeyEq Z := Z.eqb.
#[export] Instance KeyEq_pair {A B} `{KeyEq A} `{KeyEq B} : KeyEq (A * B) :=
  fun x y => key_eqb (fst x) (fst y) && key_eqb (snd x) (snd y).

Definition dict (K V : Type) : Type := list (K * V).

Section Dict.
Context {K V : Type} `{KeyEq K}.

(** [d.get(k)] *)
Fixpoint dget (k : K) (d : dict K V) : option V :=
  match d with
  | [] => None
  | (k', v) :: d' => if key_eqb k k' then Some v else dget k d'
  end.

(** [k in d] *)
Definition dmem (k : K) (d : dict K V) : bool :=
  match dget k d with Some _ => true | None => false end.

(** [d[k] = v]: an existing key keeps its position, a new key goes last. *)
Fixpoint dset (k : K) (v : V) (d : dict K V) : dict K V :=
  match d with
  | [] => [(k, v)]
  | (k', v') :: d' =>
      if key_eqb k k' then (k', v) :: d' else (k', v') :: dset k v d'
  end.

(** [del d[k]] (the caller checks membership). *)
Fixpoint ddel (k : K) (d : dict K V) : dict K V :=
  match d with
  | [] => []
  | (k', v') :: d' => if key_eqb k k' then d' else (k', v') :: ddel k d'
  end.

Definition dkeys (d : dict K V) : list K := map fst d.
Definition dvalues (d : dict K V) : list V := map snd d.
Definition dlen (d : dict K V) : Z := Z.of_nat (List.length d).
End Dict.

(** ** Mutable state with exceptions *)

Definition M (S A : Type) : Type := S -> outcome A * S.

Definition ret {S A} (a : A) : M S A := fun s => (Returns a, s).
Definition raise {S A} (e : exn) : M S A := fun s => (Raises e, s).
Definition bind {S A B} (m : M S A) (k : A -> M S B) : M S B :=
  fun s =>
    match m s with
    | (Returns a, s') => k a s'
    | (Raises e, s') => (Raises e, s')
    end.
Definition gets {S A} (f : S -> A) : M S A := fun s => (Returns (f s), s).
Definition modify {S} (f : S -> S) : M S unit := fun s => (Returns tt, f s).
(** A pure computation that may raise. *)
Definition lift {S A} (o : outcome A) : M S A := fun s => (o, s).
(** Reading an attribute or a dict entry that may be absent. *)
Definition expect {S A} (e : exn) (o : option A) : M S A :=
  match o with
  | Some a => ret a
  | None => raise e
  end.
Definition oexpect {A} (e : exn) (o : option A) : outcome A :=
  match o with
  | Some a => Returns a
  | None => Raises e
  end.
(** [assert c] *)
Definition py_assert {S} (c : bool) : M S unit :=
  if c then ret tt else raise AssertionError.

Notation "x <- m ;; k" := (bind m (fun x => k))
  (at level 61, m at next level, right associativity) : py_scope.
Notation "' p <- m ;; k" := (bind m (fun x => match x with p => k end))
  (at level 61, p pattern, m at next level, right associativity) : py_scope.
Notation "m ;; k" := (bind m (fun _ => k))
  (at level 61, right associativity) : py_scope.

(** Run a computation on a part of the state (an object reached from it). *)
Definition zoom {S T A} (get : S -> T) (set : T -> S -> S) (m : M T A) : M S A :=
  fun s => let '(r, t) := m (get s) in (r, set t s).

(** [for x in xs: body(x)], where the body may [break]. *)
Inductive loop_ctl : Type := Continue | Break.

Fixpoint for_each {S X} (xs : list X) (body : X -> M S loop_ctl) : M S unit :=
  match xs with
  | [] => ret tt
  | x :: xs' =>
      c <- body x ;;
      match c with
      | Continue => for_each xs' body
      | Break => ret tt
      end
  end.

(** [for x in xs: body(x)] with no [break]. *)
Fixpoint for_all {S X} (xs : list X) (body : X -> M S unit) : M S unit :=
  match xs with
  | [] => ret tt
  | x :: xs' => body x ;; for_all xs' body
  end.

(** [preserves proj m]: running [m] leaves the part [proj] of the state as
    it was, whether [m] returns or raises. *)
Definition preserves {S A T} (proj : S -> T) (m : M S A) : Prop :=
  forall s, proj (snd (m s)) = proj s.

(** [wp m Q E s]: run from [s], [m] either returns a value and a state
    that satisfy [Q] or raises an exception that, with the state it leaves,
    satisfies [E]. *)
Definition wp {S A} (m : M S A) (Q : A -> S -> Prop) (E : exn -> S -> Prop)
    (s : S) : Prop :=
  match m s with
  | (Returns a, s') => Q a s'
  | (Raises e, s') => E e s'
  end.

(* ================================================================== *)
(** * The data model *)
(* ================================================================== *)

(** [smarts.core.coordinates]: [Point(x, y, z=0)], [RefLinePoint(s, t=0)]
    and [Dimensions]. *)
Record Point : Type := mkPoint { pt_x : pyfloat; pt_y : pyfloat; pt_z : pyfloat }.
Record RefLinePoint : Type := mkRefLinePoint { rl_s : pyfloat; rl_t : pyfloat }.
Record Dimensions : Type :=
  mkDimensions { dim_length : pyfloat; dim_width : pyfloat; dim_height : pyfloat }.

(** [smarts.core.vehicle.ActorRole]. *)
Inductive ActorRole : Type := Unknown | Social | SocialAgent | EgoAgent.

Definition role_eqb (a b : ActorRole) : bool :=
  match a, b with
  | Unknown, Unknown | Social, Social
  | SocialAgent, SocialAgent | EgoAgent, EgoAgent => true
  | _, _ => false
  end.

(** The vehicle-type attributes of a [<vType>] element that the provider
    reads, each already converted by [float(...)]; [None] is an attribute
    that is not given. *)
Record VType : Type := mkVType {
  vt_id : option string;
  vt_vClass : option string;
  vt_minGap : option pyfloat;
  vt_speedFactor : option pyfloat;
  vt_speedDev : option pyfloat;
  vt_maxSpeed : option pyfloat;
  vt_accel : option pyfloat;
  vt_decel : option pyfloat;
  vt_emergencyDecel : option pyfloat;
  vt_tau : option pyfloat;
  vt_lcAssertive : option pyfloat;
  vt_lcCutinProb : option pyfloat
}.

(** [float(vtype.get(key, default))] *)
Definition vget (o : option pyfloat) (default : pyfloat) : pyfloat :=
  match o with Some v => v | None => default end.

(** The values of [departPos]/[arrivalPos] and of [departSpeed]. *)
Inductive PosToken : Type := PosMax | PosRandom | PosNum (x : pyfloat).
Inductive SpeedToken : Type :=
  SpeedRandom | SpeedMax | SpeedLimit | SpeedNum (x : pyfloat).

(** A flow dict as [_load_traffic_flows] leaves it.  [None] is a key that
    is absent. *)
Record Flow : Type := mkFlow {
  fl_id : string;
  fl_vtype : VType;
  fl_route : list string;
  fl_route_id : Z;
  fl_begin : pyfloat;
  fl_end : pyfloat;
  fl_emit_period : pyfloat;
  fl_last_added : option pyfloat;
  fl_departLane : option Z;
  fl_departPos : option PosToken;
  fl_departSpeed : option SpeedToken;
  fl_arrivalLane : option Z;
  fl_arrivalPos : option PosToken
}.

Definition set_fl_last_added (v : option pyfloat) (f : Flow) : Flow :=
  mkFlow (fl_id f) (fl_vtype f) (fl_route f) (fl_route_id f) (fl_begin f)
    (fl_end f) (fl_emit_period f) v (fl_departLane f) (fl_departPos f)
    (fl_departSpeed f) (fl_arrivalLane f) (fl_arrivalPos f).

(** What the loggers receive. *)
Inductive LogLevel : Type := LogDebug | LogInfo | LogWarning.
Inductive LogRecord : Type := mkLog (level : LogLevel) (about : string).

(** ** The host

    Everything the embedded sources import from outside: the road map
    ([smarts.core.road_map]), poses ([smarts.core.coordinates]), polygons
    ([shapely]), the angle helpers of [smarts.core.utils.math], the vehicle
    table of [smarts.core.vehicle] and the [random] module. *)
Class Host : Type := {
  Lane : Type;
  Road : Type;
  Pose : Type;
  Polygon : Type;
  Rng : Type;
  (* RoadMap.Lane *)
  lane_eqb : Lane -> Lane -> bool;
  lane_id : Lane -> string;
  lane_index : Lane -> Z;
  lane_length : Lane -> pyfloat;
  lane_speed_limit : Lane -> option pyfloat;
  lane_road : Lane -> Road;
  composite_lane : Lane -> Lane;
  incoming_lanes : Lane -> list Lane;
  outgoing_lanes : Lane -> list Lane;
  from_lane_coord : Lane -> RefLinePoint -> Point;
  to_lane_coord : Lane -> Point -> RefLinePoint;
  offset_along_lane : Lane -> Point -> pyfloat;
  vector_at_offset : Lane -> pyfloat -> list pyfloat;
  width_at_offset : Lane -> pyfloat -> pyfloat * pyfloat;
  curvature_radius_at_offset : Lane -> pyfloat -> Z -> pyfloat;
  (* RoadMap.Road *)
  road_id : Road -> string;
  road_lanes : Road -> list Lane;
  outgoing_roads : Road -> list Road;
  road_eq_str : Road -> string -> bool;     (* [road == road_id_string] *)
  (* RoadMap *)
  road_by_id : string -> option Road;
  nearest_lane : Point -> pyfloat -> option Lane;
  nearest_lanes : Point -> pyfloat -> bool -> list (Lane * pyfloat);
  (* Pose, Heading *)
  pose_point : Pose -> Point;
  pose_heading : Pose -> pyfloat;
  Pose_from_center : Point -> pyfloat -> Pose;
  Heading : pyfloat -> pyfloat;
  (* [0.5 * dimensions] on a [Dimensions] object *)
  float_mul_Dimensions : pyfloat -> Dimensions -> outcome pyfloat;
  (* shapely *)
  shapely_box : pyfloat -> pyfloat -> pyfloat -> pyfloat -> Polygon;
  shapely_rotate : Polygon -> pyfloat -> Polygon;
  intersects : Polygon -> Polygon -> bool;
  (* smarts.core.utils.math *)
  radians_to_vec : pyfloat -> pyfloat * pyfloat;
  vec_to_radians : list pyfloat -> pyfloat;
  min_angles_difference_signed : pyfloat -> pyfloat -> pyfloat;
  (* smarts.core.vehicle.VEHICLE_CONFIGS[vclass].dimensions *)
  VEHICLE_CONFIGS : string -> option Dimensions;
  (* random.random(), random.gauss(mu, sigma) *)
  random_random : Rng -> pyfloat * Rng;
  random_gauss : pyfloat -> pyfloat -> Rng -> pyfloat * Rng;
  (* Provider.source_str *)
  source_str : string
}.

Section Traffic.
Context {host : Host}.

(** [smarts.core.vehicle.VehicleState], the fields the provider uses. *)
Record VehicleState : Type := mkVehicleState {
  vs_vehicle_id : string;
  vs_pose : Pose;
  vs_dimensions : Dimensions;
  vs_vehicle_type : string;
  vs_vehicle_config_type : option string;
  vs_speed : pyfloat;
  vs_linear_acceleration : option (list pyfloat);
  vs_source : string;
  vs_role : ActorRole
}.

Definition set_vs_pose (v : Pose) (r : VehicleState) : VehicleState :=
  mkVehicleState (vs_vehicle_id r) v (vs_dimensions r) (vs_vehicle_type r) (vs_vehicle_config_type r) (vs_speed r) (vs_linear_acceleration r) (vs_source r) (vs_role r).
Definition set_vs_speed (v : pyfloat) (r : VehicleState) : VehicleState :=
  mkVehicleState (vs_vehicle_id r) (vs_pose r) (vs_dimensions r) (vs_vehicle_type r) (vs_vehicle_config_type r) v (vs_linear_acceleration r) (vs_source r) (vs_role r).
Definition set_vs_linear_acceleration (v : option (list pyfloat)) (r : VehicleState) : VehicleState :=
  mkVehicleState (vs_vehicle_id r) (vs_pose r) (vs_dimensions r) (vs_vehicle_type r) (vs_vehicle_config_type r) (vs_speed r) v (vs_source r) (vs_role r).
Definition set_vs_source (v : string) (r : VehicleState) : VehicleState :=
  mkVehicleState (vs_vehicle_id r) (vs_pose r) (vs_dimensions r) (vs_vehicle_type r) (vs_vehicle_config_type r) (vs_speed r) (vs_linear_acceleration r) v (vs_role r).
Definition set_vs_role (v : ActorRole) (r : VehicleState) : VehicleState :=
  mkVehicleState (vs_vehicle_id r) (vs_pose r) (vs_dimensions r) (vs_vehicle_type r) (vs_vehicle_config_type r) (vs_speed r) (vs_linear_acceleration r) (vs_source r) v.

(** [_TrafficActor._LaneWindow].  [width], [radius], [_angle_scale] and
    [exit_time] are memoised in the source; they are functions of [lane] and
    [lane_coord], which are never reassigned, so the memo is not modelled. *)
Record LaneWindow : Type := mkLaneWindow {
  lw_lane : Lane;
  lw_time_left : pyfloat;
  lw_adj_time_left : pyfloat;
  lw_ttre : pyfloat;
  lw_gap : pyfloat;
  lw_lane_coord : RefLinePoint;
  lw_agent_gap : option pyfloat
}.

(** [_LaneWindow.__init__] *)
Definition LaneWindow_init (lane : Lane) (time_left ttre gap : pyfloat)
    (lane_coord : RefLinePoint) (agent_gap : option pyfloat) : LaneWindow :=
  mkLaneWindow lane time_left time_left ttre gap lane_coord agent_gap.

Definition set_lw_adj_time_left (v : pyfloat) (w : LaneWindow) : LaneWindow :=
  mkLaneWindow (lw_lane w) (lw_time_left w) v (lw_ttre w) (lw_gap w)
    (lw_lane_coord w) (lw_agent_gap w).

(** The attributes of a [_TrafficActor].  An attribute that [__init__] does
    not assign is an [option]: reading it while it is [None] raises
    [AttributeError]. *)
Record Actor : Type := mkActor {
  _all_vehicle_states : list VehicleState;
  _flow : Flow;
  _vtype : VType;
  _route_ind : Z;
  _done_with_route : bool;
  _off_route : bool;
  _route : list string;
  _route_id : Z;
  _lane_speed : dict Z (pyfloat * pyfloat);
  _lane_windows : dict Z LaneWindow;
  _lane_win : option LaneWindow;
  _target_lane_win : option LaneWindow;
  _min_space_cush : pyfloat;
  _speed_factor : pyfloat;
  _cutting_into : option LaneWindow;
  _in_front_after_cutin_secs : pyfloat;
  _cutin_hold_secs : pyfloat;
  _target_cutin_gap : pyfloat;
  _aggressiveness : pyfloat;
  _cutin_prob : pyfloat;
  _lane : option Lane;
  _offset : option pyfloat;
  _state : option VehicleState;
  _dest_lane : option Lane;
  _dest_offset : option pyfloat;
  _in_front_secs : option pyfloat;
  _target_speed : option pyfloat;
  _next_linear_acceleration : option (list pyfloat);
  _next_speed : option pyfloat;
  _next_pose : option Pose
}.

Definition set__all_vehicle_states (v : list VehicleState) (r : Actor) : Actor :=
  mkActor v (_flow r) (_vtype r) (_route_ind r) (_done_with_route r) (_off_route r) (_route r) (_route_id r) (_lane_speed r) (_lane_windows r) (_lane_win r) (_target_lane_win r) (_min_space_cush r) (_speed_factor r) (_cutting_into r) (_in_front_after_cutin_secs r) (_cutin_hold_secs r) (_target_cutin_gap r) (_aggressiveness r) (_cutin_prob r) (_lane r) (_offset r) (_state r) (_dest_lane r) (_dest_offset r) (_in_front_secs r) (_target_speed r) (_next_linear_acceleration r) (_next_speed r) (_next_pose r).
Definition set__route_ind (v : Z) (r : Actor) : Actor :=
  mkActor (_all_vehicle_states r) (_flow r) (_vtype r) v (_done_with_route r) (_off_route r) (_route r) (_route_id r) (_lane_speed r) (_lane_windows r) (_lane_win r) (_target_lane_win r) (_min_space_cush r) (_speed_factor r) (_cutting_into r) (_in_front_after_cutin_secs r) (_cutin_hold_secs r) (_target_cutin_gap r) (_aggressiveness r) (_cutin_prob r) (_lane r) (_offset r) (_state r) (_dest_lane r) (_dest_offset r) (_in_front_secs r) (_target_speed r) (_next_linear_acceleration r) (_next_speed r) (_next_pose r).
Definition set__done_with_route (v : bool) (r : Actor) : Actor :=
  mkActor (_all_vehicle_states r) (_flow r) (_vtype r) (_route_ind r) v (_off_route r) (_route r) (_route_id r) (_lane_speed r) (_lane_windows r) (_lane_win r) (_target_lane_win r) (_min_space_cush r) (_speed_factor r) (_cutting_into r) (_in_front_after_cutin_secs r) (_cutin_hold_secs r) (_target_cutin_gap r) (_aggressiveness r) (_cutin_prob r) (_lane r) (_offset r) (_state r) (_dest_lane r) (_dest_offset r) (_in_front_secs r) (_target_speed r) (_next_linear_acceleration r) (_next_speed r) (_next_pose r).
Definition set__off_route (v : bool) (r : Actor) : Actor :=
  mkActor (_all_vehicle_states r) (_flow r) (_vtype r) (_route_ind r) (_done_with_route r) v (_route r) (_route_id r) (_lane_speed r) (_lane_windows r) (_lane_win r) (_target_lane_win r) (_min_space_cush r) (_speed_factor r) (_cutting_into r) (_in_front_after_cutin_secs r) (_cutin_hold_secs r) (_target_cutin_gap r) (_aggressiveness r) (_cutin_prob r) (_lane r) (_offset r) (_state r) (_dest_lane r) (_dest_offset r) (_in_front_secs r) (_target_speed r) (_next_linear_acceleration r) (_next_speed r) (_next_pose r).
Definition set__lane_speed (v : dict Z (pyfloat * pyfloat)) (r : Actor) : Actor :=
  mkActor (_all_vehicle_states r) (_flow r) (_vtype r) (_route_ind r) (_done_with_route r) (_off_route r) (_route r) (_route_id r) v (_lane_windows r) (_lane_win r) (_target_lane_win r) (_min_space_cush r) (_speed_factor r) (_cutting_into r) (_in_front_after_cutin_secs r) (_cutin_hold_secs r) (_target_cutin_gap r) (_aggressiveness r) (_cutin_prob r) (_lane r) (_offset r) (_state r) (_dest_lane r) (_dest_offset r) (_in_front_secs r) (_target_speed r) (_next_linear_acceleration r) (_next_speed r) (_next_pose r).
Definition set__lane_windows (v : dict Z LaneWindow) (r : Actor) : Actor :=
  mkActor (_all_vehicle_states r) (_flow r) (_vtype r) (_route_ind r) (_done_with_route r) (_off_route r) (_route r) (_route_id r) (_lane_speed r) v (_lane_win r) (_target_lane_win r) (_min_space_cush r) (_speed_factor r) (_cutting_into r) (_in_front_after_cutin_secs r) (_cutin_hold_secs r) (_target_cutin_gap r) (_aggressiveness r) (_cutin_prob r) (_lane r) (_offset r) (_state r) (_dest_lane r) (_dest_offset r) (_in_front_secs r) (_target_speed r) (_next_linear_acceleration r) (_next_speed r) (_next_pose r).
Definition set__lane_win (v : option LaneWindow) (r : Actor) : Actor :=
  mkActor (_all_vehicle_states r) (_flow r) (_vtype r) (_route_ind r) (_done_with_route r) (_off_route r) (_route r) (_route_id r) (_lane_speed r) (_lane_windows r) v (_target_lane_win r) (_min_space_cush r) (_speed_factor r) (_cutting_into r) (_in_front_after_cutin_secs r) (_cutin_hold_secs r) (_target_cutin_gap r) (_aggressiveness r) (_cutin_prob r) (_lane r) (_offset r) (_state r) (_dest_lane r) (_dest_offset r) (_in_front_secs r) (_target_speed r) (_next_linear_acceleration r) (_next_speed r) (_next_pose r).
Definition set__target_lane_win (v : option LaneWindow) (r : Actor) : Actor :=
  mkActor (_all_vehicle_states r) (_flow r) (_vtype r) (_route_ind r) (_done_with_route r) (_off_route r) (_route r) (_route_id r) (_lane_speed r) (_lane_windows r) (_lane_win r) v (_min_space_cush r) (_speed_factor r) (_cutting_into r) (_in_front_after_cutin_secs r) (_cutin_hold_secs r) (_target_cutin_gap r) (_aggressiveness r) (_cutin_prob r) (_lane r) (_offset r) (_state r) (_dest_lane r) (_dest_offset r) (_in_front_secs r) (_target_speed r) (_next_linear_acceleration r) (_next_speed r) (_next_pose r).
Definition set__cutting_into (v : option LaneWindow) (r : Actor) : Actor :=
  mkActor (_all_vehicle_states r) (_flow r) (_vtype r) (_route_ind r) (_done_with_route r) (_off_route r) (_route r) (_route_id r) (_lane_speed r) (_lane_windows r) (_lane_win r) (_target_lane_win r) (_min_space_cush r) (_speed_factor r) v (_in_front_after_cutin_secs r) (_cutin_hold_secs r) (_target_cutin_gap r) (_aggressiveness r) (_cutin_prob r) (_lane r) (_offset r) (_state r) (_dest_lane r) (_dest_offset r) (_in_front_secs r) (_target_speed r) (_next_linear_acceleration r) (_next_speed r) (_next_pose r).
Definition set__in_front_after_cutin_secs (v : pyfloat) (r : Actor) : Actor :=
  mkActor (_all_vehicle_states r) (_flow r) (_vtype r) (_route_ind r) (_done_with_route r) (_off_route r) (_route r) (_route_id r) (_lane_speed r) (_lane_windows r) (_lane_win r) (_target_lane_win r) (_min_space_cush r) (_speed_factor r) (_cutting_into r) v (_cutin_hold_secs r) (_target_cutin_gap r) (_aggressiveness r) (_cutin_prob r) (_lane r) (_offset r) (_state r) (_dest_lane r) (_dest_offset r) (_in_front_secs r) (_target_speed r) (_next_linear_acceleration r) (_next_speed r) (_next_pose r).
Definition set__lane (v : option Lane) (r : Actor) : Actor :=
  mkActor (_all_vehicle_states r) (_flow r) (_vtype r) (_route_ind r) (_done_with_route r) (_off_route r) (_route r) (_route_id r) (_lane_speed r) (_lane_windows r) (_lane_win r) (_target_lane_win r) (_min_space_cush r) (_speed_factor r) (_cutting_into r) (_in_front_after_cutin_secs r) (_cutin_hold_secs r) (_target_cutin_gap r) (_aggressiveness r) (_cutin_prob r) v (_offset r) (_state r) (_dest_lane r) (_dest_offset r) (_in_front_secs r) (_target_speed r) (_next_linear_acceleration r) (_next_speed r) (_next_pose r).
Definition set__offset (v : option pyfloat) (r : Actor) : Actor :=
  mkActor (_all_vehicle_states r) (_flow r) (_vtype r) (_route_ind r) (_done_with_route r) (_off_route r) (_route r) (_route_id r) (_lane_speed r) (_lane_windows r) (_lane_win r) (_target_lane_win r) (_min_space_cush r) (_speed_factor r) (_cutting_into r) (_in_front_after_cutin_secs r) (_cutin_hold_secs r) (_target_cutin_gap r) (_aggressiveness r) (_cutin_prob r) (_lane r) v (_state r) (_dest_lane r) (_dest_offset r) (_in_front_secs r) (_target_speed r) (_next_linear_acceleration r) (_next_speed r) (_next_pose r).
Definition set__state (v : option VehicleState) (r : Actor) : Actor :=
  mkActor (_all_vehicle_states r) (_flow r) (_vtype r) (_route_ind r) (_done_with_route r) (_off_route r) (_route r) (_route_id r) (_lane_speed r) (_lane_windows r) (_lane_win r) (_target_lane_win r) (_min_space_cush r) (_speed_factor r) (_cutting_into r) (_in_front_after_cutin_secs r) (_cutin_hold_secs r) (_target_cutin_gap r) (_aggressiveness r) (_cutin_prob r) (_lane r) (_offset r) v (_dest_lane r) (_dest_offset r) (_in_front_secs r) (_target_speed r) (_next_linear_acceleration r) (_next_speed r) (_next_pose r).
Definition set__dest_lane (v : option Lane) (r : Actor) : Actor :=
  mkActor (_all_vehicle_states r) (_flow r) (_vtype r) (_route_ind r) (_done_with_route r) (_off_route r) (_route r) (_route_id r) (_lane_speed r) (_lane_windows r) (_lane_win r) (_target_lane_win r) (_min_space_cush r) (_speed_factor r) (_cutting_into r) (_in_front_after_cutin_secs r) (_cutin_hold_secs r) (_target_cutin_gap r) (_aggressiveness r) (_cutin_prob r) (_lane r) (_offset r) (_state r) v (_dest_offset r) (_in_front_secs r) (_target_speed r) (_next_linear_acceleration r) (_next_speed r) (_next_pose r).
Definition set__dest_offset (v : option pyfloat) (r : Actor) : Actor :=
  mkActor (_all_vehicle_states r) (_flow r) (_vtype r) (_route_ind r) (_done_with_route r) (_off_route r) (_route r) (_route_id r) (_lane_speed r) (_lane_windows r) (_lane_win r) (_target_lane_win r) (_min_space_cush r) (_speed_factor r) (_cutting_into r) (_in_front_after_cutin_secs r) (_cutin_hold_secs r) (_target_cutin_gap r) (_aggressiveness r) (_cutin_prob r) (_lane r) (_offset r) (_state r) (_dest_lane r) v (_in_front_secs r) (_target_speed r) (_next_linear_acceleration r) (_next_speed r) (_next_pose r).
Definition set__in_front_secs (v : option pyfloat) (r : Actor) : Actor :=
  mkActor (_all_vehicle_states r) (_flow r) (_vtype r) (_route_ind r) (_done_with_route r) (_off_route r) (_route r) (_route_id r) (_lane_speed r) (_lane_windows r) (_lane_win r) (_target_lane_win r) (_min_space_cush r) (_speed_factor r) (_cutting_into r) (_in_front_after_cutin_secs r) (_cutin_hold_secs r) (_target_cutin_gap r) (_aggressiveness r) (_cutin_prob r) (_lane r) (_offset r) (_state r) (_dest_lane r) (_dest_offset r) v (_target_speed r) (_next_linear_acceleration r) (_next_speed r) (_next_pose r).
Definition set__target_speed (v : option pyfloat) (r : Actor) : Actor :=
  mkActor (_all_vehicle_states r) (_flow r) (_vtype r) (_route_ind r) (_done_with_route r) (_off_route r) (_route r) (_route_id r) (_lane_speed r) (_lane_windows r) (_lane_win r) (_target_lane_win r) (_min_space_cush r) (_speed_factor r) (_cutting_into r) (_in_front_after_cutin_secs r) (_cutin_hold_secs r) (_target_cutin_gap r) (_aggressiveness r) (_cutin_prob r) (_lane r) (_offset r) (_state r) (_dest_lane r) (_dest_offset r) (_in_front_secs r) v (_next_linear_acceleration r) (_next_speed r) (_next_pose r).
Definition set__next_linear_acceleration (v : option (list pyfloat)) (r : Actor) : Actor :=
  mkActor (_all_vehicle_states r) (_flow r) (_vtype r) (_route_ind r) (_done_with_route r) (_off_route r) (_route r) (_route_id r) (_lane_speed r) (_lane_windows r) (_lane_win r) (_target_lane_win r) (_min_space_cush r) (_speed_factor r) (_cutting_into r) (_in_front_after_cutin_secs r) (_cutin_hold_secs r) (_target_cutin_gap r) (_aggressiveness r) (_cutin_prob r) (_lane r) (_offset r) (_state r) (_dest_lane r) (_dest_offset r) (_in_front_secs r) (_target_speed r) v (_next_speed r) (_next_pose r).
Definition set__next_speed (v : option pyfloat) (r : Actor) : Actor :=
  mkActor (_all_vehicle_states r) (_flow r) (_vtype r) (_route_ind r) (_done_with_route r) (_off_route r) (_route r) (_route_id r) (_lane_speed r) (_lane_windows r) (_lane_win r) (_target_lane_win r) (_min_space_cush r) (_speed_factor r) (_cutting_into r) (_in_front_after_cutin_secs r) (_cutin_hold_secs r) (_target_cutin_gap r) (_aggressiveness r) (_cutin_prob r) (_lane r) (_offset r) (_state r) (_dest_lane r) (_dest_offset r) (_in_front_secs r) (_target_speed r) (_next_linear_acceleration r) v (_next_pose r).
Definition set__next_pose (v : option Pose) (r : Actor) : Actor :=
  mkActor (_all_vehicle_states r) (_flow r) (_vtype r) (_route_ind r) (_done_with_route r) (_off_route r) (_route r) (_route_id r) (_lane_speed r) (_lane_windows r) (_lane_win r) (_target_lane_win r) (_min_space_cush r) (_speed_factor r) (_cutting_into r) (_in_front_after_cutin_secs r) (_cutin_hold_secs r) (_target_cutin_gap r) (_aggressiveness r) (_cutin_prob r) (_lane r) (_offset r) (_state r) (_dest_lane r) (_dest_offset r) (_in_front_secs r) (_target_speed r) (_next_linear_acceleration r) (_next_speed r) v.

(** The attributes of a [LocalTrafficProvider], with the state of the
    [random] module ([_rng]) and the records its loggers received ([_log]). *)
Record Provider : Type := mkProvider {
  _endless_traffic : bool;
  _flows : dict string Flow;
  _my_actors : dict string Actor;
  _other_vehicles : dict string (VehicleState * option (list string));
  _reserved_areas : dict string Polygon;
  _route_lane_lengths : dict Z (dict (string * Z) pyfloat);
  _actors_created : Z;
  _nearest_lanes_cache : dict string (option Lane);
  _offsets_cache : dict string (dict string pyfloat);
  _rng : Rng;
  _log : list LogRecord
}.

Definition set__flows (v : dict string Flow) (r : Provider) : Provider :=
  mkProvider (_endless_traffic r) v (_my_actors r) (_other_vehicles r) (_reserved_areas r) (_route_lane_lengths r) (_actors_created r) (_nearest_lanes_cache r) (_offsets_cache r) (_rng r) (_log r).
Definition set__my_actors (v : dict string Actor) (r : Provider) : Provider :=
  mkProvider (_endless_traffic r) (_flows r) v (_other_vehicles r) (_reserved_areas r) (_route_lane_lengths r) (_actors_created r) (_nearest_lanes_cache r) (_offsets_cache r) (_rng r) (_log r).
Definition set__other_vehicles (v : dict string (VehicleState * option (list string))) (r : Provider) : Provider :=
  mkProvider (_endless_traffic r) (_flows r) (_my_actors r) v (_reserved_areas r) (_route_lane_lengths r) (_actors_created r) (_nearest_lanes_cache r) (_offsets_cache r) (_rng r) (_log r).
Definition set__reserved_areas (v : dict string Polygon) (r : Provider) : Provider :=
  mkProvider (_endless_traffic r) (_flows r) (_my_actors r) (_other_vehicles r) v (_route_lane_lengths r) (_actors_created r) (_nearest_lanes_cache r) (_offsets_cache r) (_rng r) (_log r).
Definition set__route_lane_lengths (v : dict Z (dict (string * Z) pyfloat)) (r : Provider) : Provider :=
  mkProvider (_endless_traffic r) (_flows r) (_my_actors r) (_other_vehicles r) (_reserved_areas r) v (_actors_created r) (_nearest_lanes_cache r) (_offsets_cache r) (_rng r) (_log r).
Definition set__actors_created (v : Z) (r : Provider) : Provider :=
  mkProvider (_endless_traffic r) (_flows r) (_my_actors r) (_other_vehicles r) (_reserved_areas r) (_route_lane_lengths r) v (_nearest_lanes_cache r) (_offsets_cache r) (_rng r) (_log r).
Definition set__nearest_lanes_cache (v : dict string (option Lane)) (r : Provider) : Provider :=
  mkProvider (_endless_traffic r) (_flows r) (_my_actors r) (_other_vehicles r) (_reserved_areas r) (_route_lane_lengths r) (_actors_created r) v (_offsets_cache r) (_rng r) (_log r).
Definition set__offsets_cache (v : dict string (dict string pyfloat)) (r : Provider) : Provider :=
  mkProvider (_endless_traffic r) (_flows r) (_my_actors r) (_other_vehicles r) (_reserved_areas r) (_route_lane_lengths r) (_actors_created r) (_nearest_lanes_cache r) v (_rng r) (_log r).
Definition set__rng (v : Rng) (r : Provider) : Provider :=
  mkProvider (_endless_traffic r) (_flows r) (_my_actors r) (_other_vehicles r) (_reserved_areas r) (_route_lane_lengths r) (_actors_created r) (_nearest_lanes_cache r) (_offsets_cache r) v (_log r).
Definition set__log (v : list LogRecord) (r : Provider) : Provider :=
  mkProvider (_endless_traffic r) (_flows r) (_my_actors r) (_other_vehicles r) (_reserved_areas r) (_route_lane_lengths r) (_actors_created r) (_nearest_lanes_cache r) (_offsets_cache r) (_rng r) v.

(** The state an actor method runs in: the actor itself and the provider
    that owns it ([self._owner]). *)
Record Env : Type := mkEnv { self : Actor; owner : Provider }.

Definition self_get {A} (f : Actor -> A) : M Env A :=
  gets (fun e => f (self e)).
Definition self_set (upd : Actor -> Actor) : M Env unit :=
  modify (fun e => mkEnv (upd (self e)) (owner e)).
Definition owner_get {A} (f : Provider -> A) : M Env A :=
  gets (fun e => f (owner e)).
(** A method of the provider called through [self._owner]. *)
Definition in_owner {A} (m : M Provider A) : M Env A :=
  zoom owner (fun p e => mkEnv (self e) p) m.
(** A method of the actor run on an object [a]; it returns the object as
    the method left it. *)
Definition with_self {A} (a : Actor) (m : M Env A) : M Provider (A * Actor) :=
  fun p =>
    let '(r, e) := m (mkEnv a p) in
    (match r with
     | Returns x => Returns (x, self e)
     | Raises err => Raises err
     end, owner e).

(** Reading an attribute: [AttributeError] while it is unset or [None]. *)
Definition attr {A} (o : option A) : outcome A := oexpect AttributeError o.
Definition self_attr {A} (f : Actor -> option A) : M Env A :=
  a <- gets self ;; lift (attr (f a)).
(** A read-only property or method of the actor. *)
Definition self_call {A} (f : Actor -> outcome A) : M Env A :=
  a <- gets self ;; lift (f a).

(** [logger.info(...)], [logger.warning(...)], [logger.debug(...)] *)
Definition logger_emit (lvl : LogLevel) (about : string) : M Provider unit :=
  modify (fun p => set__log (_log p ++ [mkLog lvl about]) p).

(** [random.random()] and [random.gauss(mu, sigma)] *)
Definition py_random : M Provider pyfloat :=
  fun p => let '(x, g) := random_random (_rng p) in (Returns x, set__rng g p).
Definition py_gauss (mu sigma : pyfloat) : M Provider pyfloat :=
  fun p => let '(x, g) := random_gauss mu sigma (_rng p) in (Returns x, set__rng g p).

(** [range(lo, hi)] *)
Definition zrange (lo hi : Z) : list Z :=
  map (fun k => (lo + Z.of_nat k)%Z) (seq 0 (Z.to_nat (hi - lo))).

(** [for x in xs] with loop-carried variables [acc]. *)
Fixpoint for_fold {S X L} (xs : list X) (acc : L)
    (body : X -> L -> M S (loop_ctl * L)) : M S L :=
  match xs with
  | [] => ret acc
  | x :: xs' =>
      r <- body x acc ;;
      match r with
      | (Continue, acc') => for_fold xs' acc' body
      | (Break, acc') => ret acc'
      end
  end.

(* ------------------------------------------------------------------ *)
(** ** [_TrafficActor]: properties *)

Definition state (a : Actor) : outcome VehicleState := attr (_state a).

Definition actor_id (a : Actor) : outcome string :=
  let! st := attr (_state a) in Returns (vs_vehicle_id st).

Definition route (a : Actor) : list string := _route a.

Definition finished_route (a : Actor) : bool := _done_with_route a.

Definition off_route (a : Actor) : bool := _off_route a.

Definition road (a : Actor) : outcome Road :=
  let! l := attr (_lane a) in Returns (lane_road l).

Definition speed (a : Actor) : outcome pyfloat :=
  let! st := attr (_state a) in Returns (vs_speed st).

Definition acceleration (a : Actor) : outcome pyfloat :=
  let! st := attr (_state a) in
  match vs_linear_acceleration st with
  | None => Returns (Fin 0)
  | Some v => Returns (np_linalg_norm v)
  end.

(** [bbox(cushion_length)].  The source memoises it and clears the memo
    whenever the pose is reassigned ([state.setter], [step]), so the memo is
    not modelled. *)
Definition bbox (cushion_length : bool) (a : Actor) : outcome Polygon :=
  let! st := attr (_state a) in
  let pos := pose_point (vs_pose st) in
  let dims := vs_dimensions st in
  let length_buffer := if cushion_length then _min_space_cush a else Fin 0 in
  let half_len := f_add (f_mul 0.5 (dim_length dims)) length_buffer in
  let poly :=
    shapely_box (f_sub (pt_x pos) (f_mul 0.5 (dim_width dims)))
                (f_sub (pt_y pos) half_len)
                (f_add (pt_x pos) (f_mul 0.5 (dim_width dims)))
                (f_add (pt_y pos) half_len) in
  Returns (shapely_rotate poly (pose_heading (vs_pose st))).

(* ------------------------------------------------------------------ *)
(** ** [_LaneWindow] *)

Definition width (w : LaneWindow) : pyfloat :=
  fst (width_at_offset (lw_lane w) (rl_s (lw_lane_coord w))).

Definition radius (w : LaneWindow) : outcome pyfloat :=
  let! c := math_ceil (f_mul 2 (width w)) in
  Returns (curvature_radius_at_offset (lw_lane w) (rl_s (lw_lane_coord w))
             (Z.max c 2)).

Definition _angle_scale (w : LaneWindow) (to_index : Z) : outcome pyfloat :=
  let theta := Fin (PI / 6) in
  let! r := radius w in
  if f_gt (f_abs r) 1e5 || f_eq r 0 then
    let! s := math_sin theta in
    pydiv 1 s
  else
    let! T := pydiv r (width w) in
    if (lane_index (lw_lane w) <? to_index)%Z then
      let se := f_mul T (f_sub T 1) in
      let! tn := math_tan theta in
      let! q := pydiv 1 (f_mul tn (f_sub T 1)) in
      let! c := math_cos q in
      math_sqrt (f_mul 2 (f_sub (f_add se 0.5) (f_mul se c)))
    else
      let se := f_mul T (f_add T 1) in
      let! tn := math_tan theta in
      let! q := pydiv 1 (f_mul tn (f_add T 1)) in
      let! c := math_cos q in
      math_sqrt (f_mul 2 (f_sub (f_add se 0.5) (f_mul se c))).

Definition crossing_time_at_speed (w : LaneWindow) (to_index : Z)
    (speed acc : pyfloat) : outcome pyfloat :=
  let! angle_scale := _angle_scale w to_index in
  time_to_cover (f_mul angle_scale (width w)) speed acc.

Definition exit_time (w : LaneWindow) (speed : pyfloat) (to_index : Z)
    (acc : pyfloat) : outcome pyfloat :=
  let! ct := crossing_time_at_speed w to_index speed acc in
  let t := rl_t (lw_lane_coord w) in
  let pm :=
    f_mul (if (lane_index (lw_lane w) <=? to_index)%Z then Fin (-1) else Fin 1)
          (np_sign t) in
  let! angle_scale := _angle_scale w to_index in
  let! tc := time_to_cover (f_mul angle_scale (f_abs t)) speed acc in
  Returns (f_add (f_mul 0.5 ct) (f_mul pm tc)).

(* ------------------------------------------------------------------ *)
(** ** [LocalTrafficProvider._cached_lane_offset] *)

(** [d.setdefault(k, v)]: the value stored under [k], which becomes [v]
    when [k] is new. *)
Definition setdefault {K V} `{KeyEq K} (k : K) (v : V) (d : dict K V)
    : V * dict K V :=
  match dget k d with
  | Some v' => (v', d)
  | None => (v, dset k v d)
  end.

Definition _cached_lane_offset (vs : VehicleState) (lane : Lane)
    : M Provider pyfloat :=
  cache <- gets _offsets_cache ;;
  let '(lane_offsets, cache1) := setdefault (vs_vehicle_id vs) [] cache in
  let '(v, lane_offsets1) :=
    setdefault (lane_id lane)
      (offset_along_lane lane (pose_point (vs_pose vs))) lane_offsets in
  (* [lane_offsets] is the dict object stored in the cache *)
  modify (set__offsets_cache (dset (vs_vehicle_id vs) lane_offsets1 cache1)) ;;
  ret v.

(* ------------------------------------------------------------------ *)
(** ** The lane-window analyzer *)

(** [any(f(x) for x in xs)], stopping at the first [True] or exception. *)
Fixpoint any_o {X} (f : X -> outcome bool) (xs : list X) : outcome bool :=
  match xs with
  | [] => Returns false
  | x :: xs' =>
      let! b := f x in
      if b then Returns true else any_o f xs'
  end.

(** The recursion of [_connected_route_lanes] descends only through lanes
    [(lane_id, r_ind)] that are keys of [route_lens], with [r_ind] one
    larger at every level, so its depth is at most the number of keys;
    [fuel] is that bound. *)
Fixpoint _connected_route_lanes (fuel : nat) (start_lane end_lane : Lane)
    (route_lens : dict (string * Z) pyfloat) (r_ind : Z) : outcome bool :=
  match fuel with
  | O => Raises RecursionError
  | S fuel' =>
      let r_ind := (r_ind + 1)%Z in
      any_o (fun ogl =>
               let ogl := composite_lane ogl in
               if lane_eqb ogl end_lane then Returns true
               else if dmem (lane_id ogl, r_ind) route_lens
                    then _connected_route_lanes fuel' ogl end_lane route_lens r_ind
                    else Returns false)
            (outgoing_lanes start_lane)
  end.

(** The loop [for rind in range(...): ov_route_len = ...; if ov_route_len:
    break], whose body does not depend on [rind]: [Some] at a [break],
    [None] when the loop runs out (its [else] branch). *)
Fixpoint find_ov_route_len (rinds : list Z) (looked_up : option pyfloat)
    : option pyfloat :=
  match rinds with
  | [] => None
  | _ :: rest =>
      match looked_up with
      | Some v => if f_truthy v then Some v else find_ov_route_len rest looked_up
      | None => find_ov_route_len rest looked_up
      end
  end.

(** The variables the loop of [_compute_lane_window] carries:
    [lane_ttc], [lane_ttre], [lane_gap], [agent_gap]. *)
Definition win_acc : Type := (pyfloat * pyfloat * pyfloat * option pyfloat)%type.

(** The offset of the other vehicle [ovs] along [lane]; [None] stands for
    the [continue] statements. *)
Definition ov_offset_on (lane ov_lane : Lane) (ovs : VehicleState)
    (my_route_lens : dict (string * Z) pyfloat)
    (my_offset path_len : pyfloat) : M Env (option pyfloat) :=
  if lane_eqb ov_lane lane then
    o <- in_owner (_cached_lane_offset ovs lane) ;;
    ret (Some o)
  else
    route_ind <- self_get _route_ind ;;
    rt <- self_get _route ;;
    match find_ov_route_len
            (zrange (route_ind + 1) (Z.of_nat (List.length rt)))
            (dget (lane_id ov_lane, route_ind) my_route_lens) with
    | None => ret None
    | Some ov_route_len =>
        let fuel := S (List.length my_route_lens) in
        connected <-
          lift (if f_lt ov_route_len path_len
                then _connected_route_lanes fuel lane ov_lane my_route_lens route_ind
                else _connected_route_lanes fuel ov_lane lane my_route_lens route_ind) ;;
        if negb connected then ret None
        else
          ov_offset <- in_owner (_cached_lane_offset ovs ov_lane) ;;
          ret (Some (f_add ov_offset
                       (f_add my_offset (f_sub path_len ov_route_len))))
    end.

(** One iteration of the loop over [self._all_vehicle_states]. *)
Definition lane_window_step (lane : Lane)
    (my_route_lens : dict (string * Z) pyfloat)
    (my_offset path_len my_front_offset my_back_offset : pyfloat)
    (ovs : VehicleState) (acc : win_acc) : M Env (loop_ctl * win_acc) :=
  let '(lane_ttc, lane_ttre, lane_gap, agent_gap) := acc in
  st <- self_attr _state ;;
  if String.eqb (vs_vehicle_id ovs) (vs_vehicle_id st) then ret (Continue, acc)
  else
    cache <- owner_get _nearest_lanes_cache ;;
    ov_lane <- expect KeyError (dget (vs_vehicle_id ovs) cache) ;;
    match ov_lane with
    | None => ret (Continue, acc)
    | Some ov_lane =>
        let ov_lane := composite_lane ov_lane in
        off <- ov_offset_on lane ov_lane ovs my_route_lens my_offset path_len ;;
        match off with
        | None => ret (Continue, acc)
        | Some ov_offset =>
            let ov_front_offset :=
              f_add ov_offset (f_mul 0.5 (dim_length (vs_dimensions ovs))) in
            let ov_back_offset :=
              f_sub ov_offset (f_mul 0.5 (dim_length (vs_dimensions ovs))) in
            lane_speed <- self_get _lane_speed ;;
            sp <- expect KeyError (dget (lane_index lane) lane_speed) ;;
            let '(my_speed, my_acc) := sp in
            let speed_delta := f_sub my_speed (vs_speed ovs) in
            let acc_delta :=
              match vs_linear_acceleration ovs with
              | Some v => f_sub my_acc (np_linalg_norm v)
              | None => my_acc
              end in
            min_space_cush <- self_get _min_space_cush ;;
            acc' <-
              (if f_le my_offset ov_offset then
                 let ov_front_gap :=
                   py_max2 (f_sub ov_back_offset my_front_offset) 0 in
                 let lane_gap :=
                   if f_lt ov_front_gap lane_gap then ov_front_gap else lane_gap in
                 if f_gt lane_ttc 0 then
                   let ntc := py_max2 (f_sub ov_front_gap min_space_cush) 0 in
                   t <- lift (time_to_cover ntc speed_delta acc_delta) ;;
                   let ov_ttc := py_max2 t 0 in
                   let lane_ttc :=
                     if f_lt ov_ttc lane_ttc then ov_ttc else lane_ttc in
                   ret (lane_ttc, lane_ttre, lane_gap, agent_gap)
                 else ret (lane_ttc, lane_ttre, lane_gap, agent_gap)
               else if f_gt lane_ttre 0 then
                 let ov_back_gap :=
                   py_max2 (f_sub (f_sub my_back_offset ov_front_offset)
                                  min_space_cush) 0 in
                 ov_ttre <- lift (time_to_cover ov_back_gap (f_neg speed_delta)
                                                (f_neg acc_delta)) ;;
                 let lane_ttre :=
                   if f_lt ov_ttre lane_ttre then ov_ttre else lane_ttre in
                 let agent_gap :=
                   if role_eqb (vs_role ovs) EgoAgent
                      && match agent_gap with
                         | None => true
                         | Some g => f_gt ov_back_gap 0 && f_lt ov_back_gap g
                         end
                   then Some ov_back_gap else agent_gap in
                 ret (lane_ttc, lane_ttre, lane_gap, agent_gap)
               else ret acc) ;;
            let '(lane_ttc, lane_ttre, lane_gap, agent_gap) := acc' in
            if f_eq lane_ttc 0 && f_eq lane_ttre 0 then
              py_assert (f_le lane_gap min_space_cush) ;;
              ret (Break, acc')
            else ret (Continue, acc')
        end
    end.

Definition _compute_lane_window (lane : Lane) (next_route_road : option string)
    : M Env unit :=
  st <- self_attr _state ;;
  let lane_coord := to_lane_coord lane (pose_point (vs_pose st)) in
  let my_offset := rl_s lane_coord in
  route_id <- self_get _route_id ;;
  lens <- owner_get _route_lane_lengths ;;
  my_route_lens <- expect KeyError (dget route_id lens) ;;
  route_ind <- self_get _route_ind ;;
  let path_len :=
    vget (dget (lane_id lane, route_ind) my_route_lens) (lane_length lane) in
  let path_len := f_sub path_len my_offset in
  my_speed <- self_call speed ;;
  lane_time_left <- lift (pydiv path_len my_speed) ;;
  st <- self_attr _state ;;
  let my_front_offset :=
    f_add my_offset (f_mul 0.5 (dim_length (vs_dimensions st))) in
  let my_back_offset :=
    f_sub my_offset (f_mul 0.5 (dim_length (vs_dimensions st))) in
  all <- self_get _all_vehicle_states ;;
  r <- for_fold all (PInf, PInf, PInf, None)
         (lane_window_step lane my_route_lens my_offset path_len
            my_front_offset my_back_offset) ;;
  let '(lane_ttc, lane_ttre, lane_gap, agent_gap) := r in
  self_set (fun a =>
    set__lane_windows
      (dset (lane_index lane)
         (LaneWindow_init lane (py_min2 lane_time_left lane_ttc) lane_ttre
            lane_gap lane_coord agent_gap)
         (_lane_windows a)) a).

Definition _crossing_time_into (target_idx : Z) (a : Actor)
    : outcome (pyfloat * bool) :=
  let! l := attr (_lane a) in
  let my_idx := lane_index l in
  if (my_idx =? target_idx)%Z then Returns (Fin 0, true)
  else
    let min_idx := Z.min target_idx (my_idx + 1) in
    let max_idx := Z.max (target_idx + 1) my_idx in
    let! my_lw := oexpect KeyError (dget my_idx (_lane_windows a)) in
    let! sp := speed a in
    let! ac := acceleration a in
    let! cross_time := exit_time my_lw sp target_idx ac in
    let! cross_time :=
      fold_left
        (fun (ct : outcome pyfloat) (i : Z) =>
           let! ct := ct in
           let! lw := oexpect KeyError (dget i (_lane_windows a)) in
           let! sp := speed a in
           let! ac := acceleration a in
           let! lct := crossing_time_at_speed lw target_idx sp ac in
           let lct := if (i =? target_idx)%Z then f_mul lct 0.5 else lct in
           Returns (f_add ct lct))
        (zrange min_idx max_idx) (Returns cross_time) in
    let! blocked :=
      any_o (fun i =>
               let! lw := oexpect KeyError (dget i (_lane_windows a)) in
               Returns (f_le (py_min2 (lw_time_left lw) (lw_ttre lw)) cross_time))
            (zrange min_idx max_idx) in
    Returns (cross_time, negb blocked).

Definition _should_cutin (lw : LaneWindow) : M Env bool :=
  l <- self_attr _lane ;;
  if (lane_index (lw_lane lw) =? lane_index l)%Z then ret false
  else
    tgt <- self_get _target_cutin_gap ;;
    agg <- self_get _aggressiveness ;;
    min_gap <- lift (pydiv tgt agg) ;;
    let max_gap := f_add tgt 2 in
    agent_gap <- expect TypeError (lw_agent_gap lw) ;;
    if f_lt min_gap agent_gap && f_lt agent_gap max_gap then
      ci <- self_call (_crossing_time_into (lane_index (lw_lane lw))) ;;
      if snd ci then
        r <- in_owner py_random ;;
        prob <- self_get _cutin_prob ;;
        ret (f_lt r prob)
      else ret false
    else ret false.

(** The [for road, next_route_road in zip(route, route[1:])] loop of
    [_compute_lane_windows]: the successor of the first route entry equal
    to the current road, [None] from the loop's [else] branch. *)
Fixpoint find_next_route_road (rd : Road) (rt : list string) : option string :=
  match rt with
  | r :: ((r' :: _) as rest) =>
      if road_eq_str rd r then Some r' else find_next_route_road rd rest
  | _ => None
  end.

Definition _compute_lane_windows : M Env unit :=
  self_set (set__lane_windows []) ;;
  rt <- self_get _route ;;
  next_route_road <-
    (match rt with
     | _ :: _ :: _ => rd <- self_call road ;; ret (find_next_route_road rd rt)
     | _ => ret None
     end) ;;
  rd <- self_call road ;;
  for_all (road_lanes rd) (fun lane => _compute_lane_window lane next_route_road) ;;
  items <- self_get _lane_windows ;;
  for_all items (fun '(index, _) =>
    ct <- self_call (_crossing_time_into index) ;;
    wins <- self_get _lane_windows ;;
    lw <- expect KeyError (dget index wins) ;;
    self_set (fun a =>
      set__lane_windows
        (dset index
           (set_lw_adj_time_left (f_sub (lw_adj_time_left lw) (fst ct)) lw)
           (_lane_windows a)) a)).

(** The truth value of [self._cutting_into]: a [_LaneWindow] object is
    true, [None] is false. *)
Definition lw_truthy (o : option LaneWindow) : bool :=
  match o with Some _ => true | None => false end.

(** The truth value of [lw.agent_gap]. *)
Definition agent_gap_truthy (o : option pyfloat) : bool :=
  match o with Some g => f_truthy g | None => false end.

(** How an iteration of the [while] loop of [_pick_lane] ends. *)
Inductive pick_ctl : Type :=
| PickBreak (best_lw : LaneWindow)
| PickNext (best_lw : LaneWindow).

(** The cut-in persistence test in the loop body,
    [if self._cutting_into and self._crossing_time_into(...)[1]: ...].
    It returns whether the loop [break]s, with the value of [best_lw]. *)
Definition pick_lane_cutin_hold (dt : pyfloat) (best_lw : LaneWindow)
    : M Env (bool * LaneWindow) :=
  cutting_into <- self_get _cutting_into ;;
  match cutting_into with
  | None => ret (false, best_lw)
  | Some ci =>
      feas <- self_call (_crossing_time_into (lane_index (lw_lane ci))) ;;
      if snd feas then
        let best_lw := ci in
        l <- self_attr _lane ;;
        if negb (lane_eqb (lw_lane ci) l) then ret (true, best_lw)
        else
          self_set (fun a =>
            set__in_front_after_cutin_secs
              (f_add (_in_front_after_cutin_secs a) dt) a) ;;
          in_front_secs <- self_attr _in_front_secs ;;
          hold <- self_get _cutin_hold_secs ;;
          if f_lt in_front_secs hold then ret (true, best_lw)
          else ret (false, best_lw)
      else ret (false, best_lw)
  end.

(** The body of the [while] loop of [_pick_lane], up to [idx += 1]. *)
Definition pick_lane_body (dt : pyfloat) (idx : Z) (best_lw : LaneWindow)
    : M Env pick_ctl :=
  feas <- self_call (_crossing_time_into idx) ;;
  if negb (snd feas) then ret (PickBreak best_lw)
  else
    wins <- self_get _lane_windows ;;
    lw <- expect KeyError (dget idx wins) ;;
    dest_lane <- self_attr _dest_lane ;;
    at_dest <-
      (if lane_eqb (lw_lane lw) dest_lane then
         dest_offset <- self_attr _dest_offset ;;
         ret (f_ge (f_add (rl_s (lw_lane_coord lw)) (lw_gap lw)) dest_offset)
       else ret false) ;;
    if at_dest then ret (PickBreak lw)
    else
      held <- pick_lane_cutin_hold dt best_lw ;;
      match held with
      | (true, best_lw) => ret (PickBreak best_lw)
      | (false, best_lw) =>
          self_set (set__cutting_into None) ;;
          self_set (set__in_front_secs (Some (Fin 0))) ;;
          cut <-
            (if agent_gap_truthy (lw_agent_gap lw) then _should_cutin lw
             else ret false) ;;
          if cut then
            self_set (set__cutting_into (Some lw)) ;;
            ret (PickNext lw)
          else
            better <-
              (if f_gt (lw_adj_time_left lw) (lw_adj_time_left best_lw)
               then ret true
               else if f_eq (lw_adj_time_left lw) (lw_adj_time_left best_lw) then
                 dest_lane <- self_attr _dest_lane ;;
                 to_dest <-
                   (if lane_eqb (lw_lane lw) dest_lane then
                      off <- self_attr _offset ;;
                      dest_offset <- self_attr _dest_offset ;;
                      ret (f_lt off dest_offset)
                    else ret false) ;;
                 if to_dest then ret true
                 else ret (f_gt (lw_ttre lw) (lw_ttre best_lw)
                           && (idx <? lane_index (lw_lane best_lw))%Z)
               else ret false) ;;
            ret (PickNext (if better then lw else best_lw))
      end.

(** The [while] loop of [_pick_lane].  [idx] starts at [my_idx], is
    advanced modulo the number [n] of lane windows and the loop stops when
    it is back at [my_idx], so fewer than [n + 1] iterations run; [fuel] is
    that bound. *)
Fixpoint pick_lane_loop (fuel : nat) (dt : pyfloat) (my_idx idx : Z)
    (best_lw : LaneWindow) : M Env LaneWindow :=
  match fuel with
  | O => raise RecursionError
  | S fuel' =>
      wins <- self_get _lane_windows ;;
      if (0 <=? idx)%Z && (idx <? dlen wins)%Z then
        c <- pick_lane_body dt idx best_lw ;;
        match c with
        | PickBreak best => ret best
        | PickNext best =>
            wins <- self_get _lane_windows ;;
            if (dlen wins =? 0)%Z then raise ZeroDivisionError
            else
              let idx := ((idx + 1) mod dlen wins)%Z in
              if (idx =? my_idx)%Z then ret best
              else pick_lane_loop fuel' dt my_idx idx best
        end
      else ret best_lw
  end.

Definition _pick_lane (dt : pyfloat) : M Env unit :=
  _compute_lane_windows ;;
  l <- self_attr _lane ;;
  let my_idx := lane_index l in
  wins <- self_get _lane_windows ;;
  my_lw <- expect KeyError (dget my_idx wins) ;;
  self_set (set__lane_win (Some my_lw)) ;;
  wins <- self_get _lane_windows ;;
  best_lw <- expect KeyError (dget my_idx wins) ;;
  wins <- self_get _lane_windows ;;
  best_lw <- pick_lane_loop (S (List.length wins)) dt my_idx my_idx best_lw ;;
  self_set (set__target_lane_win (Some best_lw)).

(* ------------------------------------------------------------------ *)
(** ** Controllers *)

(** The local function [_get_radius] of [_compute_lane_speeds]. *)
Definition _get_radius (lane : Lane) : M Env pyfloat :=
  st <- self_attr _state ;;
  l_offset <- in_owner (_cached_lane_offset st lane) ;;
  let l_width := fst (width_at_offset lane l_offset) in
  c <- lift (math_ceil (f_mul 2 l_width)) ;;
  ret (curvature_radius_at_offset lane l_offset (Z.max c 2)).

Definition _compute_lane_speeds : M Env unit :=
  self_set (set__lane_speed []) ;;
  l <- self_attr _lane ;;
  my_radius <- _get_radius l ;;
  l <- self_attr _lane ;;
  for_all (road_lanes (lane_road l)) (fun l =>
    l_radius <- _get_radius l ;;
    ratio <-
      (if f_lt (f_abs my_radius) 1e5 && f_lt (f_abs l_radius) 1e5 then
         ratio <- lift (pydiv l_radius my_radius) ;;
         ret (if f_lt ratio 0 then Fin 1 else ratio)
       else ret (Fin 1)) ;;
    sp <- self_call speed ;;
    ac <- self_call acceleration ;;
    self_set (fun a =>
      set__lane_speed
        (dset (lane_index l) (f_mul ratio sp, f_mul ratio ac) (_lane_speed a)) a)).

Definition _slow_for_curves : M Env unit :=
  target_speed <- self_attr _target_speed ;;
  lg <- lift (math_log target_speed) ;;
  lookahead <- lift (math_ceil (f_add 1 lg)) ;;
  l <- self_attr _lane ;;
  off <- self_attr _offset ;;
  let radius := curvature_radius_at_offset l off lookahead in
  target_speed <- self_attr _target_speed ;;
  self_set (set__target_speed
              (Some (py_min2 (f_mul (f_abs radius) 0.5714) target_speed))).

Definition _check_speed : M Env unit :=
  tw <- self_attr _target_lane_win ;;
  let target_lane := lw_lane tw in
  match lane_speed_limit target_lane with
  | None =>
      sp <- self_call speed ;;
      self_set (set__target_speed (Some sp)) ;;
      _slow_for_curves
  | Some limit =>
      self_set (set__target_speed (Some limit)) ;;
      factor <- self_get _speed_factor ;;
      self_set (set__target_speed (Some (f_mul limit factor))) ;;
      _slow_for_curves ;;
      vt <- self_get _vtype ;;
      let max_speed := vget (vt_maxSpeed vt) 55.55 in
      target_speed <- self_attr _target_speed ;;
      if f_ge target_speed max_speed
      then self_set (set__target_speed (Some max_speed))
      else ret tt
  end.

Definition _angle_to_lane (dt : pyfloat) : M Env pyfloat :=
  st <- self_attr _state ;;
  let my_heading := pose_heading (vs_pose st) in
  sp <- self_call speed ;;
  let look_ahead := py_max2 (f_mul dt sp) 2 in
  st <- self_attr _state ;;
  let pos := pose_point (vs_pose st) in
  let v := radians_to_vec my_heading in
  let proj_pt :=
    mkPoint (f_add (pt_x pos) (f_mul look_ahead (fst v)))
            (f_add (pt_y pos) (f_mul look_ahead (snd v))) (Fin 0) in
  tw <- self_attr _target_lane_win ;;
  let target_lane := lw_lane tw in
  let lane_coord := to_lane_coord target_lane proj_pt in
  let lat_err := rl_t lane_coord in
  let target_vec := vector_at_offset target_lane (rl_s lane_coord) in
  let target_heading := vec_to_radians (firstn 2 target_vec) in
  let heading_delta := min_angles_difference_signed target_heading my_heading in
  ret (f_sub (f_mul 3.75 heading_delta) (f_mul 1.25 lat_err)).

(** The value [time_cush] of [_compute_acceleration]:
    [max(min(target.time_left, target.gap / speed, current.time_left,
    current.gap / speed), 0)], given the two quotients. *)
Definition time_cush (target_time_left target_gap_time current_time_left
    current_gap_time : pyfloat) : pyfloat :=
  py_max2 (py_min4 target_time_left target_gap_time current_time_left
             current_gap_time) 0.

(** [severity = 3 * (min_time_cush - time_cush) / min_time_cush] *)
Definition time_severity (min_time_cush time_cush : pyfloat) : outcome pyfloat :=
  pydiv (f_mul 3 (f_sub min_time_cush time_cush)) min_time_cush.

Definition _compute_acceleration (dt : pyfloat) : M Env pyfloat :=
  vt <- self_get _vtype ;;
  let emergency_decl := vget (vt_emergencyDecel vt) 4.5 in
  py_assert (f_ge emergency_decl 0) ;;
  tw <- self_attr _target_lane_win ;;
  sp <- self_call speed ;;
  g1 <- lift (pydiv (lw_gap tw) sp) ;;
  lw <- self_attr _lane_win ;;
  sp <- self_call speed ;;
  g2 <- lift (pydiv (lw_gap lw) sp) ;;
  let time_cush := time_cush (lw_time_left tw) g1 (lw_time_left lw) g2 in
  let min_time_cush := vget (vt_tau vt) 1 in
  if f_lt time_cush min_time_cush then
    sp <- self_call speed ;;
    if f_gt sp 0 then
      severity <- lift (time_severity min_time_cush time_cush) ;;
      ret (f_mul (f_neg emergency_decl) (np_clip severity 0 1))
    else ret (Fin 0)
  else
    tw <- self_attr _target_lane_win ;;
    lw <- self_attr _lane_win ;;
    let space_cush := py_max2 (py_min2 (lw_gap tw) (lw_gap lw)) 0 in
    min_space_cush <- self_get _min_space_cush ;;
    if f_lt space_cush min_space_cush then
      sp <- self_call speed ;;
      if f_gt sp 0 then
        severity <-
          lift (pydiv (f_mul 2 (f_sub min_space_cush space_cush)) min_space_cush) ;;
        ret (f_mul (f_neg emergency_decl) (np_clip severity 0 1))
      else ret (Fin 0)
    else
      lane_speed <- self_get _lane_speed ;;
      tw <- self_attr _target_lane_win ;;
      spac <- expect KeyError (dget (lane_index (lw_lane tw)) lane_speed) ;;
      let '(my_speed, my_acc) := spac in
      target_speed <- self_attr _target_speed ;;
      let P := f_mul 0.0060 (f_sub target_speed my_speed) in
      let I := Fin 0 in
      let D := f_mul (-0.0010) my_acc in
      PID <- lift (pydiv (f_add (f_add P I) D) dt) ;;
      let PID := np_clip PID (-1) 1 in
      if f_gt PID 0 then
        let max_accel := vget (vt_accel vt) 2.6 in
        py_assert (f_ge max_accel 0) ;;
        ret (f_mul PID max_accel)
      else
        let max_decel := vget (vt_decel vt) 4.5 in
        py_assert (f_ge max_decel 0) ;;
        ret (f_mul PID max_decel).

(* ------------------------------------------------------------------ *)
(** ** The actor stepper *)

(** The last statements of [compute_next_state]: the next heading, linear
    acceleration, speed and pose from the controls. *)
Definition set_next_state (dt angular_velocity acceleration : pyfloat)
    : M Env unit :=
  st <- self_attr _state ;;
  let target_heading :=
    f_add (pose_heading (vs_pose st)) (f_mul angular_velocity dt) in
  target_heading <- lift (f_mod target_heading (f_mul 2 (Fin PI))) ;;
  let heading_vec := radians_to_vec target_heading in
  self_set (set__next_linear_acceleration
              (Some [f_mul (f_mul dt acceleration) (fst heading_vec);
                     f_mul (f_mul dt acceleration) (snd heading_vec)])) ;;
  st <- self_attr _state ;;
  self_set (set__next_speed (Some (f_add (vs_speed st) (f_mul acceleration dt)))) ;;
  sp <- self_call speed ;;
  let dpos := (f_mul (f_mul (fst heading_vec) sp) dt,
               f_mul (f_mul (snd heading_vec) sp) dt) in
  st <- self_attr _state ;;
  let pos := pose_point (vs_pose st) in
  let target_pos :=
    mkPoint (f_add (pt_x pos) (fst dpos)) (f_add (pt_y pos) (snd dpos))
            (f_add (pt_z pos) 0) in
  self_set (set__next_pose
              (Some (Pose_from_center target_pos (Heading target_heading)))).

Definition compute_next_state (dt : pyfloat)
    (all_vehicle_states : list VehicleState) : M Env unit :=
  self_set (set__all_vehicle_states all_vehicle_states) ;;
  _compute_lane_speeds ;;
  _pick_lane dt ;;
  _check_speed ;;
  angular_velocity <- _angle_to_lane dt ;;
  acceleration <- _compute_acceleration dt ;;
  set_next_state dt angular_velocity acceleration.

(** The argument [dimensions] of [_resolve_flow_pos]: [from_flow] and
    [_reroute] pass a [Dimensions] object, [from_state] and [update_route]
    pass a length. *)
Inductive DimsArg : Type :=
| DimsObject (d : Dimensions)
| DimsLength (x : pyfloat).

Definition _resolve_flow_pos (flow : Flow) (depart : bool) (dims : DimsArg)
    : M Env (Lane * pyfloat) :=
  rt <- self_get _route ;;
  road_id <- expect IndexError
               (if depart then hd_error rt else last (map Some rt) None) ;;
  rd <- expect PyException (road_by_id road_id) ;;
  lane_ind <- expect KeyError
                (if depart then fl_departLane flow else fl_arrivalLane flow) ;;
  if negb ((0 <=? lane_ind)%Z && (lane_ind <? Z.of_nat (List.length (road_lanes rd)))%Z)
  then raise PyException
  else
    lane <- expect IndexError (nth_error (road_lanes rd) (Z.to_nat lane_ind)) ;;
    tok <- expect KeyError
             (if depart then fl_departPos flow else fl_arrivalPos flow) ;;
    offset <-
      (match tok with
       | PosMax =>
           if depart then
             half <-
               (match dims with
                | DimsObject d => lift (float_mul_Dimensions 0.5 d)
                | DimsLength x => ret (f_mul 0.5 x)
                end) ;;
             ret (f_sub (lane_length lane) half)
           else ret (lane_length lane)
       | PosRandom =>
           r <- in_owner py_random ;;
           ret (f_mul r (lane_length lane))
       | PosNum x =>
           if f_le 0 x && f_le x (lane_length lane) then ret x
           else raise PyException
       end) ;;
    let target_pt := from_lane_coord lane (mkRefLinePoint offset (Fin 0)) in
    let lane := composite_lane lane in
    ret (lane, offset_along_lane lane target_pt).

Definition _resolve_flow_speed (flow : Flow) : M Env pyfloat :=
  let depart_speed :=
    match fl_departSpeed flow with
    | Some t => t
    | None => SpeedNum (Fin 0)
    end in
  vt <- self_get _vtype ;;
  let max_speed := vget (vt_maxSpeed vt) 55.5 in
  match depart_speed with
  | SpeedRandom =>
      r <- in_owner py_random ;;
      ret (f_mul r max_speed)
  | SpeedMax =>
      l <- self_attr _lane ;;
      limit <- expect TypeError (lane_speed_limit l) ;;
      ret (py_min2 max_speed limit)
  | SpeedLimit =>
      l <- self_attr _lane ;;
      match lane_speed_limit l with
      | Some limit => ret limit
      | None => raise PyException
      end
  | SpeedNum departSpeed =>
      py_assert (f_ge departSpeed 0) ;;
      ret departSpeed
  end.

Definition _reroute : M Env unit :=
  rt <- self_get _route ;;
  first_road <- expect IndexError (hd_error rt) ;;
  l <- self_attr _lane ;;
  if existsb (fun oid => String.eqb first_road (road_id oid))
             (outgoing_roads (lane_road l))
  then
    self_set (set__route_ind (-1)%Z) ;;
    in_owner (logger_emit LogDebug "will loop around to beginning of its route"%string)
  else
    in_owner (logger_emit LogInfo "teleporting back to beginning of its route"%string) ;;
    fl <- self_get _flow ;;
    st <- self_attr _state ;;
    r <- _resolve_flow_pos fl true (DimsObject (vs_dimensions st)) ;;
    let '(lane, offset) := r in
    self_set (set__lane (Some lane)) ;;
    self_set (set__offset (Some offset)) ;;
    let position := from_lane_coord lane (mkRefLinePoint offset (Fin 0)) in
    let heading := vec_to_radians (firstn 2 (vector_at_offset lane offset)) in
    st <- self_attr _state ;;
    self_set (set__state
                (Some (set_vs_pose (Pose_from_center position (Heading heading)) st))) ;;
    fl <- self_get _flow ;;
    sp <- _resolve_flow_speed fl ;;
    st <- self_attr _state ;;
    self_set (set__state (Some (set_vs_speed sp st))) ;;
    st <- self_attr _state ;;
    self_set (set__state
                (Some (set_vs_linear_acceleration
                         (Some [Fin 0; Fin 0; Fin 0]) st))) ;;
    self_set (set__route_ind 0%Z).

(** The [for nl, d in nls] loop of [step]; it carries [best_d]. *)
Definition relocalize_step (nld : Lane * pyfloat) (best_d : option pyfloat)
    : M Env (loop_ctl * option pyfloat) :=
  let '(nl, d) := nld in
  rt <- self_get _route ;;
  if existsb (String.eqb (road_id (lane_road nl))) rt then
    self_set (set__lane (Some nl)) ;;
    self_set (set__off_route false) ;;
    ret (Break, best_d)
  else
    if match best_d with None => true | Some b => f_lt d b end then
      self_set (set__lane (Some nl)) ;;
      ret (Continue, Some d)
    else ret (Continue, best_d).

(** The first statements of [step]: the pre-computed next state becomes
    the vehicle state. *)
Definition commit_next_state : M Env unit :=
  st <- self_attr _state ;;
  next_pose <- self_attr _next_pose ;;
  self_set (set__state (Some (set_vs_pose next_pose st))) ;;
  st <- self_attr _state ;;
  next_speed <- self_attr _next_speed ;;
  self_set (set__state (Some (set_vs_speed next_speed st))) ;;
  st <- self_attr _state ;;
  next_acc <- self_attr _next_linear_acceleration ;;
  self_set (set__state (Some (set_vs_linear_acceleration (Some next_acc) st))).

(** [_TrafficActor.step] *)
Definition step (dt : pyfloat) : M Env unit :=
  commit_next_state ;;
  l <- self_attr _lane ;;
  let prev_road_id := road_id (lane_road l) in
  next_pose <- self_attr _next_pose ;;
  st <- self_attr _state ;;
  let nls :=
    nearest_lanes (pose_point next_pose) (dim_length (vs_dimensions st)) true in
  self_set (set__lane None) ;;
  self_set (set__off_route true) ;;
  _ <- for_fold nls None relocalize_step ;;
  l <- self_get _lane ;;
  l <- expect AssertionError l ;;
  self_set (set__lane (Some (composite_lane l))) ;;
  l <- self_attr _lane ;;
  let road_id' := road_id (lane_road l) in
  (if negb (String.eqb road_id' prev_road_id)
   then self_set (fun a => set__route_ind (_route_ind a + 1)%Z a)
   else ret tt) ;;
  l <- self_attr _lane ;;
  next_pose <- self_attr _next_pose ;;
  self_set (set__offset (Some (offset_along_lane l (pose_point next_pose)))) ;;
  l <- self_attr _lane ;;
  dest_lane <- self_attr _dest_lane ;;
  arrived <-
    (if lane_eqb l dest_lane then
       off <- self_attr _offset ;;
       dest_offset <- self_attr _dest_offset ;;
       ret (f_ge off dest_offset)
     else ret false) ;;
  if arrived then
    endless <- owner_get _endless_traffic ;;
    if endless then _reroute
    else self_set (set__done_with_route true)
  else ret tt.

(* ------------------------------------------------------------------ *)
(** ** Construction *)

(** [self._log]: the class assigns [self._logger] and never [self._log],
    so evaluating this attribute raises [AttributeError]. *)
Definition self__log {S} : M S unit := raise AttributeError.

(** [_TrafficActor.__init__(flow, owner)]; the result is the new object. *)
Definition __init__ (flow : Flow) : M Provider Actor :=
  let vtype := fl_vtype flow in
  let min_space_cush := vget (vt_minGap vtype) 2.5 in
  let speed_factor := vget (vt_speedFactor vtype) 1 in
  let speed_dev := vget (vt_speedDev vtype) 0.1 in
  speed_factor <- py_gauss speed_factor speed_dev ;;
  let target_cutin_gap := f_mul 2.5 min_space_cush in
  let aggressiveness := vget (vt_lcAssertive vtype) 1 in
  aggressiveness <-
    (if f_le aggressiveness 0 then
       self__log ;;
       logger_emit LogWarning "non-positive value for 'assertive' lane-changing parameter will be ignored"%string ;;
       ret (Fin 1)
     else ret aggressiveness) ;;
  let cutin_prob := vget (vt_lcCutinProb vtype) 0 in
  cutin_prob <-
    (if negb (f_le 0 cutin_prob && f_le cutin_prob 1) then
       self__log ;;
       logger_emit LogWarning "illegal probability for 'cutin_prob' lane-changing parameter will be ignored"%string ;;
       ret (Fin 0)
     else ret cutin_prob) ;;
  modify (fun p => set__actors_created (_actors_created p + 1)%Z p) ;;
  ret {| _all_vehicle_states := [];
         _flow := flow;
         _vtype := vtype;
         _route_ind := 0%Z;
         _done_with_route := false;
         _off_route := false;
         _route := fl_route flow;
         _route_id := fl_route_id flow;
         _lane_speed := [];
         _lane_windows := [];
         _lane_win := None;
         _target_lane_win := None;
         _min_space_cush := min_space_cush;
         _speed_factor := speed_factor;
         _cutting_into := None;
         _in_front_after_cutin_secs := Fin 0;
         _cutin_hold_secs := Fin 3;
         _target_cutin_gap := target_cutin_gap;
         _aggressiveness := aggressiveness;
         _cutin_prob := cutin_prob;
         _lane := None;
         _offset := None;
         _state := None;
         _dest_lane := None;
         _dest_offset := None;
         _in_front_secs := None;
         _target_speed := None;
         _next_linear_acceleration := None;
         _next_speed := None;
         _next_pose := None |}.

(** [str(n)] for the counter in a vehicle id. *)
Definition str_of_Z (n : Z) : string :=
  match n with
  | Z0 => "0"%string
  | Zpos p => NilZero.string_of_uint (Pos.to_uint p)
  | Zneg p => String.append "-"%string (NilZero.string_of_uint (Pos.to_uint p))
  end.

(** [_TrafficActor.from_flow(flow, owner)] *)
Definition from_flow (flow : Flow) : M Provider Actor :=
  vclass <- expect KeyError (vt_vClass (fl_vtype flow)) ;;
  dimensions <- expect KeyError (VEHICLE_CONFIGS vclass) ;;
  let vehicle_type := if String.eqb vclass "passenger"%string then "car"%string else vclass in
  new_actor <- __init__ flow ;;
  r <- with_self new_actor
         (r <- _resolve_flow_pos flow true (DimsObject dimensions) ;;
          let '(lane, offset) := r in
          self_set (set__lane (Some lane)) ;;
          self_set (set__offset (Some offset)) ;;
          let position := from_lane_coord lane (mkRefLinePoint offset (Fin 0)) in
          let heading := vec_to_radians (firstn 2 (vector_at_offset lane offset)) in
          init_speed <- _resolve_flow_speed flow ;;
          vt <- self_get _vtype ;;
          vid <- expect KeyError (vt_id vt) ;;
          created <- owner_get _actors_created ;;
          self_set (set__state (Some
            {| vs_vehicle_id := String.append vid (String.append "-"%string (str_of_Z created));
               vs_pose := Pose_from_center position (Heading heading);
               vs_dimensions := dimensions;
               vs_vehicle_type := vehicle_type;
               vs_vehicle_config_type := Some vclass;
               vs_speed := init_speed;
               vs_linear_acceleration := Some [Fin 0; Fin 0; Fin 0];
               vs_source := source_str;
               vs_role := Social |})) ;;
          r <- _resolve_flow_pos flow false (DimsObject dimensions) ;;
          let '(dest_lane, dest_offset) := r in
          self_set (set__dest_lane (Some dest_lane)) ;;
          self_set (set__dest_offset (Some dest_offset))) ;;
  ret (snd r).

(* ------------------------------------------------------------------ *)
(** ** [LocalTrafficProvider] *)

Definition manages_vehicle (vehicle_id : string) (p : Provider) : bool :=
  dmem vehicle_id (_my_actors p).

Definition _add_actor_in_flow (flow : Flow) : M Provider bool :=
  new_actor <- from_flow flow ;;
  new_actor_bbox <- lift (bbox true new_actor) ;;
  reserved <- gets _reserved_areas ;;
  if existsb (fun reserved_area => intersects reserved_area new_actor_bbox)
             (dvalues reserved)
  then ret false
  else
    actors <- gets _my_actors ;;
    hit <- lift (any_o (fun actor =>
                          let! b := bbox false actor in
                          Returns (intersects b new_actor_bbox))
                       (dvalues actors)) ;;
    if hit then ret false
    else
      id <- lift (actor_id new_actor) ;;
      modify (fun p => set__my_actors (dset id new_actor (_my_actors p)) p) ;;
      logger_emit LogInfo "traffic actor entered simulation"%string ;;
      ret true.

(** The body of the loop of [_add_actors_for_time], for the flow stored
    under [key]. *)
Definition add_actors_for_flow (sim_time : pyfloat) (key : string)
    : M Provider unit :=
  flows <- gets _flows ;;
  flow <- expect KeyError (dget key flows) ;;
  if negb (f_le (fl_begin flow) sim_time && f_lt sim_time (fl_end flow))
  then ret tt
  else
    let last_added := fl_last_added flow in
    if match last_added with
       | None => true
       | Some la => f_ge (f_sub sim_time la) (fl_emit_period flow)
       end
    then
      added <- _add_actor_in_flow flow ;;
      if added then
        modify (fun p =>
          set__flows (dset key (set_fl_last_added (Some sim_time) flow) (_flows p)) p)
      else ret tt
    else ret tt.

Definition _add_actors_for_time (sim_time : pyfloat) : M Provider unit :=
  flows <- gets _flows ;;
  for_all (dkeys flows) (add_actors_for_flow sim_time).

(** [[actor.state for actor in self._my_actors.values()]] *)
Fixpoint states_of (actors : list Actor) : outcome (list VehicleState) :=
  match actors with
  | [] => Returns []
  | a :: rest =>
      let! s := state a in
      let! ss := states_of rest in
      Returns (s :: ss)
  end.

Definition _my_actor_states (p : Provider) : outcome (list VehicleState) :=
  states_of (dvalues (_my_actors p)).

Definition _other_vehicle_states (p : Provider) : list VehicleState :=
  map fst (dvalues (_other_vehicles p)).

Definition _all_states (p : Provider) : outcome (list VehicleState) :=
  let! mine := _my_actor_states p in
  Returns (mine ++ _other_vehicle_states p).

(** [ProviderState(vehicles=...)] *)
Definition _provider_state (p : Provider) : outcome (list VehicleState) :=
  _my_actor_states p.

(** A method call on the actor object stored under [key] in [_my_actors]. *)
Definition on_actor {A} (key : string) (m : M Env A) : M Provider A :=
  fun p =>
    match dget key (_my_actors p) with
    | None => (Raises KeyError, p)
    | Some a =>
        let '(r, e) := m (mkEnv a p) in
        (r, set__my_actors (dset key (self e) (_my_actors (owner e))) (owner e))
    end.

(** The body of the first loop of [step], for the actor stored under
    [key]: [actor.compute_next_state(dt, self._all_states)]. *)
Definition decide_one (dt : pyfloat) (key : string) : M Provider unit :=
  p <- gets (fun p => p) ;;
  all <- lift (_all_states p) ;;
  on_actor key (compute_next_state dt all).

(** Phase 1 of [step]: [for actor in self._my_actors.values():
    actor.compute_next_state(dt, self._all_states)]. *)
Definition decide_all (dt : pyfloat) : M Provider unit :=
  actors <- gets _my_actors ;;
  for_all (dkeys actors) (decide_one dt).

(** Phase 2 of [step]: [actor.step(dt)] for every actor, collecting the
    ids of those that finished. *)
Definition commit_all (dt : pyfloat) : M Provider (list string) :=
  actors <- gets _my_actors ;;
  for_fold (dkeys actors) [] (fun key dones =>
    on_actor key (step dt) ;;
    finished <- on_actor key (self_get finished_route) ;;
    if finished then
      id <- on_actor key (self_call actor_id) ;;
      ret (Continue, dones ++ [id])
    else ret (Continue, dones)).

(** [del d[k]] *)
Definition py_del {V} (k : string) (d : dict string V) : outcome (dict string V) :=
  if dmem k d then Returns (ddel k d) else Raises KeyError.

(** [LocalTrafficProvider.step(actions, dt, elapsed_sim_time)]; [actions]
    is not used. *)
Definition provider_step (dt elapsed_sim_time : pyfloat)
    : M Provider (list VehicleState) :=
  _add_actors_for_time elapsed_sim_time ;;
  others <- gets _other_vehicles ;;
  for_all (dvalues others) (fun '(other, _) =>
    reserved <- gets _reserved_areas ;;
    if dmem (vs_vehicle_id other) reserved then
      modify (fun p =>
        set__reserved_areas (ddel (vs_vehicle_id other) (_reserved_areas p)) p)
    else ret tt) ;;
  modify (set__nearest_lanes_cache []) ;;
  p <- gets (fun p => p) ;;
  all <- lift (_all_states p) ;;
  for_all all (fun ovs =>
    modify (fun p =>
      set__nearest_lanes_cache
        (dset (vs_vehicle_id ovs)
           (nearest_lane (pose_point (vs_pose ovs))
              (dim_length (vs_dimensions ovs)))
           (_nearest_lanes_cache p)) p)) ;;
  modify (set__offsets_cache []) ;;
  decide_all dt ;;
  dones <- commit_all dt ;;
  for_all dones (fun actor_id =>
    actors <- gets _my_actors ;;
    actors' <- lift (py_del actor_id actors) ;;
    modify (set__my_actors actors')) ;;
  p <- gets (fun p => p) ;;
  lift (_provider_state p).

Definition teardown : M Provider unit :=
  modify (set__my_actors []) ;;
  modify (set__other_vehicles []) ;;
  modify (set__reserved_areas []).

Definition destroy : M Provider unit :=
  ret tt.

Definition reset : M Provider unit :=
  ret tt.

Definition stop_managing (vehicle_id : string) : M Provider unit :=
  actors <- gets _my_actors ;;
  py_assert (dmem vehicle_id actors) ;;
  actors' <- lift (py_del vehicle_id actors) ;;
  modify (set__my_actors actors').

Definition reserve_traffic_location_for_vehicle (vehicle_id : string)
    (reserved_location : Polygon) : M Provider unit :=
  modify (fun p =>
    set__reserved_areas (dset vehicle_id reserved_location (_reserved_areas p)) p).

Definition can_accept_vehicle (st : VehicleState) : bool :=
  role_eqb (vs_role st) Social || role_eqb (vs_role st) Unknown.

(* ------------------------------------------------------------------ *)
(** ** Routes, hand-over and synchronisation *)

Definition set__route (v : list string) (r : Actor) : Actor :=
  mkActor (_all_vehicle_states r) (_flow r) (_vtype r) (_route_ind r)
    (_done_with_route r) (_off_route r) v (_route_id r) (_lane_speed r)
    (_lane_windows r) (_lane_win r) (_target_lane_win r) (_min_space_cush r)
    (_speed_factor r) (_cutting_into r) (_in_front_after_cutin_secs r)
    (_cutin_hold_secs r) (_target_cutin_gap r) (_aggressiveness r)
    (_cutin_prob r) (_lane r) (_offset r) (_state r) (_dest_lane r)
    (_dest_offset r) (_in_front_secs r) (_target_speed r)
    (_next_linear_acceleration r) (_next_speed r) (_next_pose r).
Definition set__route_id (v : Z) (r : Actor) : Actor :=
  mkActor (_all_vehicle_states r) (_flow r) (_vtype r) (_route_ind r)
    (_done_with_route r) (_off_route r) (_route r) v (_lane_speed r)
    (_lane_windows r) (_lane_win r) (_target_lane_win r) (_min_space_cush r)
    (_speed_factor r) (_cutting_into r) (_in_front_after_cutin_secs r)
    (_cutin_hold_secs r) (_target_cutin_gap r) (_aggressiveness r)
    (_cutin_prob r) (_lane r) (_offset r) (_state r) (_dest_lane r)
    (_dest_offset r) (_in_front_secs r) (_target_speed r)
    (_next_linear_acceleration r) (_next_speed r) (_next_pose r).

(** [_TrafficActor.update_route(route_id, route)] *)
Definition update_route (route_id : Z) (route : list string) : M Env unit :=
  self_set (set__route route) ;;
  self_set (set__route_id route_id) ;;
  fl <- self_get _flow ;;
  st <- self_attr _state ;;
  r <- _resolve_flow_pos fl false (DimsLength (dim_length (vs_dimensions st))) ;;
  let '(dest_lane, dest_offset) := r in
  self_set (set__dest_lane (Some dest_lane)) ;;
  self_set (set__dest_offset (Some dest_offset)) ;;
  self_set (set__route_ind 0%Z).

(** [LocalTrafficProvider.vehicle_dest_road(vehicle_id)].  An actor object
    and a non-empty tuple are true; an empty route is false. *)
Definition vehicle_dest_road (vehicle_id : string) (p : Provider)
    : outcome (option string) :=
  match dget vehicle_id (_my_actors p) with
  | Some traffic_actor =>
      let! r := oexpect IndexError
                  (last (map Some (route traffic_actor)) None) in
      Returns (Some r)
  | None =>
      match dget vehicle_id (_other_vehicles p) with
      | Some other =>
          match snd other with
          | Some (r :: rs) => Returns (Some (last rs r))
          | Some [] | None => Returns None
          end
      | None => Raises AssertionError
      end
  end.

(** [LocalTrafficProvider.stop_managing] is in the provider part above;
    [sync] follows.  [vehicles] is [provider_state.vehicles].  The two sets
    [missing] and [hijacked] are iterated in the order of [_my_actors]'s
    keys. *)
Definition sync_missing (vehicles : list VehicleState) (p : Provider)
    : list string :=
  filter (fun k => negb (existsb (String.eqb k) (map vs_vehicle_id vehicles)))
         (dkeys (_my_actors p)).

Definition sync_hijacked (vehicles : list VehicleState) (p : Provider)
    : list string :=
  filter (fun k =>
            existsb (String.eqb k)
              (map vs_vehicle_id
                 (filter (fun psv => negb (String.eqb (vs_source psv) source_str))
                         vehicles)))
         (dkeys (_my_actors p)).

(** The body of the first loop of [sync]. *)
Definition sync_drop (left : string) : M Provider unit :=
  logger_emit LogWarning "locally provided actor disappeared from simulation"%string ;;
  actors <- gets _my_actors ;;
  actors' <- lift (py_del left actors) ;;
  modify (set__my_actors actors').

(** The body of the last loop of [sync]; [my_actor.state = vs] assigns to
    the object stored in [_my_actors]. *)
Definition sync_vehicle (vs : VehicleState) : M Provider unit :=
  actors <- gets _my_actors ;;
  match dget (vs_vehicle_id vs) actors with
  | Some my_actor =>
      py_assert (String.eqb (vs_source vs) source_str) ;;
      modify (fun p =>
        set__my_actors
          (dset (vs_vehicle_id vs) (set__state (Some vs) my_actor) (_my_actors p)) p)
  | None =>
      py_assert (negb (String.eqb (vs_source vs) source_str)) ;;
      modify (fun p =>
        set__other_vehicles
          (dset (vs_vehicle_id vs) (vs, None) (_other_vehicles p)) p)
  end.

Definition sync (vehicles : list VehicleState) : M Provider unit :=
  p <- gets (fun p => p) ;;
  for_all (sync_missing vehicles p) sync_drop ;;
  p <- gets (fun p => p) ;;
  for_all (sync_hijacked vehicles p) stop_managing ;;
  modify (set__other_vehicles []) ;;
  for_all vehicles sync_vehicle.

Section Routes.

(** [hash(tuple(route))], [road.composite_road],
    [road_map.random_route()] (which draws from [random]) and
    [road_map.nearest_lane(point)] with its default radius. *)
Variable py_hash : list string -> Z.
Variable composite_road : Road -> Road.
Variable random_route : Rng -> list Road * Rng.
Variable nearest_lane_default : Point -> option Lane.

(** The table of the route [route_id]: [self._route_lane_lengths[route_id]]. *)
Definition route_table (route_id : Z) : M Provider (dict (string * Z) pyfloat) :=
  lens <- gets _route_lane_lengths ;;
  expect KeyError (dget route_id lens).

(** [self._route_lane_lengths[route_id][key] = v] *)
Definition route_table_set (route_id : Z) (key : string * Z) (v : pyfloat)
    : M Provider unit :=
  tbl <- route_table route_id ;;
  modify (fun p =>
    set__route_lane_lengths
      (dset route_id (dset key v tbl) (_route_lane_lengths p)) p).

(** The inner function [_backprop_length(bplane, length, rind)] of
    [_cache_route_lengths], after its [assert rind >= 0]: [backprop n] is
    the call with [rind = n].  A recursive call passes [rind - 1]; from
    [rind = 0] that call fails its assertion. *)
Fixpoint backprop (n : nat) (route_id : Z) (bplane : Lane) (length : pyfloat)
    : M Provider unit :=
  let rind := (Z.of_nat n - 1)%Z in
  for_all (incoming_lanes bplane) (fun il =>
    let il := composite_lane il in
    tbl <- route_table route_id ;;
    match dget (lane_id il, rind) tbl with
    | Some ill =>
        route_table_set route_id (lane_id il, rind) (f_add ill length) ;;
        match n with
        | O => raise AssertionError
        | S n' => backprop n' route_id il length
        end
    | None => ret tt
    end).

Definition _backprop_length (route_id : Z) (bplane : Lane) (length : pyfloat)
    (rind : Z) : M Provider unit :=
  py_assert (0 <=? rind)%Z ;;
  backprop (Z.to_nat rind) route_id bplane length.

(** [enumerate(xs)] *)
Definition enumerate {X} (xs : list X) : list (Z * X) :=
  combine (map Z.of_nat (seq 0 (List.length xs))) xs.

(** The body of the loop over the roads of the route; it leaves [r_ind]
    and [road] behind for the statements after the loop. *)
Definition cache_route_road (route_id : Z) (it : Z * string)
    (last : option (Z * Road)) : M Provider (loop_ctl * option (Z * Road)) :=
  let '(r_ind, rid) := it in
  match road_by_id rid with
  | None => raise AssertionError
  | Some road =>
      for_all (road_lanes road) (fun lane =>
        let lane := composite_lane lane in
        tbl <- route_table route_id ;;
        py_assert (negb (dmem (lane_id lane, r_ind) tbl)) ;;
        _backprop_length route_id lane (lane_length lane) r_ind ;;
        route_table_set route_id (lane_id lane, r_ind) (lane_length lane)) ;;
      ret (Continue, Some (r_ind, road))
  end.

(** [LocalTrafficProvider._cache_route_lengths(route)].  With an empty
    route the name [road] is unbound after the loop and [if not road]
    raises [UnboundLocalError], here [PyException]; otherwise [road] is
    the last road, which the assertion in the loop has found true. *)
Definition _cache_route_lengths (route : list string) : M Provider Z :=
  let route_id := py_hash route in
  lens <- gets _route_lane_lengths ;;
  if dmem route_id lens then ret route_id
  else
    modify (fun p =>
      set__route_lane_lengths (dset route_id [] (_route_lane_lengths p)) p) ;;
    last <- for_fold (enumerate route) None (cache_route_road route_id) ;;
    match last with
    | None => raise PyException
    | Some (r_ind, road) =>
        for_all (road_lanes road) (fun lane =>
          let lane := composite_lane lane in
          for_all (outgoing_lanes lane) (fun og =>
            first <- expect IndexError (hd_error route) ;;
            if String.eqb (road_id (lane_road og)) first
               || String.eqb (road_id (composite_road (lane_road og))) first
            then
              tbl <- route_table route_id ;;
              old <- expect KeyError (dget (lane_id lane, r_ind) tbl) ;;
              route_table_set route_id (lane_id lane, r_ind) (f_add old 1)
            else ret tt)) ;;
        ret route_id
    end.

(** [LocalTrafficProvider.update_route_for_vehicle] *)
Definition update_route_for_vehicle (vehicle_id : string)
    (new_route_roads : list string) : M Provider unit :=
  actors <- gets _my_actors ;;
  match dget vehicle_id actors with
  | Some _ =>
      route_id <- _cache_route_lengths new_route_roads ;;
      on_actor vehicle_id (update_route route_id new_route_roads)
  | None =>
      others <- gets _other_vehicles ;;
      match dget vehicle_id others with
      | Some other =>
          modify (fun p =>
            set__other_vehicles
              (dset vehicle_id (fst other, Some new_route_roads)
                    (_other_vehicles p)) p)
      | None => raise AssertionError
      end
  end.

(** The flow dict that [from_state] builds: an empty vehicle type, the
    route, arrival on lane 0 at a random position.  The keys of a scenario
    flow that it does not have and no actor method reads ([id], [begin],
    [end], [emit_period]) are filled with blanks. *)
Definition state_flow (route_roads : list string) (route_id : Z) : Flow :=
  {| fl_id := ""%string;
     fl_vtype := mkVType None None None None None None None None None None
                   None None;
     fl_route := route_roads;
     fl_route_id := route_id;
     fl_begin := Fin 0;
     fl_end := Fin 0;
     fl_emit_period := Fin 0;
     fl_last_added := None;
     fl_departLane := None;
     fl_departPos := None;
     fl_departSpeed := None;
     fl_arrivalLane := Some 0%Z;
     fl_arrivalPos := Some PosRandom |}.

(** [_TrafficActor.from_state(state, owner, route)]; [route] is
    [route.roads], [None] for no route. *)
Definition from_state (state : VehicleState) (route : option (list Road))
    : M Provider Actor :=
  route <-
    (match route with
     | Some r => ret r
     | None =>
         fun p => let '(r, g) := random_route (_rng p) in
                  (Returns r, set__rng g p)
     end) ;;
  let route_roads := map road_id route in
  route_id <- _cache_route_lengths route_roads ;;
  let flow := state_flow route_roads route_id in
  new_actor <- __init__ flow ;;
  r <- with_self new_actor
         (self_set (set__state (Some state)) ;;
          self_set (set__lane (nearest_lane_default (pose_point (vs_pose state)))) ;;
          l <- self_attr _lane ;;
          self_set (set__offset
                      (Some (offset_along_lane l (pose_point (vs_pose state))))) ;;
          r <- _resolve_flow_pos flow false
                 (DimsLength (dim_length (vs_dimensions state))) ;;
          let '(dest_lane, dest_offset) := r in
          self_set (set__dest_lane (Some dest_lane)) ;;
          self_set (set__dest_offset (Some dest_offset))) ;;
  ret (snd r).

(** [LocalTrafficProvider.add_vehicle(provider_vehicle, route)] *)
Definition add_vehicle (provider_vehicle : VehicleState)
    (route : option (list Road)) : M Provider unit :=
  let provider_vehicle :=
    set_vs_role Social (set_vs_source source_str provider_vehicle) in
  xfrd_actor <- from_state provider_vehicle route ;;
  id <- lift (actor_id xfrd_actor) ;;
  modify (fun p => set__my_actors (dset id xfrd_actor (_my_actors p)) p) ;;
  logger_emit LogInfo "traffic actor transferred"%string.

End Routes.
(* ------------------------------------------------------------------ *)
(** ** The parts of the state that the two phases of a tick own *)

(** What the commit phase and the provider own: the vehicle state, the
    localisation and the route progress of an actor. *)
Definition committed (a : Actor) :=
  (_state a, _lane a, _offset a, _route_ind a, _done_with_route a,
   _off_route a, _route a, _route_id a, _dest_lane a, _dest_offset a,
   _flow a, _vtype a).

(** The provider without its per-tick lane-offset memo and the random
    generator. *)
Definition provider_frame (p : Provider) :=
  (_endless_traffic p, _flows p, _my_actors p, _other_vehicles p,
   _reserved_areas p, _route_lane_lengths p, _actors_created p,
   _nearest_lanes_cache p, _log p).

Definition env_frame (e : Env) := (committed (self e), provider_frame (owner e)).

(** Phase 1 with the list of vehicle states taken once, before the loop. *)
Definition decide_one_frozen (dt : pyfloat)
    (snapshot : outcome (list VehicleState)) (key : string) : M Provider unit :=
  all <- lift snapshot ;;
  on_actor key (compute_next_state dt all).

Definition decide_all_frozen (dt : pyfloat)
    (snapshot : outcome (list VehicleState)) : M Provider unit :=
  actors <- gets _my_actors ;;
  for_all (dkeys actors) (decide_one_frozen dt snapshot).

(** The committed state of every managed actor, by key and in order, with
    the rest of the provider that phase 1 has no business with. *)
Definition committed_view (p : Provider) :=
  (map (fun kv => (fst kv, committed (snd kv))) (_my_actors p),
   (_endless_traffic p, _flows p, _other_vehicles p, _reserved_areas p,
    _route_lane_lengths p, _actors_created p, _nearest_lanes_cache p, _log p)).


(** The cut-in bookkeeping of an actor: the window it has committed to,
    the hold timer that [_pick_lane] compares and the hold duration. *)
Definition cutin_state (a : Actor) :=
  (_cutting_into a, _in_front_secs a, _cutin_hold_secs a).

Definition cutin_frame (e : Env) := cutin_state (self e).

(** What holds of the cut-in bookkeeping from [__init__] on: the hold
    duration is 3, and the hold timer is unset (with no commitment) or 0. *)
Definition cutin_ok (c : option LaneWindow * option pyfloat * pyfloat) : Prop :=
  let '(ci, secs, hold) := c in
  hold = Fin 3 /\ ((ci = None /\ secs = None) \/ secs = Some (Fin 0)).

Definition cutin_inv (e : Env) : Prop := cutin_ok (cutin_frame e).

(** The provider apart from the vehicle-id counter, the random generator
    and the per-tick lane-offset memo. *)
Definition emission_frame (p : Provider) :=
  (_endless_traffic p, _flows p, _my_actors p, _other_vehicles p,
   _reserved_areas p, _route_lane_lengths p, _nearest_lanes_cache p, _log p).

(** Whether a flow emits at [sim_time]: inside [[begin, end)] and never
    emitted or last emitted at least [emit_period] ago (the tests of
    [_add_actors_for_time]). *)
Definition flow_due (sim_time : pyfloat) (flow : Flow) : bool :=
  f_le (fl_begin flow) sim_time && f_lt sim_time (fl_end flow)
  && match fl_last_added flow with
     | None => true
     | Some la => f_ge (f_sub sim_time la) (fl_emit_period flow)
     end.

Definition owner_part (e : Env) :=
  (emission_frame (owner e), _actors_created (owner e)).

(** A time as [time_to_cover] promises it: not negative, possibly
    [math.inf], never [nan]. *)
Definition is_time (t : pyfloat) : Prop :=
  match t with
  | Fin r => 0 <= r
  | PInf => True
  | NInf | NaN => False
  end.

(** The entries of a route table beyond route index [r]. *)
Fixpoint entries_beyond (r : Z) (lens : dict (string * Z) pyfloat) : nat :=
  match lens with
  | [] => O
  | ((_, i), _) :: rest =>
      if (r <? i)%Z then S (entries_beyond r rest) else entries_beyond r rest
  end.

(** The lane indices in cyclic order from [my_idx], once around. *)
Definition cyclic_indices (my_idx n : Z) : list Z :=
  map (fun k => ((my_idx + Z.of_nat k) mod n)%Z) (seq 0 (Z.to_nat n)).

(** An iteration of the loop of [_pick_lane] as the body of a [for] loop:
    a [break] of the [while] loop is a [break], the end of its body is the
    next iteration. *)
Definition pick_lane_iter (dt : pyfloat) (idx : Z) (best_lw : LaneWindow)
    : M Env (loop_ctl * LaneWindow) :=
  c <- pick_lane_body dt idx best_lw ;;
  ret (match c with
       | PickBreak best => (Break, best)
       | PickNext best => (Continue, best)
       end).
(** The foreign vehicles and the reserved areas of a provider. *)
Definition foreign (p : Provider) := (_other_vehicles p, _reserved_areas p).

Definition owner_foreign (e : Env) := foreign (owner e).

(** No foreign vehicle has a reserved area. *)
Definition foreign_released (p : Provider) : Prop :=
  forall vs r, In (vs, r) (dvalues (_other_vehicles p)) ->
    dmem (vs_vehicle_id vs) (_reserved_areas p) = false.

(** The loop of [LocalTrafficProvider.step] that releases the areas
    reserved for vehicles that have arrived as foreign vehicles. *)
Definition release_reserved (other : VehicleState * option (list string))
    : M Provider unit :=
  let '(other, _) := other in
  reserved <- gets _reserved_areas ;;
  if dmem (vs_vehicle_id other) reserved then
    modify (fun p =>
      set__reserved_areas (ddel (vs_vehicle_id other) (_reserved_areas p)) p)
  else ret tt.
(** No managed actor has finished its route. *)
Definition none_finished (p : Provider) : Prop :=
  forall a, In a (dvalues (_my_actors p)) -> _done_with_route a = false.

(** What decides whether [step] removes actors: the managed actors and the
    endless-traffic switch. *)
Definition actors_part (p : Provider) := (_my_actors p, _endless_traffic p).

Definition done_part (e : Env) :=
  (_done_with_route (self e), actors_part (owner e)).

(** With endless traffic and no finished actor, the actors with ids [K]
    are managed. *)
Definition endless_inv (K : list string) (p : Provider) : Prop :=
  _endless_traffic p = true /\ none_finished p /\
  forall id, In id K -> dmem id (_my_actors p) = true.

(** A vehicle that the loop of [_compute_lane_window] for [lane] passes
    over: another vehicle whose lane is not [lane] and has no entry in the
    route table at the actor's current route index. *)
Definition unseen_from (lane : Lane) (my_route_lens : dict (string * Z) pyfloat)
    (e : Env) (ovs : VehicleState) : bool :=
  match _state (self e),
        dget (vs_vehicle_id ovs) (_nearest_lanes_cache (owner e)) with
  | Some st, Some (Some ov_lane) =>
      negb (String.eqb (vs_vehicle_id ovs) (vs_vehicle_id st))
      && negb (lane_eqb (composite_lane ov_lane) lane)
      && match dget (lane_id (composite_lane ov_lane), _route_ind (self e))
                    my_route_lens with
         | None => true
         | Some _ => false
         end
  | _, _ => false
  end.

(** A vehicle state whose source is this provider. *)
Definition is_own (vs : VehicleState) : bool :=
  String.eqb (vs_source vs) source_str.

(** What [sync] has done when it returns: [p] before, [p'] after. *)
Definition synced (vehicles : list VehicleState) (p p' : Provider) : Prop :=
  (forall id, manages_vehicle id p' = true <->
     (manages_vehicle id p = true /\
      In id (map vs_vehicle_id vehicles) /\
      forall vs, In vs vehicles -> vs_vehicle_id vs = id -> is_own vs = true)) /\
  (forall id a, dget id (_my_actors p') = Some a ->
     exists vs, In vs vehicles /\ vs_vehicle_id vs = id /\ _state a = Some vs) /\
  (forall id, dmem id (_other_vehicles p') = true <->
     exists vs, In vs vehicles /\ vs_vehicle_id vs = id /\ is_own vs = false) /\
  (forall id v r, dget id (_other_vehicles p') = Some (v, r) ->
     r = None /\ In v vehicles /\ vs_vehicle_id v = id /\ is_own v = false).

(** Why [sync] raises: a listed vehicle has this provider's source but is
    not managed, or is also listed under another source. *)
Definition sync_conflict (vehicles : list VehicleState) (p : Provider) : Prop :=
  exists vs, In vs vehicles /\ is_own vs = true /\
    (manages_vehicle (vs_vehicle_id vs) p = false \/
     exists vs', In vs' vehicles /\ vs_vehicle_id vs' = vs_vehicle_id vs /\
                 is_own vs' = false).

(** The last loop of [sync] after the vehicles [done], started with the
    managed actors [M0] and no foreign vehicle. *)
Definition sync_inv (M0 : dict string Actor) (done : list VehicleState)
    (p : Provider) : Prop :=
  dkeys (_my_actors p) = dkeys M0 /\
  (forall id a, dget id (_my_actors p) = Some a ->
     (exists vs, In vs done /\ vs_vehicle_id vs = id /\ _state a = Some vs) \/
     ((forall vs, In vs done -> vs_vehicle_id vs <> id) /\ dget id M0 = Some a)) /\
  (forall id, dmem id (_other_vehicles p) = true <->
     exists vs, In vs done /\ vs_vehicle_id vs = id /\ is_own vs = false) /\
  (forall id v r, dget id (_other_vehicles p) = Some (v, r) ->
     r = None /\ In v done /\ vs_vehicle_id v = id /\ is_own v = false).

(** A float between [lo] and [hi], or [nan]. *)
Definition within (lo hi : R) (a : pyfloat) : Prop :=
  match a with
  | Fin r => lo <= r <= hi
  | NaN => True
  | PInf | NInf => False
  end.

(** A near lane whose road is on the route. *)
Definition on_route (rt : list string) (nld : Lane * pyfloat) : bool :=
  existsb (String.eqb (road_id (lane_road (fst nld)))) rt.

(** What the loop of [step] over the near lanes [nls] leaves in the actor
    ([a0] before, [a'] after): the first near lane on the route if there is
    one, otherwise a near lane that none is strictly closer than. *)
Definition relocalized (nls : list (Lane * pyfloat)) (a0 a' : Actor) : Prop :=
  a' = set__off_route (_off_route a') (set__lane (_lane a') a0) /\
  match find (on_route (_route a0)) nls with
  | Some (nl, _) => _lane a' = Some nl /\ _off_route a' = false
  | None =>
      _off_route a' = _off_route a0 /\
      match nls with
      | [] => _lane a' = _lane a0
      | _ :: _ =>
          exists nl d, In (nl, d) nls /\ _lane a' = Some nl /\
            forall nl' d', In (nl', d') nls -> f_lt d' d = false
      end
  end.

(** Every managed actor is stored under its own id. *)
Definition ids_ok (p : Provider) : Prop :=
  forall k a, dget k (_my_actors p) = Some a -> actor_id a = Returns k.

(** What holds of the managed actors between two ticks. *)
Definition tick_inv (p : Provider) : Prop :=
  NoDup (dkeys (_my_actors p)) /\ ids_ok p /\ none_finished p.

(** The body of the last loop of [LocalTrafficProvider.step]:
    [del self._my_actors[actor_id]]. *)
Definition remove_done (actor_id : string) : M Provider unit :=
  actors <- gets _my_actors ;;
  actors' <- lift (py_del actor_id actors) ;;
  modify (set__my_actors actors').

(** Whether the actor stored under [k] is marked as finished. *)
Definition finished_at (p : Provider) (k : string) : bool :=
  match dget k (_my_actors p) with
  | Some a => _done_with_route a
  | None => false
  end.

(** The body of the commit pass of [LocalTrafficProvider.step]. *)
Definition commit_one (dt : pyfloat) (key : string) (dones : list string)
    : M Provider (loop_ctl * list string) :=
  on_actor key (step dt) ;;
  finished <- on_actor key (self_get finished_route) ;;
  if finished then
    id <- on_actor key (self_call actor_id) ;;
    ret (Continue, dones ++ [id])
  else ret (Continue, dones).

(** [LocalTrafficProvider.step] up to the end of its commit pass: emission,
    release of reserved areas, the caches, the decision pass and the commit
    pass, which yields the ids of the actors that finished. *)
Definition step_passes (dt elapsed_sim_time : pyfloat)
    : M Provider (list string) :=
  _add_actors_for_time elapsed_sim_time ;;
  others <- gets _other_vehicles ;;
  for_all (dvalues others) (fun '(other, _) =>
    reserved <- gets _reserved_areas ;;
    if dmem (vs_vehicle_id other) reserved then
      modify (fun p =>
        set__reserved_areas (ddel (vs_vehicle_id other) (_reserved_areas p)) p)
    else ret tt) ;;
  modify (set__nearest_lanes_cache []) ;;
  p <- gets (fun p => p) ;;
  all <- lift (_all_states p) ;;
  for_all all (fun ovs =>
    modify (fun p =>
      set__nearest_lanes_cache
        (dset (vs_vehicle_id ovs)
           (nearest_lane (pose_point (vs_pose ovs))
              (dim_length (vs_dimensions ovs)))
           (_nearest_lanes_cache p)) p)) ;;
  modify (set__offsets_cache []) ;;
  decide_all dt ;;
  commit_all dt.

(** The rest of [step]: the finished actors are deleted and the states of
    the remaining ones are returned. *)
Definition step_removals (dones : list string)
    : M Provider (list VehicleState) :=
  for_all dones remove_done ;;
  p <- gets (fun p => p) ;;
  lift (_provider_state p).
End Traffic.

(* ================================================================== *)
(** * A small host, for concrete inputs

    One straight road ["E1"] with two lanes of length 100 and width 3;
    lane coordinates are the plane coordinates, every two polygons
    intersect, the random generator is constant. *)
(* ================================================================== *)

Definition toy_host : Host := {|
  Lane := Z;
  Road := unit;
  Pose := (Point * pyfloat)%type;
  Polygon := unit;
  Rng := unit;
  lane_eqb := Z.eqb;
  lane_id := str_of_Z;
  lane_index := fun l => l;
  lane_length := fun _ => Fin 100;
  lane_speed_limit := fun _ => Some (Fin 10);
  lane_road := fun _ => tt;
  composite_lane := fun l => l;
  incoming_lanes := fun _ => [];
  outgoing_lanes := fun _ => [];
  from_lane_coord := fun _ rl => mkPoint (rl_s rl) (rl_t rl) (Fin 0);
  to_lane_coord := fun _ pt => mkRefLinePoint (pt_x pt) (pt_y pt);
  offset_along_lane := fun _ pt => pt_x pt;
  vector_at_offset := fun _ _ => [Fin 1; Fin 0; Fin 0];
  width_at_offset := fun _ _ => (Fin 3, Fin 1);
  curvature_radius_at_offset := fun _ _ _ => PInf;
  road_id := fun _ => "E1"%string;
  road_lanes := fun _ => [0%Z; 1%Z];
  outgoing_roads := fun _ => [];
  road_eq_str := fun _ _ => false;
  road_by_id := fun s => if String.eqb s "E1" then Some tt else None;
  nearest_lane := fun _ _ => Some 0%Z;
  nearest_lanes := fun _ _ _ => [(0%Z, Fin 0)];
  pose_point := fst;
  pose_heading := snd;
  Pose_from_center := fun pt h => (pt, h);
  Heading := fun h => h;
  float_mul_Dimensions := fun _ _ => Raises TypeError;
  shapely_box := fun _ _ _ _ => tt;
  shapely_rotate := fun poly _ => poly;
  intersects := fun _ _ => true;
  radians_to_vec := fun _ => (Fin 1, Fin 0);
  vec_to_radians := fun _ => Fin 0;
  min_angles_difference_signed := fun a b => f_sub a b;
  VEHICLE_CONFIGS := fun _ => Some (mkDimensions 4 2 1.5);
  random_random := fun g => (Fin 0.5, g);
  random_gauss := fun mu _ g => (mu, g);
  source_str := "LocalTrafficProvider"%string
|}.

(** A vehicle type with the given lane-changing attributes and defaults
    otherwise, a flow of it on ["E1"], and an empty provider. *)
Definition toy_vtype_lc (lcAssertive lcCutinProb : option pyfloat) : VType :=
  mkVType (Some "car"%string) (Some "passenger"%string)
    None None None None None None None None lcAssertive lcCutinProb.

Definition toy_flow_lc (lcAssertive lcCutinProb : option pyfloat) : Flow :=
  {| fl_id := "f0"%string;
     fl_vtype := toy_vtype_lc lcAssertive lcCutinProb;
     fl_route := ["E1"%string];
     fl_route_id := 0%Z;
     fl_begin := Fin 0;
     fl_end := Fin 900;
     fl_emit_period := Fin 3;
     fl_last_added := None;
     fl_departLane := Some 0%Z;
     fl_departPos := Some (PosNum 10);
     fl_departSpeed := Some (SpeedNum 1);
     fl_arrivalLane := Some 0%Z;
     fl_arrivalPos := Some PosMax |}.

Definition toy_vtype : VType := toy_vtype_lc None None.
Definition toy_flow : Flow := toy_flow_lc None None.

Definition toy_provider : @Provider toy_host :=
  @mkProvider toy_host
    (true)
    ([("f0"%string, toy_flow)])
    ([])
    ([])
    ([])
    ([(0%Z, [])])
    (0%Z)
    ([])
    ([])
    (tt)
    ([]).

(** A vehicle state on lane 0 at [x] with the given speed. *)
Definition toy_state (id : string) (x v : R) : @VehicleState toy_host :=
  @mkVehicleState toy_host
    (id)
    ((mkPoint x 0 0, Fin 0))
    (mkDimensions 4 2 1.5)
    ("car"%string)
    (Some "passenger"%string)
    (Fin v)
    (None)
    ("LocalTrafficProvider"%string)
    (Social).

(** A lane window of lane [l]. *)
Definition toy_window (l : Z) (time_left gap : R) : @LaneWindow toy_host :=
  @mkLaneWindow toy_host
    (l)
    (Fin time_left)
    (Fin time_left)
    (PInf)
    (Fin gap)
    (mkRefLinePoint 10 0)
    (None).

(** An actor of [toy_flow] on lane 0 with the given state and windows for
    its own lane ([lane_win]) and its target lane ([target_win]). *)
Definition toy_actor (st : @VehicleState toy_host)
    (lane_win target_win : @LaneWindow toy_host) : @Actor toy_host :=
  @mkActor toy_host
    ([])
    (toy_flow)
    (toy_vtype)
    (0%Z)
    (false)
    (false)
    (["E1"%string])
    (0%Z)
    ([])
    ([(0%Z, lane_win)])
    (Some lane_win)
    (Some target_win)
    (Fin 2.5)
    (Fin 1)
    (None)
    (Fin 0)
    (Fin 3)
    (Fin 6.25)
    (Fin 1)
    (Fin 0)
    (Some 0%Z)
    (Some (Fin 10))
    (Some st)
    (Some 0%Z)
    (Some (Fin 100))
    (None)
    (None)
    (None)
    (None)
    (None).
(* ================================================================== *)
(** * Properties *)
(* ================================================================== *)

(** ** Evaluating float comparisons *)

Lemma Rltb_true a b : a < b -> Rltb a b = true.
Proof. intros H. unfold Rltb. destruct (Rlt_dec a b); [reflexivity | contradiction]. Qed.

Lemma Rltb_false a b : b <= a -> Rltb a b = false.
Proof. intros H. unfold Rltb. destruct (Rlt_dec a b); [lra | reflexivity]. Qed.

Lemma Reqb_true a b : a = b -> Reqb a b = true.
Proof. intros H. unfold Reqb. destruct (Req_dec_T a b); [reflexivity | contradiction]. Qed.

Lemma Reqb_false a b : a <> b -> Reqb a b = false.
Proof. intros H. unfold Reqb. destruct (Req_dec_T a b); [contradiction | reflexivity]. Qed.

Lemma Rltb_spec a b : Rltb a b = true <-> a < b.
Proof.
  unfold Rltb. destruct (Rlt_dec a b); split; intros; try easy.
Qed.

Lemma Reqb_spec a b : Reqb a b = true <-> a = b.
Proof.
  unfold Reqb. destruct (Req_dec_T a b); split; intros; try easy.
Qed.

(** Linear arithmetic, knowing that [PI] is positive. *)
Ltac rlra := first [ lra | pose proof PI_RGT_0; lra ].

(** Decide every comparison of real constants in the goal. *)
Ltac rcmp :=
  repeat match goal with
    | |- context [Rltb ?a ?b] =>
        first [ rewrite (Rltb_true a b) by rlra
              | rewrite (Rltb_false a b) by rlra ]
    | |- context [Reqb ?a ?b] =>
        first [ rewrite (Reqb_true a b) by rlra
              | rewrite (Reqb_false a b) by rlra ]
    end.

Ltac fin_eq := first [ reflexivity | repeat f_equal; lra ].

(** ** Kinematics *)

Lemma time_to_cover_dist0 (s a : pyfloat) : time_to_cover 0 s a = Returns (Fin 0).
Proof. unfold time_to_cover. cbn. rcmp. reflexivity. Qed.

(** With no acceleration and a positive distance the result is [dist /
    speed] for a positive speed and [+inf] otherwise. *)
Lemma time_to_cover_acc0 (d s : R) :
  0 < d ->
  time_to_cover d s 0 = Returns (if Rltb 0 s then Fin (d / s) else PInf).
Proof.
  intros Hd. unfold time_to_cover, pydiv, f_ge, f_le. cbn.
  rewrite Rabs_R0. rcmp. cbn.
  destruct (Rtotal_order s 0) as [Hs | [Hs | Hs]].
  - assert (d / s < 0).
    { unfold Rdiv. apply Rmult_pos_neg; [lra | now apply Rinv_neg]. }
    rcmp. cbn. rcmp. reflexivity.
  - subst s. rcmp. reflexivity.
  - assert (0 < d / s) by (apply Rdiv_lt_0_compat; lra).
    rcmp. cbn. rcmp. reflexivity.
Qed.

Lemma time_to_cover_linear (d s : R) :
  0 <= d -> 0 < s -> time_to_cover d s 0 = Returns (Fin (d / s)).
Proof.
  intros Hd Hs. destruct (Req_dec_T d 0) as [-> | Hne].
  - rewrite time_to_cover_dist0. unfold Rdiv. rewrite Rmult_0_l. reflexivity.
  - rewrite time_to_cover_acc0 by lra. rcmp. reflexivity.
Qed.

(** C1. The S1 scenario on the code: [time_to_cover(10, 5, 0)] is [2.0],
    [time_to_cover(10, 0, 0)] is [+inf] and [distance_covered(2, 5, 1)] is
    [12]; but [time_to_cover(10, 0, 2)] is [+inf], not [sqrt(10)]: with the
    threshold [1e9] the test [abs(acc) < 1e9] sends an acceleration of [2]
    to the no-acceleration branch, where a zero speed gives [+inf]. *)
Theorem time_to_cover_S1_on_code :
  time_to_cover 10 5 0 = Returns (Fin 2) /\
  time_to_cover 10 0 2 = Returns PInf /\
  time_to_cover 10 0 2 <> Returns (Fin (sqrt 10)) /\
  time_to_cover 10 0 0 = Returns PInf /\
  distance_covered 2 5 1 = Fin 12.
Proof.
  assert (H2 : time_to_cover 10 0 2 = Returns PInf).
  { unfold time_to_cover. cbn. unfold Rabs. destruct (Rcase_abs 2); [lra |].
    rcmp. reflexivity. }
  repeat split.
  - rewrite time_to_cover_linear by lra. fin_eq.
  - exact H2.
  - rewrite H2. discriminate.
  - rewrite time_to_cover_acc0 by lra. rcmp. reflexivity.
  - unfold distance_covered. cbn. fin_eq.
Qed.

Lemma float_overflow_pos : 0 < float_overflow.
Proof.
  unfold float_overflow.
  replace 1024%nat with (970 + 54)%nat by reflexivity.
  rewrite pow_add.
  assert (H1 : 0 < 2 ^ 970) by (apply pow_lt; lra).
  assert (H2 : 2 <= 2 ^ 54).
  { change 54%nat with (S 53). cbn [pow].
    assert (1 <= 2 ^ 53) by (apply pow_R1_Rle; lra). lra. }
  nra.
Qed.

(** The quadratic branch itself solves the S1 equation: it is the
    threshold in front of it that keeps [acc = 2] away from it. *)
Lemma time_to_cover_quadratic_S1 :
  time_to_cover_quadratic 10 0 2 = Returns (Fin (sqrt 10)).
Proof.
  assert (Hs : sqrt (0 * 0 + 2 * 2 * 10) = 2 * sqrt 10).
  { replace (0 * 0 + 2 * 2 * 10) with (2 * 2 * 10) by lra.
    rewrite sqrt_mult by lra. rewrite sqrt_square by lra. reflexivity. }
  assert (Hp : 0 < sqrt 10) by (apply sqrt_lt_R0; lra).
  unfold time_to_cover_quadratic, py_pow2.
  rewrite (Rltb_true (0 * 0) float_overflow)
    by (rewrite Rmult_0_l; exact float_overflow_pos).
  unfold math_sqrt, pydiv, py_min2, py_max2, f_ge, f_le, f_gt. cbn.
  rcmp. cbn. rcmp. cbn. rewrite Hs.
  rcmp. cbn. rcmp. cbn. rcmp. fin_eq.
Qed.

(** C8, as stated, fails at [d = -1], [s = 1]: the quotient [d / s] is
    negative and the code returns [+inf] for it. *)
Lemma time_to_cover_negative_dist :
  time_to_cover (Fin (-1)) 1 0 = Returns PInf /\
  time_to_cover (Fin (-1)) 1 0 <> Returns (Fin (-1 / 1)).
Proof.
  assert (H : time_to_cover (Fin (-1)) 1 0 = Returns PInf).
  { unfold time_to_cover, pydiv, f_ge, f_le. cbn. rewrite Rabs_R0.
    rcmp. cbn. rcmp. reflexivity. }
  split; [exact H | rewrite H; discriminate].
Qed.

(** With no acceleration, a negative distance and a positive speed the
    quotient is negative and the result is [+inf]. *)
Lemma time_to_cover_behind (d s : R) :
  d < 0 -> 0 < s -> time_to_cover d s 0 = Returns PInf.
Proof.
  intros Hd Hs. unfold time_to_cover, pydiv, f_ge, f_le. cbn.
  rewrite Rabs_R0. rcmp. cbn.
  assert (d / s < 0).
  { unfold Rdiv. rewrite Rmult_comm. apply Rmult_pos_neg; [| lra].
    now apply Rinv_0_lt_compat. }
  rcmp. cbn. rcmp. reflexivity.
Qed.

(** C8, amended. [time_to_cover(0, s, a)] is [0] for all [s] and [a];
    [time_to_cover(d, 0, 0)] is [+inf] for [d > 0]; [time_to_cover(d, s, 0)]
    is [d / s] for [d >= 0] and [s > 0], and [+inf] for [d < 0] and
    [s > 0]; and for a fixed [d > 0] and no acceleration the result does
    not increase when the speed grows. *)
Theorem time_to_cover_laws :
  (forall s a : pyfloat, time_to_cover 0 s a = Returns (Fin 0)) /\
  (forall d : R, 0 < d -> time_to_cover d 0 0 = Returns PInf) /\
  (forall d s : R, 0 <= d -> 0 < s ->
     time_to_cover d s 0 = Returns (Fin (d / s))) /\
  (forall d s : R, d < 0 -> 0 < s -> time_to_cover d s 0 = Returns PInf) /\
  (forall d s1 s2 : R, 0 < d -> s1 <= s2 ->
     exists t1 t2 : pyfloat,
       time_to_cover d s1 0 = Returns t1 /\
       time_to_cover d s2 0 = Returns t2 /\
       f_le t2 t1 = true).
Proof.
  split; [exact time_to_cover_dist0 |].
  split.
  { intros d Hd. rewrite time_to_cover_acc0 by exact Hd. rcmp. reflexivity. }
  split; [exact time_to_cover_linear |].
  split; [exact time_to_cover_behind |].
  intros d s1 s2 Hd Hs.
  rewrite !time_to_cover_acc0 by exact Hd.
  do 2 eexists. split; [reflexivity |]. split; [reflexivity |].
  unfold f_le.
  destruct (Rlt_dec 0 s1) as [H1 | H1].
  - assert (d / s2 <= d / s1).
    { unfold Rdiv. apply Rmult_le_compat_l; [lra |].
      apply Rinv_le_contravar; lra. }
    rewrite (Rltb_true 0 s1), (Rltb_true 0 s2) by lra. cbn.
    destruct (Req_dec_T (d / s2) (d / s1)) as [E | E].
    + rewrite (Reqb_true _ _ E). apply orb_true_r.
    + rewrite Rltb_true by lra. reflexivity.
  - rewrite (Rltb_false 0 s1) by lra.
    destruct (Rlt_dec 0 s2) as [H2 | H2].
    + rewrite (Rltb_true 0 s2) by lra. reflexivity.
    + rewrite (Rltb_false 0 s2) by lra. reflexivity.
Qed.

Lemma time_to_cover_laws_witness :
  time_to_cover 0 3 1 = Returns (Fin 0) /\
  time_to_cover 10 0 0 = Returns PInf /\
  time_to_cover 10 5 0 = Returns (Fin (10 / 5)) /\
  time_to_cover (-10) 5 0 = Returns PInf /\
  (exists t1 t2 : pyfloat,
     time_to_cover 10 2 0 = Returns t1 /\
     time_to_cover 10 5 0 = Returns t2 /\
     f_le t2 t1 = true).
Proof.
  destruct time_to_cover_laws as (A & B & C & C' & D).
  split; [apply A |].
  split; [apply B; lra |].
  split; [apply C; lra |].
  split; [apply C'; lra |].
  apply D; lra.
Defined.

(** ** Running monadic code on an explicit state *)

Lemma run_bind {S A B} (m : M S A) (k : A -> M S B) (s s' : S) (o : outcome A)
    (r : outcome B * S) :
  m s = (o, s') ->
  match o with
  | Returns a => k a s'
  | Raises e => (Raises e, s')
  end = r ->
  bind m k s = r.
Proof. intros H1 H2. unfold bind. rewrite H1. destruct o; exact H2. Qed.

(** [zrange] on explicit bounds is computed as a whole. *)
Arguments zrange : simpl never.

(** Closed arithmetic on real constants is carried out in [Q]. *)
Ltac reify_Q r :=
  lazymatch r with
  | (?a + ?b)%R =>
      let qa := reify_Q a in let qb := reify_Q b in constr:(Qplus qa qb)
  | (?a - ?b)%R =>
      let qa := reify_Q a in let qb := reify_Q b in constr:(Qminus qa qb)
  | (?a * ?b)%R =>
      let qa := reify_Q a in let qb := reify_Q b in constr:(Qmult qa qb)
  | (?a / ?b)%R =>
      let qa := reify_Q a in let qb := reify_Q b in constr:(Qdiv qa qb)
  | (- ?a)%R => let qa := reify_Q a in constr:(Qopp qa)
  | (/ ?a)%R => let qa := reify_Q a in constr:(Qinv qa)
  | IZR ?z => constr:(inject_Z z)
  | Q2R ?q => constr:(q)
  end.

Ltac is_literal_R r :=
  lazymatch r with
  | IZR _ => idtac
  | Q2R (Qmake _ _) => idtac
  end.

Ltac R_of_Q q :=
  lazymatch q with
  | Qmake ?n 1%positive => constr:(IZR n)
  | Qmake ?n ?d => constr:(Q2R (Qmake n d))
  end.

Ltac rnorm_term r :=
  tryif is_literal_R r then fail else
  (let q := reify_Q r in
   let q' := eval vm_compute in (Qred q) in
   let r' := R_of_Q q' in
   replace r with r'
     by (unfold Q2R; cbn [Qnum Qden]; field; repeat split; lra)).

Ltac rnorm :=
  repeat match goal with
    | |- context [Fin ?r] => rnorm_term r
    end.

(** Float arithmetic on constants. *)
Ltac fcalc :=
  repeat first
    [ progress cbn
    | progress rcmp
    | rewrite Rabs_R0
    | match goal with
      | |- context [Rabs ?a] =>
          first [ rewrite (Rabs_right a) by lra
                | rewrite (Rabs_left a) by lra ]
      end
    | rewrite sin_PI6
    | match goal with
      | H : vget ?a ?b = _ |- context [vget ?a ?b] => rewrite H
      end
    | progress unfold f_ge, f_le, f_gt, pydiv, py_max2, py_min4, py_min2,
        np_clip, np_maximum, np_minimum, time_cush, time_severity,
        time_to_cover, math_sqrt, math_log, f_mod, f_sign, np_sign, np_sqrt,
        f_truthy, f_sub, math_sin, math_cos, math_tan, math_trig, math_ceil,
        _crossing_time_into, exit_time, crossing_time_at_speed, _angle_scale,
        radius, width, speed, acceleration, state, actor_id, bbox,
        LaneWindow_init, set_lw_adj_time_left, attr, oexpect, obind
    | match goal with
      | |- context [zrange ?a ?b] =>
          let l := eval vm_compute in (zrange a b) in
          lazymatch l with
          | nil => change (zrange a b) with l
          | cons _ _ => change (zrange a b) with l
          end
      end
    | progress rnorm ].

Ltac head_of t :=
  lazymatch t with
  | ?f _ => head_of f
  | _ => t
  end.

Ltac mprim :=
  cbv [ret raise gets modify lift expect oexpect py_assert self_get self_set
       self_attr self_call owner_get in_owner zoom attr obind bind];
  fcalc; reflexivity.

(** Symbolic execution of [m s = r]: binds are run left to right, tests
    on constants are decided, loops over explicit lists are unrolled and
    calls are unfolded. *)
Ltac mrun :=
  lazymatch goal with
  | |- bind _ _ _ = _ => eapply run_bind; [ mrun | cbv beta iota zeta; mrun ]
  | |- (if ?c then _ else _) _ = _ =>
      first [ replace c with true by (symmetry; fcalc; reflexivity);
              cbv iota; mrun
            | replace c with false by (symmetry; fcalc; reflexivity);
              cbv iota; mrun
            | idtac ]
  | |- (let '(_, _) := _ in _) _ = _ => cbn iota beta; mrun
  | |- (match ?x with _ => _ end) _ = _ =>
      let x' := eval cbn in x in
      progress (change x with x'; cbv iota beta); mrun
  | |- for_all ?xs ?body ?s = _ =>
      let xs' := eval cbn in xs in
      change (for_all xs body s) with (for_all xs' body s);
      cbn [for_all]; mrun
  | |- for_fold ?xs ?acc ?body ?s = _ =>
      let xs' := eval cbn in xs in
      change (for_fold xs acc body s) with (for_fold xs' acc body s);
      cbn [for_fold]; mrun
  | |- ?m ?s = _ =>
      first [ solve [mprim]
            | let h := head_of m in progress unfold h; mrun
            | idtac ]
  | _ => idtac
  end.

(** Equality of results up to arithmetic on constants. *)
Ltac real_eq :=
  lazymatch goal with
  | |- @eq R _ _ => first [ reflexivity | lra ]
  | |- _ => first [ reflexivity | progress f_equal; real_eq ]
  end.

Ltac mdone := fcalc; real_eq.


(** Projections of records over setters and constructors. *)
Ltac rec_simpl :=
  cbn [_all_vehicle_states set__all_vehicle_states _flow _vtype
       _route_ind set__route_ind _done_with_route set__done_with_route
       _off_route set__off_route _route _route_id
       _lane_speed set__lane_speed _lane_windows set__lane_windows
       _lane_win set__lane_win _target_lane_win set__target_lane_win
       _min_space_cush _speed_factor _cutting_into set__cutting_into
       _in_front_after_cutin_secs set__in_front_after_cutin_secs _cutin_hold_secs _target_cutin_gap
       _aggressiveness _cutin_prob _lane set__lane
       _offset set__offset _state set__state
       _dest_lane set__dest_lane _dest_offset set__dest_offset
       _in_front_secs set__in_front_secs _target_speed set__target_speed
       _next_linear_acceleration set__next_linear_acceleration _next_speed set__next_speed
       _next_pose set__next_pose _endless_traffic _flows
       set__flows _my_actors set__my_actors _other_vehicles
       set__other_vehicles _reserved_areas set__reserved_areas _route_lane_lengths
       set__route_lane_lengths _actors_created set__actors_created _nearest_lanes_cache
       set__nearest_lanes_cache _offsets_cache set__offsets_cache _rng
       set__rng _log set__log vs_vehicle_id
       vs_pose set_vs_pose vs_dimensions vs_vehicle_type
       vs_vehicle_config_type vs_speed set_vs_speed vs_linear_acceleration
       set_vs_linear_acceleration vs_source set_vs_source vs_role
       set_vs_role self owner lw_lane
       lw_time_left lw_adj_time_left lw_ttre lw_gap
       lw_lane_coord lw_agent_gap set_lw_adj_time_left LaneWindow_init
       fst snd].

Ltac rec_simpl_in H :=
  cbn [_all_vehicle_states set__all_vehicle_states _flow _vtype
       _route_ind set__route_ind _done_with_route set__done_with_route
       _off_route set__off_route _route _route_id
       _lane_speed set__lane_speed _lane_windows set__lane_windows
       _lane_win set__lane_win _target_lane_win set__target_lane_win
       _min_space_cush _speed_factor _cutting_into set__cutting_into
       _in_front_after_cutin_secs set__in_front_after_cutin_secs _cutin_hold_secs _target_cutin_gap
       _aggressiveness _cutin_prob _lane set__lane
       _offset set__offset _state set__state
       _dest_lane set__dest_lane _dest_offset set__dest_offset
       _in_front_secs set__in_front_secs _target_speed set__target_speed
       _next_linear_acceleration set__next_linear_acceleration _next_speed set__next_speed
       _next_pose set__next_pose _endless_traffic _flows
       set__flows _my_actors set__my_actors _other_vehicles
       set__other_vehicles _reserved_areas set__reserved_areas _route_lane_lengths
       set__route_lane_lengths _actors_created set__actors_created _nearest_lanes_cache
       set__nearest_lanes_cache _offsets_cache set__offsets_cache _rng
       set__rng _log set__log vs_vehicle_id
       vs_pose set_vs_pose vs_dimensions vs_vehicle_type
       vs_vehicle_config_type vs_speed set_vs_speed vs_linear_acceleration
       set_vs_linear_acceleration vs_source set_vs_source vs_role
       set_vs_role self owner lw_lane
       lw_time_left lw_adj_time_left lw_ttre lw_gap
       lw_lane_coord lw_agent_gap set_lw_adj_time_left LaneWindow_init
       fst snd] in H.

(** ** Teardown, construction and the acceleration gates *)

Section SimpleProperties.
Context {host : Host}.

(** C9, amended. [teardown] returns with the managed actors, the foreign
    vehicles and the reserved areas all empty; [destroy] returns and leaves
    the provider as it was. *)
Theorem teardown_clears_destroy_keeps (p : Provider) :
  fst (teardown p) = Returns tt /\
  _my_actors (snd (teardown p)) = [] /\
  _other_vehicles (snd (teardown p)) = [] /\
  _reserved_areas (snd (teardown p)) = [] /\
  destroy p = (Returns tt, p).
Proof. repeat split. Qed.

(** C7 on the code. When [lcAssertive] is not positive, or it is positive
    and [lcCutinProb] is outside [0, 1], [__init__] raises [AttributeError]
    at [self._log]: no warning reaches a logger, nothing is clamped and no
    actor is constructed (the actor counter is not advanced). *)
Theorem init_clamp_raises (flow : Flow) (p : Provider) :
  f_le (vget (vt_lcAssertive (fl_vtype flow)) 1) 0 = true \/
  (f_le 0 (vget (vt_lcCutinProb (fl_vtype flow)) 0)
   && f_le (vget (vt_lcCutinProb (fl_vtype flow)) 0) 1) = false ->
  fst (__init__ flow p) = Raises AttributeError /\
  _log (snd (__init__ flow p)) = _log p /\
  _actors_created (snd (__init__ flow p)) = _actors_created p.
Proof.
  intros H. unfold __init__, bind, py_gauss, self__log, raise.
  destruct (random_gauss _ _ _) as [g r].
  destruct (f_le (vget (vt_lcAssertive (fl_vtype flow)) 1) 0) eqn:Ha.
  - cbn. repeat split.
  - destruct H as [H | H]; [discriminate |].
    cbn. rewrite H. cbn. repeat split.
Qed.

(** In range, [__init__] constructs the actor with the given values. *)
Lemma init_in_range (flow : Flow) (p : Provider) :
  f_le (vget (vt_lcAssertive (fl_vtype flow)) 1) 0 = false ->
  (f_le 0 (vget (vt_lcCutinProb (fl_vtype flow)) 0)
   && f_le (vget (vt_lcCutinProb (fl_vtype flow)) 0) 1) = true ->
  exists a, fst (__init__ flow p) = Returns a /\
    _aggressiveness a = vget (vt_lcAssertive (fl_vtype flow)) 1 /\
    _cutin_prob a = vget (vt_lcCutinProb (fl_vtype flow)) 0 /\
    _actors_created (snd (__init__ flow p)) = (_actors_created p + 1)%Z.
Proof.
  intros Ha Hc. unfold __init__, bind, py_gauss.
  destruct (random_gauss _ _ _) as [g r]. rewrite Ha. cbn. rewrite Hc. cbn.
  eexists. repeat split.
Qed.

(** The emergency-brake gate at the S4 inputs returns [-emergencyDecel]. *)
Lemma compute_acceleration_S4 (e : Env) (st : VehicleState) (tw lw : LaneWindow)
    (dt : pyfloat) :
  _state (self e) = Some st -> vs_speed st = Fin 20 ->
  vget (vt_tau (_vtype (self e))) 1 = Fin 1 ->
  vget (vt_emergencyDecel (_vtype (self e))) 4.5 = Fin 4.5 ->
  _target_lane_win (self e) = Some tw ->
  lw_time_left tw = Fin 0.2 -> lw_gap tw = Fin 0.1 ->
  _lane_win (self e) = Some lw ->
  lw_time_left lw = Fin 5 -> lw_gap lw = Fin 5 ->
  _compute_acceleration dt e = (Returns (Fin (-4.5)), e).
Proof.
  intros Hst Hsp Htau Hdec Htw Htl Htg Hlw Hll Hlg.
  destruct e as [a p]. destruct a, st, tw, lw. cbn in *. subst.
  unfold _compute_acceleration. mrun. mdone.
Qed.

(** C4, amended. With [speed = 20] the S4 quotients are
    [target.gap / speed = 0.005] and [current.gap / speed = 0.25], so
    [time_cush = max(min(0.2, 0.005, 5, 0.25), 0) = 0.005]; the severity
    [3 * (1 - 0.005) / 1 = 2.985] is clipped to [1] and the returned
    acceleration is [-4.5]. *)
Theorem emergency_brake_S4 (e : Env) (st : VehicleState) (tw lw : LaneWindow)
    (dt : pyfloat) :
  _state (self e) = Some st -> vs_speed st = Fin 20 ->
  vget (vt_tau (_vtype (self e))) 1 = Fin 1 ->
  vget (vt_emergencyDecel (_vtype (self e))) 4.5 = Fin 4.5 ->
  _target_lane_win (self e) = Some tw ->
  lw_time_left tw = Fin 0.2 -> lw_gap tw = Fin 0.1 ->
  _lane_win (self e) = Some lw ->
  lw_time_left lw = Fin 5 -> lw_gap lw = Fin 5 ->
  pydiv (lw_gap tw) (vs_speed st) = Returns (Fin 0.005) /\
  pydiv (lw_gap lw) (vs_speed st) = Returns (Fin 0.25) /\
  time_cush (lw_time_left tw) 0.005 (lw_time_left lw) 0.25 = Fin 0.005 /\
  time_severity 1 0.005 = Returns (Fin 2.985) /\
  np_clip 2.985 0 1 = Fin 1 /\
  _compute_acceleration dt e = (Returns (Fin (-4.5)), e).
Proof.
  intros Hst Hsp Htau Hdec Htw Htl Htg Hlw Hll Hlg.
  rewrite Hsp, Htl, Htg, Hll, Hlg.
  repeat split; try solve [mdone].
  eapply compute_acceleration_S4; eassumption.
Qed.

End SimpleProperties.

(** C4, as stated, fails at its own inputs: [time_cush] is [0.005], not
    [0.2], because [target.gap / speed = 0.1 / 20] is the least of the four
    values. *)
Lemma time_cush_S4_is_not_0_2 :
  pydiv 0.1 20 = Returns (Fin 0.005) /\
  pydiv 5 20 = Returns (Fin 0.25) /\
  time_cush 0.2 0.005 5 0.25 = Fin 0.005 /\
  time_cush 0.2 0.005 5 0.25 <> Fin 0.2.
Proof.
  assert (H : time_cush 0.2 0.005 5 0.25 = Fin 0.005) by mdone.
  repeat split; try solve [mdone].
  rewrite H. intros E. injection E. lra.
Qed.

Lemma emergency_brake_S4_witness :
  let e := mkEnv (toy_actor (toy_state "car-1" 10 20) (toy_window 0 5 5)
                    (toy_window 0 0.2 0.1)) toy_provider in
  pydiv 0.1 20 = Returns (Fin 0.005) /\
  pydiv 5 20 = Returns (Fin 0.25) /\
  time_cush 0.2 0.005 5 0.25 = Fin 0.005 /\
  time_severity 1 0.005 = Returns (Fin 2.985) /\
  np_clip 2.985 0 1 = Fin 1 /\
  _compute_acceleration 0.1 e = (Returns (Fin (-4.5)), e).
Proof.
  intros e.
  apply (emergency_brake_S4 e (toy_state "car-1" 10 20)
           (toy_window 0 0.2 0.1) (toy_window 0 5 5) 0.1);
    reflexivity.
Defined.

(** C9, as stated, fails for [destroy]: a reserved area is still there
    after the call. *)
Lemma destroy_keeps_reserved_area :
  let p := snd (@reserve_traffic_location_for_vehicle toy_host "ego" tt toy_provider) in
  _reserved_areas (snd (@destroy toy_host p)) = [("ego"%string, tt)] /\
  _reserved_areas (snd (@destroy toy_host p)) <> [].
Proof. cbn. split; [reflexivity | discriminate]. Qed.

Lemma init_clamp_raises_witness :
  let flow := toy_flow_lc (Some (Fin (-1))) None in
  fst (__init__ flow toy_provider) = Raises AttributeError /\
  _log (snd (__init__ flow toy_provider)) = _log toy_provider /\
  _actors_created (snd (__init__ flow toy_provider)) = _actors_created toy_provider.
Proof.
  intros flow. apply (init_clamp_raises flow toy_provider).
  left. cbn. unfold f_le. cbn. rcmp. reflexivity.
Defined.

(* ================================================================== *)
(** * What a computation leaves unchanged *)
(* ================================================================== *)

Section Preserves.
Context {S T : Type} (proj : S -> T).

Lemma preserves_ret {A} (a : A) : preserves proj (ret a).
Proof. intros s. reflexivity. Qed.

Lemma preserves_raise {A} (e : exn) : preserves proj (@raise S A e).
Proof. intros s. reflexivity. Qed.

Lemma preserves_gets {A} (f : S -> A) : preserves proj (gets f).
Proof. intros s. reflexivity. Qed.

Lemma preserves_lift {A} (o : outcome A) : preserves proj (@lift S A o).
Proof. intros s. reflexivity. Qed.

Lemma preserves_expect {A} (e : exn) (o : option A) :
  preserves proj (@expect S A e o).
Proof. intros s. destruct o; reflexivity. Qed.

Lemma preserves_py_assert (c : bool) : preserves proj (@py_assert S c).
Proof. intros s. destruct c; reflexivity. Qed.

Lemma preserves_modify (f : S -> S) :
  (forall s, proj (f s) = proj s) -> preserves proj (modify f).
Proof. intros H s. apply H. Qed.

Lemma preserves_bind {A B} (m : M S A) (k : A -> M S B) :
  preserves proj m -> (forall a, preserves proj (k a)) ->
  preserves proj (bind m k).
Proof.
  intros Hm Hk s. unfold bind. specialize (Hm s).
  destruct (m s) as [[a | e] s']; cbn in *.
  - rewrite Hk. exact Hm.
  - exact Hm.
Qed.

Lemma preserves_for_all {X} (xs : list X) (body : X -> M S unit) :
  (forall x, preserves proj (body x)) -> preserves proj (for_all xs body).
Proof.
  intros H. induction xs as [| x xs IH]; cbn.
  - apply preserves_ret.
  - apply preserves_bind; [apply H | intros _; exact IH].
Qed.

Lemma preserves_for_fold {X L} (xs : list X) (acc : L)
    (body : X -> L -> M S (loop_ctl * L)) :
  (forall x a, preserves proj (body x a)) ->
  preserves proj (for_fold xs acc body).
Proof.
  intros H. revert acc. induction xs as [| x xs IH]; intros acc; cbn.
  - apply preserves_ret.
  - apply preserves_bind; [apply H |].
    intros [[|] acc']; [apply IH | apply preserves_ret].
Qed.

End Preserves.

(** Reading the actor or its owner changes nothing; writing the actor
    changes what the setter changes. *)
Section PreservesEnv.
Context {host : Host} {T : Type} (proj : Env -> T).

Lemma preserves_self_get {A} (f : Actor -> A) : preserves proj (self_get f).
Proof. intros s. reflexivity. Qed.

Lemma preserves_owner_get {A} (f : Provider -> A) :
  preserves proj (owner_get f).
Proof. intros s. reflexivity. Qed.

Lemma preserves_self_attr {A} (f : Actor -> option A) :
  preserves proj (self_attr f).
Proof.
  intros s. unfold self_attr, bind, gets, lift, attr, oexpect. cbn.
  destruct (f (self s)); reflexivity.
Qed.

Lemma preserves_self_call {A} (f : Actor -> outcome A) :
  preserves proj (self_call f).
Proof. intros s. reflexivity. Qed.

Lemma preserves_self_set (upd : Actor -> Actor) :
  (forall a p, proj (mkEnv (upd a) p) = proj (mkEnv a p)) ->
  preserves proj (self_set upd).
Proof. intros H [a p]. apply H. Qed.

Lemma preserves_in_owner {A U} (projP : Provider -> U) (m : M Provider A) :
  (forall a p p', projP p' = projP p -> proj (mkEnv a p') = proj (mkEnv a p)) ->
  preserves projP m -> preserves proj (in_owner m).
Proof.
  intros H Hm [a p]. unfold in_owner, zoom. cbn.
  specialize (Hm p). destruct (m p) as [r p']. cbn in *. apply H. exact Hm.
Qed.

End PreservesEnv.

(** One step of a frame proof: split a bind, close a primitive, or take
    the test of a conditional apart. *)
Ltac frame_step :=
  lazymatch goal with
  | |- preserves _ (bind _ _) => apply preserves_bind; [ | intros ? ]
  | |- preserves _ (ret _) => apply preserves_ret
  | |- preserves _ (raise _) => apply preserves_raise
  | |- preserves _ (gets _) => apply preserves_gets
  | |- preserves _ (lift _) => apply preserves_lift
  | |- preserves _ (expect _ _) => apply preserves_expect
  | |- preserves _ (py_assert _) => apply preserves_py_assert
  | |- preserves _ (self_get _) => apply preserves_self_get
  | |- preserves _ (owner_get _) => apply preserves_owner_get
  | |- preserves _ (self_attr _) => apply preserves_self_attr
  | |- preserves _ (self_call _) => apply preserves_self_call
  | |- preserves _ (self_set _) =>
      apply preserves_self_set; intros; reflexivity
  | |- preserves _ (modify _) =>
      apply preserves_modify; intros; reflexivity
  | |- preserves _ (for_all _ _) => apply preserves_for_all; intros ?
  | |- preserves _ (for_fold _ _ _) => apply preserves_for_fold; intros ? ?
  | |- preserves _ (if ?c then _ else _) => destruct c
  | |- preserves _ (match ?x with _ => _ end) => destruct x
  | |- preserves _ (let '(_, _) := ?x in _) => destruct x
  end.

Ltac frame := repeat frame_step.

(* ------------------------------------------------------------------ *)
(** ** Phase 1 changes no committed state *)

Section DecideFrame.
Context {host : Host}.

Lemma env_frame_owner (a : Actor) (p p' : Provider) :
  provider_frame p' = provider_frame p ->
  env_frame (mkEnv a p') = env_frame (mkEnv a p).
Proof. intros H. unfold env_frame. cbn. rewrite H. reflexivity. Qed.

Lemma cached_lane_offset_frame (vs : VehicleState) (lane : Lane) :
  preserves provider_frame (_cached_lane_offset vs lane).
Proof.
  unfold _cached_lane_offset. frame.
Qed.

Lemma py_random_frame : preserves provider_frame py_random.
Proof.
  intros p. unfold py_random. destruct (random_random (_rng p)). reflexivity.
Qed.

Lemma in_owner_frame {A} (m : M Provider A) :
  preserves provider_frame m -> preserves env_frame (in_owner m).
Proof.
  intros H. eapply preserves_in_owner; [| exact H].
  intros a p p' E. apply env_frame_owner. exact E.
Qed.

Create HintDb frame.
#[local] Hint Resolve cached_lane_offset_frame py_random_frame : frame.

Ltac frame_owner :=
  lazymatch goal with
  | |- preserves env_frame (in_owner _) =>
      apply in_owner_frame; auto with frame
  end.

Ltac eframe := repeat first [ frame_step | frame_owner ].

Lemma ov_offset_on_frame lane ov_lane ovs lens my_offset path_len :
  preserves env_frame (ov_offset_on lane ov_lane ovs lens my_offset path_len).
Proof. unfold ov_offset_on. eframe. Qed.

Lemma lane_window_step_frame lane lens a b c d ovs acc :
  preserves env_frame (lane_window_step lane lens a b c d ovs acc).
Proof.
  unfold lane_window_step. destruct acc as [[[? ?] ?] ?].
  eframe; try apply ov_offset_on_frame.
Qed.

Lemma compute_lane_window_frame lane nrr :
  preserves env_frame (_compute_lane_window lane nrr).
Proof.
  unfold _compute_lane_window. eframe; try apply lane_window_step_frame.
Qed.

Lemma compute_lane_windows_frame : preserves env_frame _compute_lane_windows.
Proof.
  unfold _compute_lane_windows. eframe; try apply compute_lane_window_frame.
Qed.

Lemma should_cutin_frame lw : preserves env_frame (_should_cutin lw).
Proof. unfold _should_cutin. eframe. Qed.

Lemma pick_lane_cutin_hold_frame dt best :
  preserves env_frame (pick_lane_cutin_hold dt best).
Proof. unfold pick_lane_cutin_hold. eframe. Qed.

Lemma pick_lane_body_frame dt idx best :
  preserves env_frame (pick_lane_body dt idx best).
Proof.
  unfold pick_lane_body.
  eframe; try apply pick_lane_cutin_hold_frame; try apply should_cutin_frame.
Qed.

Lemma pick_lane_loop_frame fuel dt my_idx idx best :
  preserves env_frame (pick_lane_loop fuel dt my_idx idx best).
Proof.
  revert idx best. induction fuel as [| fuel IH]; intros idx best; cbn.
  - apply preserves_raise.
  - eframe; try apply pick_lane_body_frame; try apply IH.
Qed.

Lemma pick_lane_frame dt : preserves env_frame (_pick_lane dt).
Proof.
  unfold _pick_lane.
  eframe; try apply compute_lane_windows_frame; try apply pick_lane_loop_frame.
Qed.

Lemma get_radius_frame lane : preserves env_frame (_get_radius lane).
Proof. unfold _get_radius. eframe. Qed.

Lemma compute_lane_speeds_frame : preserves env_frame _compute_lane_speeds.
Proof. unfold _compute_lane_speeds. eframe; try apply get_radius_frame. Qed.

Lemma slow_for_curves_frame : preserves env_frame _slow_for_curves.
Proof. unfold _slow_for_curves. eframe. Qed.

Lemma check_speed_frame : preserves env_frame _check_speed.
Proof. unfold _check_speed. eframe; try apply slow_for_curves_frame. Qed.

Lemma angle_to_lane_frame dt : preserves env_frame (_angle_to_lane dt).
Proof. unfold _angle_to_lane. eframe. Qed.

Lemma compute_acceleration_frame dt :
  preserves env_frame (_compute_acceleration dt).
Proof. unfold _compute_acceleration. eframe. Qed.

Lemma set_next_state_frame dt w a : preserves env_frame (set_next_state dt w a).
Proof. unfold set_next_state. eframe. Qed.

(** Deciding never touches what is committed: after
    [compute_next_state], returned or raised, the actor's vehicle state,
    lane, offset, route and destination and the provider's flows, actors,
    foreign vehicles, reserved areas, route tables and log are unchanged. *)
Lemma compute_next_state_frame dt all :
  preserves env_frame (compute_next_state dt all).
Proof.
  unfold compute_next_state.
  eframe; first
    [ apply compute_lane_speeds_frame | apply pick_lane_frame
    | apply check_speed_frame | apply angle_to_lane_frame
    | apply compute_acceleration_frame | apply set_next_state_frame ].
Qed.

End DecideFrame.

(* ------------------------------------------------------------------ *)
(** ** The two-phase tick *)

Section Phase1.
Context {host : Host}.

Lemma dset_same_view {V U} (f : V -> U) (k : string) (v v' : V)
    (d : dict string V) :
  dget k d = Some v -> f v' = f v ->
  map (fun kv => (fst kv, f (snd kv))) (dset k v' d)
  = map (fun kv => (fst kv, f (snd kv))) d.
Proof.
  induction d as [| [k0 v0] d IH]; cbn; [discriminate |].
  intros Hg Hf. destruct (key_eqb k k0).
  - injection Hg as <-. cbn. rewrite Hf. reflexivity.
  - cbn. rewrite IH by assumption. reflexivity.
Qed.

Lemma states_of_ext (l1 l2 : list Actor) :
  map _state l1 = map _state l2 -> states_of l1 = states_of l2.
Proof.
  revert l2. induction l1 as [| a l1 IH]; intros [| b l2] H; try discriminate.
  - reflexivity.
  - cbn in H. injection H as Hab Hl. cbn. unfold state. rewrite Hab.
    rewrite (IH l2 Hl). reflexivity.
Qed.

Lemma all_states_of_view (p p' : Provider) :
  committed_view p' = committed_view p -> _all_states p' = _all_states p.
Proof.
  intros H.
  assert (Hm := f_equal fst H).
  assert (Ho := f_equal
            (fun v : _ * (bool * dict string Flow * _ * _ * _ * _ * _ * _) =>
               let '(_, (_, _, o, _, _, _, _, _)) := v in o) H).
  cbn in Hm, Ho.
  unfold _all_states, _my_actor_states, _other_vehicle_states, dvalues.
  rewrite Ho.
  rewrite (states_of_ext (map snd (_my_actors p')) (map snd (_my_actors p))).
  - reflexivity.
  - rewrite !map_map.
    apply (f_equal (map (fun x : string * _ =>
             fst (fst (fst (fst (fst (fst (fst (fst (fst (fst (fst (snd x)))))))))))))) in Hm.
    rewrite !map_map in Hm. exact Hm.
Qed.

Lemma on_actor_view {A} (key : string) (m : M Env A) (p : Provider) :
  preserves env_frame m ->
  committed_view (snd (on_actor key m p)) = committed_view p.
Proof.
  intros Hm. unfold on_actor.
  destruct (dget key (_my_actors p)) as [a |] eqn:Hg; [| reflexivity].
  specialize (Hm (mkEnv a p)). destruct (m (mkEnv a p)) as [r e]. cbn in *.
  unfold env_frame in Hm. cbn in Hm.
  pose proof (f_equal fst Hm) as Hc. pose proof (f_equal snd Hm) as Hp.
  cbn in Hc, Hp. clear Hm.
  unfold provider_frame in Hp.
  inversion Hp as [[E1 E2 E3 E4 E5 E6 E7 E8 E9]].
  unfold committed_view. cbn.
  rewrite E1, E2, E3, E4, E5, E6, E7, E8, E9.
  rewrite (dset_same_view committed key a (self e)) by assumption.
  reflexivity.
Qed.

Lemma for_all_cons {S X} (x : X) (xs : list X) (body : X -> M S unit) (s : S) :
  for_all (x :: xs) body s
  = match body x s with
    | (Returns _, s') => for_all xs body s'
    | (Raises e, s') => (Raises e, s')
    end.
Proof. reflexivity. Qed.

Lemma decide_one_view (dt : pyfloat) (key : string) (s : Provider) :
  committed_view (snd (decide_one dt key s)) = committed_view s.
Proof.
  unfold decide_one, bind, gets, lift. cbn.
  destruct (_all_states s) as [all | err]; [| reflexivity].
  apply on_actor_view. apply compute_next_state_frame.
Qed.

Lemma decide_one_frozen_eq (dt : pyfloat) (key : string) (p s : Provider) :
  committed_view s = committed_view p ->
  decide_one dt key s = decide_one_frozen dt (_all_states p) key s.
Proof.
  intros Hs. unfold decide_one, decide_one_frozen, bind, gets, lift. cbn.
  rewrite (all_states_of_view p s Hs). reflexivity.
Qed.

(** The loop of phase 1 from any state [s] that shows the same committed
    state as [p]. *)
Lemma decide_loop (dt : pyfloat) (p : Provider) (ks : list string) :
  forall s, committed_view s = committed_view p ->
    committed_view (snd (for_all ks (decide_one dt) s)) = committed_view p /\
    for_all ks (decide_one dt) s
    = for_all ks (decide_one_frozen dt (_all_states p)) s.
Proof.
  induction ks as [| key ks IH]; intros s Hs.
  - split; [exact Hs | reflexivity].
  - rewrite !for_all_cons.
    rewrite <- (decide_one_frozen_eq dt key p s Hs).
    pose proof (decide_one_view dt key s) as Hv.
    destruct (decide_one dt key s) as [[[] | err] s']; cbn in Hv.
    + apply IH. congruence.
    + split; [cbn; congruence | reflexivity].
Qed.

(** X1. Phase 1 of a tick ([compute_next_state] for every managed actor)
    leaves the committed state of every actor (vehicle state, lane, offset,
    route progress) and the foreign vehicles, flows, reserved areas, route
    tables and log of the provider unchanged, also when an actor's decision
    raises; so the list of vehicle states read for each actor is the one
    read for the first, and the loop is the loop over that one snapshot. *)
Theorem decide_all_changes_no_committed_state (dt : pyfloat) (p : Provider) :
  committed_view (snd (decide_all dt p)) = committed_view p /\
  _all_states (snd (decide_all dt p)) = _all_states p /\
  decide_all dt p = decide_all_frozen dt (_all_states p) p.
Proof.
  unfold decide_all, decide_all_frozen, bind, gets. cbn.
  destruct (decide_loop dt p (dkeys (_my_actors p)) p eq_refl) as [Hv He].
  split; [exact Hv |]. split; [apply all_states_of_view; exact Hv | exact He].
Qed.

End Phase1.

(* ================================================================== *)
(** * Weakest preconditions *)
(* ================================================================== *)

Section Wp.
Context {S : Type}.

Lemma wp_ret {A} (a : A) (Q : A -> S -> Prop) E (s : S) :
  Q a s -> wp (ret a) Q E s.
Proof. intros H. exact H. Qed.

Lemma wp_raise {A} (e : exn) (Q : A -> S -> Prop) (E : exn -> S -> Prop) (s : S) :
  E e s -> wp (raise e) Q E s.
Proof. intros H. exact H. Qed.

Lemma wp_gets {A} (f : S -> A) (Q : A -> S -> Prop) E (s : S) :
  Q (f s) s -> wp (gets f) Q E s.
Proof. intros H. exact H. Qed.

Lemma wp_modify (f : S -> S) (Q : unit -> S -> Prop) E (s : S) :
  Q tt (f s) -> wp (modify f) Q E s.
Proof. intros H. exact H. Qed.

Lemma wp_lift {A} (o : outcome A) (Q : A -> S -> Prop) (E : exn -> S -> Prop)
    (s : S) :
  match o with Returns a => Q a s | Raises e => E e s end -> wp (lift o) Q E s.
Proof. intros H. unfold wp, lift. destruct o; exact H. Qed.

Lemma wp_expect {A} (e : exn) (o : option A) (Q : A -> S -> Prop)
    (E : exn -> S -> Prop) (s : S) :
  match o with Some a => Q a s | None => E e s end -> wp (expect e o) Q E s.
Proof. intros H. unfold wp, expect. destruct o; exact H. Qed.

Lemma wp_py_assert (c : bool) (Q : unit -> S -> Prop) (E : exn -> S -> Prop)
    (s : S) :
  (if c then Q tt s else E AssertionError s) -> wp (py_assert c) Q E s.
Proof. intros H. unfold wp, py_assert. destruct c; exact H. Qed.

Lemma wp_bind {A B} (m : M S A) (k : A -> M S B) (Q : B -> S -> Prop) E (s : S) :
  wp m (fun a s' => wp (k a) Q E s') E s -> wp (bind m k) Q E s.
Proof.
  unfold wp, bind. destruct (m s) as [[a | e] s']; intros H; exact H.
Qed.

Lemma wp_conseq {A} (m : M S A) (Q Q' : A -> S -> Prop)
    (E E' : exn -> S -> Prop) (s : S) :
  wp m Q' E' s ->
  (forall a s', Q' a s' -> Q a s') ->
  (forall e s', E' e s' -> E e s') ->
  wp m Q E s.
Proof.
  unfold wp. destruct (m s) as [[a | e] s']; intros H HQ HE; auto.
Qed.

(** What [preserves] gives: the part [proj] of the final state. *)
Lemma wp_preserves {A T} (proj : S -> T) (m : M S A) (s : S) :
  preserves proj m ->
  wp m (fun _ s' => proj s' = proj s) (fun _ s' => proj s' = proj s) s.
Proof.
  intros H. unfold wp. specialize (H s).
  destruct (m s) as [[a | e] s']; exact H.
Qed.

(** A computation that cannot raise returns. *)
Lemma wp_returns {A} (m : M S A) (Q : A -> S -> Prop) (s : S) :
  wp m Q (fun _ _ => False) s ->
  exists a s', m s = (Returns a, s') /\ Q a s'.
Proof.
  unfold wp. destruct (m s) as [[a | e] s']; [| intros []].
  intros H. exists a, s'. split; [reflexivity | exact H].
Qed.

(** A loop with an invariant. *)
Lemma wp_for_all {X} (I : S -> Prop) (xs : list X) (body : X -> M S unit)
    (E : exn -> S -> Prop) (s : S) :
  I s ->
  (forall x s0, In x xs -> I s0 -> wp (body x) (fun _ s' => I s') E s0) ->
  wp (for_all xs body) (fun _ s' => I s') E s.
Proof.
  revert s. induction xs as [| x xs IH]; intros s Hs Hb; cbn.
  - exact Hs.
  - apply wp_bind. eapply wp_conseq.
    + apply Hb; [left; reflexivity | exact Hs].
    + cbn. intros _ s' Hs'. apply IH; [exact Hs' |].
      intros y s0 Hy. apply Hb. right. exact Hy.
    + auto.
Qed.

Lemma wp_for_fold {X L} (I : L -> S -> Prop) (xs : list X) (acc : L)
    (body : X -> L -> M S (loop_ctl * L)) (E : exn -> S -> Prop) (s : S) :
  I acc s ->
  (forall x a s0, In x xs -> I a s0 ->
     wp (body x a) (fun r s' => I (snd r) s') E s0) ->
  wp (for_fold xs acc body) (fun a s' => I a s') E s.
Proof.
  revert acc s. induction xs as [| x xs IH]; intros acc s Hs Hb; cbn.
  - exact Hs.
  - apply wp_bind. eapply wp_conseq.
    + apply Hb; [left; reflexivity | exact Hs].
    + cbn. intros [[|] acc'] s' Hs'; cbn in Hs'.
      * apply IH; [exact Hs' |]. intros y a s0 Hy. apply Hb. right. exact Hy.
      * exact Hs'.
    + auto.
Qed.

End Wp.

Section WpEnv.
Context {host : Host}.

Lemma wp_self_get {A} (f : Actor -> A) (Q : A -> Env -> Prop) E (s : Env) :
  Q (f (self s)) s -> wp (self_get f) Q E s.
Proof. intros H. exact H. Qed.

Lemma wp_owner_get {A} (f : Provider -> A) (Q : A -> Env -> Prop) E (s : Env) :
  Q (f (owner s)) s -> wp (owner_get f) Q E s.
Proof. intros H. exact H. Qed.

Lemma wp_self_attr {A} (f : Actor -> option A) (Q : A -> Env -> Prop)
    (E : exn -> Env -> Prop) (s : Env) :
  match f (self s) with Some a => Q a s | None => E AttributeError s end ->
  wp (self_attr f) Q E s.
Proof.
  intros H. unfold wp, self_attr, bind, gets, lift, attr, oexpect. cbn.
  destruct (f (self s)); exact H.
Qed.

Lemma wp_self_call {A} (f : Actor -> outcome A) (Q : A -> Env -> Prop)
    (E : exn -> Env -> Prop) (s : Env) :
  match f (self s) with Returns a => Q a s | Raises e => E e s end ->
  wp (self_call f) Q E s.
Proof.
  intros H. unfold wp, self_call, bind, gets, lift. cbn.
  destruct (f (self s)); exact H.
Qed.

Lemma wp_self_set (upd : Actor -> Actor) (Q : unit -> Env -> Prop) E (s : Env) :
  Q tt (mkEnv (upd (self s)) (owner s)) -> wp (self_set upd) Q E s.
Proof. intros H. exact H. Qed.

Lemma wp_in_owner {A} (m : M Provider A) (Q : A -> Env -> Prop)
    (E : exn -> Env -> Prop) (s : Env) :
  wp m (fun a p' => Q a (mkEnv (self s) p'))
       (fun e p' => E e (mkEnv (self s) p')) (owner s) ->
  wp (in_owner m) Q E s.
Proof.
  unfold wp, in_owner, zoom. destruct (m (owner s)) as [[a | e] p']; auto.
Qed.

End WpEnv.

(** One step of symbolic execution of a [wp] goal. *)
Ltac wp_step :=
  lazymatch goal with
  | |- wp (bind _ _) _ _ _ => apply wp_bind
  | |- wp (ret _) _ _ _ => apply wp_ret
  | |- wp (raise _) _ _ _ => apply wp_raise
  | |- wp (gets _) _ _ _ => apply wp_gets
  | |- wp (modify _) _ _ _ => apply wp_modify
  | |- wp (lift _) _ _ _ => apply wp_lift
  | |- wp (expect _ _) _ _ _ => apply wp_expect
  | |- wp (py_assert _) _ _ _ => apply wp_py_assert
  | |- wp (self_get _) _ _ _ => apply wp_self_get
  | |- wp (owner_get _) _ _ _ => apply wp_owner_get
  | |- wp (self_attr _) _ _ _ => apply wp_self_attr
  | |- wp (self_call _) _ _ _ => apply wp_self_call
  | |- wp (self_set _) _ _ _ => apply wp_self_set
  | |- wp (in_owner _) _ _ _ => apply wp_in_owner
  end; cbv beta; rec_simpl.

(** The exception side of [wp_conseq] when the exception predicate does
    not change. *)
Ltac wp_exn :=
  cbv beta; first [ solve [auto] | let H := fresh in intros ? ? H; exact H ].

(** Steps and case distinctions, as far as they go. *)
Ltac wp_auto :=
  repeat first
    [ wp_step
    | lazymatch goal with
      | |- wp (if ?c then _ else _) _ _ _ => destruct c eqn:?
      | |- wp (match ?x with _ => _ end) _ _ _ => destruct x eqn:?
      | |- match ?x with _ => _ end => destruct x eqn:?
      end ].


(* ------------------------------------------------------------------ *)
(** ** Further rules for [wp] and for runs *)

Lemma wp_and_preserves {S A T} (proj : S -> T) (m : M S A)
    (Q : A -> S -> Prop) (E : exn -> S -> Prop) (s : S) :
  preserves proj m -> wp m Q E s ->
  wp m (fun a s' => Q a s' /\ proj s' = proj s)
       (fun e s' => E e s' /\ proj s' = proj s) s.
Proof.
  intros Hp Hw. unfold wp in *. specialize (Hp s).
  destruct (m s) as [[a | e] s']; split; assumption.
Qed.

Lemma wp_never_returns {S A} (m : M S A) (P : exn -> Prop) (s : S) :
  wp m (fun _ _ => False) (fun e _ => P e) s ->
  exists e, fst (m s) = Raises e /\ P e.
Proof.
  unfold wp. destruct (m s) as [[a | e] s']; [intros [] |].
  intros H. exists e. split; [reflexivity | exact H].
Qed.

Lemma wp_any {S A} (m : M S A) (Q : A -> S -> Prop) (E : exn -> S -> Prop)
    (s : S) :
  (forall a s', Q a s') -> (forall e s', E e s') -> wp m Q E s.
Proof.
  intros HQ HE. unfold wp. destruct (m s) as [[a | e] s']; auto.
Qed.

Lemma run_with_self {host : Host} {A} (a : Actor) (m : M Env A)
    (p : Provider) (x : A) (e : Env) :
  m (mkEnv a p) = (Returns x, e) ->
  with_self a m p = (Returns (x, self e), owner e).
Proof. intros H. unfold with_self. rewrite H. reflexivity. Qed.

(* ------------------------------------------------------------------ *)
(** ** The cut-in hold *)

Section CutIn.
Context {host : Host}.

Lemma preserves_in_owner_self {A U} (projA : Actor -> U) (m : M Provider A) :
  preserves (fun e : Env => projA (self e)) (in_owner m).
Proof.
  intros [a p]. unfold in_owner, zoom. cbn. destruct (m p) as [r p']. reflexivity.
Qed.

Lemma in_owner_cutin_frame {A} (m : M Provider A) :
  preserves cutin_frame (in_owner m).
Proof. apply (preserves_in_owner_self cutin_state). Qed.

Create HintDb cframe.

Ltac cframe :=
  repeat first [ frame_step | apply in_owner_cutin_frame
               | solve [auto with cframe nocore] ].

Lemma ov_offset_on_cutin lane ov_lane ovs lens my_offset path_len :
  preserves cutin_frame (ov_offset_on lane ov_lane ovs lens my_offset path_len).
Proof. unfold ov_offset_on. cframe. Qed.
#[local] Hint Resolve ov_offset_on_cutin : cframe.

Lemma lane_window_step_cutin lane lens a b c d ovs acc :
  preserves cutin_frame (lane_window_step lane lens a b c d ovs acc).
Proof. unfold lane_window_step. destruct acc as [[[? ?] ?] ?]. cframe. Qed.
#[local] Hint Resolve lane_window_step_cutin : cframe.

Lemma compute_lane_window_cutin lane nrr :
  preserves cutin_frame (_compute_lane_window lane nrr).
Proof. unfold _compute_lane_window. cframe. Qed.
#[local] Hint Resolve compute_lane_window_cutin : cframe.

Lemma compute_lane_windows_cutin : preserves cutin_frame _compute_lane_windows.
Proof. unfold _compute_lane_windows. cframe. Qed.
#[local] Hint Resolve compute_lane_windows_cutin : cframe.

Lemma should_cutin_cutin lw : preserves cutin_frame (_should_cutin lw).
Proof. unfold _should_cutin. cframe. Qed.
#[local] Hint Resolve should_cutin_cutin : cframe.

Lemma pick_lane_cutin_hold_cutin dt best :
  preserves cutin_frame (pick_lane_cutin_hold dt best).
Proof. unfold pick_lane_cutin_hold. cframe. Qed.
#[local] Hint Resolve pick_lane_cutin_hold_cutin : cframe.

Lemma get_radius_cutin lane : preserves cutin_frame (_get_radius lane).
Proof. unfold _get_radius. cframe. Qed.
#[local] Hint Resolve get_radius_cutin : cframe.

Lemma compute_lane_speeds_cutin : preserves cutin_frame _compute_lane_speeds.
Proof. unfold _compute_lane_speeds. cframe. Qed.
#[local] Hint Resolve compute_lane_speeds_cutin : cframe.

Lemma slow_for_curves_cutin : preserves cutin_frame _slow_for_curves.
Proof. unfold _slow_for_curves. cframe. Qed.
#[local] Hint Resolve slow_for_curves_cutin : cframe.

Lemma check_speed_cutin : preserves cutin_frame _check_speed.
Proof. unfold _check_speed. cframe. Qed.
#[local] Hint Resolve check_speed_cutin : cframe.

Lemma angle_to_lane_cutin dt : preserves cutin_frame (_angle_to_lane dt).
Proof. unfold _angle_to_lane. cframe. Qed.
#[local] Hint Resolve angle_to_lane_cutin : cframe.

Lemma compute_acceleration_cutin dt :
  preserves cutin_frame (_compute_acceleration dt).
Proof. unfold _compute_acceleration. cframe. Qed.
#[local] Hint Resolve compute_acceleration_cutin : cframe.

Lemma set_next_state_cutin dt w a :
  preserves cutin_frame (set_next_state dt w a).
Proof. unfold set_next_state. cframe. Qed.
#[local] Hint Resolve set_next_state_cutin : cframe.

Lemma commit_next_state_cutin : preserves cutin_frame commit_next_state.
Proof. unfold commit_next_state. cframe. Qed.
#[local] Hint Resolve commit_next_state_cutin : cframe.

Lemma resolve_flow_pos_cutin fl depart dims :
  preserves cutin_frame (_resolve_flow_pos fl depart dims).
Proof. unfold _resolve_flow_pos. cframe. Qed.
#[local] Hint Resolve resolve_flow_pos_cutin : cframe.

Lemma resolve_flow_speed_cutin fl :
  preserves cutin_frame (_resolve_flow_speed fl).
Proof. unfold _resolve_flow_speed. cframe. Qed.
#[local] Hint Resolve resolve_flow_speed_cutin : cframe.

Lemma reroute_cutin : preserves cutin_frame _reroute.
Proof. unfold _reroute. cframe. Qed.
#[local] Hint Resolve reroute_cutin : cframe.

Lemma relocalize_step_cutin nld best_d :
  preserves cutin_frame (relocalize_step nld best_d).
Proof. unfold relocalize_step. cframe. Qed.
#[local] Hint Resolve relocalize_step_cutin : cframe.

(** [step] never touches the cut-in bookkeeping. *)
Lemma step_cutin dt : preserves cutin_frame (step dt).
Proof. unfold step. cframe. Qed.

(** A step that keeps a part of the state hands every fact about that
    part on. *)
Lemma wp_frame {S A T} (proj : S -> T) (m : M S A)
    (Q : A -> S -> Prop) (E : exn -> S -> Prop) (s : S) :
  preserves proj m ->
  (forall a s', proj s' = proj s -> Q a s') ->
  (forall e s', proj s' = proj s -> E e s') ->
  wp m Q E s.
Proof.
  intros Hp HQ HE. unfold wp. specialize (Hp s).
  destruct (m s) as [[a | e] s']; auto.
Qed.

Lemma wp_cutin_inv {A} (m : M Env A) (s : Env) :
  preserves cutin_frame m -> cutin_inv s ->
  wp m (fun _ s' => cutin_inv s') (fun _ s' => cutin_inv s') s.
Proof.
  intros Hp Hs.
  apply (wp_frame cutin_frame); [exact Hp | |];
    intros ? s' E; unfold cutin_inv; rewrite E; exact Hs.
Qed.

Ltac cutin_solve :=
  unfold cutin_inv, cutin_frame, cutin_state, cutin_ok in *; rec_simpl;
  repeat match goal with
         | H : (_, _, _) = (_, _, _) |- _ =>
             rec_simpl_in H; inversion H; clear H
         end;
  repeat match goal with
         | H : _ = _ |- _ => rewrite H
         end;
  intuition congruence.

(** An iteration of the loop of [_pick_lane] keeps the cut-in
    bookkeeping well-formed, however it ends. *)
Lemma pick_lane_body_cutin_inv dt idx best (s : Env) :
  cutin_inv s ->
  wp (pick_lane_body dt idx best)
     (fun _ s' => cutin_inv s') (fun _ s' => cutin_inv s') s.
Proof.
  intros Hs. unfold pick_lane_body.
  wp_auto; try exact Hs.
  all: apply (wp_frame cutin_frame);
    [ apply pick_lane_cutin_hold_cutin | | intros ? s1 E1; cutin_solve ].
  all: intros [[|] b] s1 E1; [ wp_step; cutin_solve |].
  all: wp_step; wp_step; wp_step; wp_step; wp_step.
  all: destruct (agent_gap_truthy (lw_agent_gap l));
    [ apply (wp_frame cutin_frame);
      [ apply should_cutin_cutin | intros cut s2 E2 | intros ? s2 E2; cutin_solve ]
    | wp_step ].
  all: wp_auto; cutin_solve.
Qed.

Lemma pick_lane_loop_cutin_inv fuel dt my_idx idx best (s : Env) :
  cutin_inv s ->
  wp (pick_lane_loop fuel dt my_idx idx best)
     (fun _ s' => cutin_inv s') (fun _ s' => cutin_inv s') s.
Proof.
  revert idx best s. induction fuel as [| fuel IH]; intros idx best s Hs.
  - exact Hs.
  - cbn [pick_lane_loop]. wp_step. wp_step.
    destruct ((0 <=? idx)%Z && (idx <? dlen (_lane_windows (self s)))%Z);
      [| wp_step; exact Hs].
    wp_step. eapply wp_conseq; [apply pick_lane_body_cutin_inv; exact Hs | | wp_exn].
    cbv beta. intros [b | b] s1 H1.
    + wp_step. exact H1.
    + wp_step. wp_step.
      destruct (dlen (_lane_windows (self s1)) =? 0)%Z; [wp_step; exact H1 |].
      destruct (_ =? my_idx)%Z; [wp_step; exact H1 |].
      apply IH. exact H1.
Qed.

Lemma pick_lane_cutin_inv dt (s : Env) :
  cutin_inv s ->
  wp (_pick_lane dt) (fun _ s' => cutin_inv s') (fun _ s' => cutin_inv s') s.
Proof.
  intros Hs. unfold _pick_lane.
  wp_step. eapply wp_conseq;
    [apply (wp_cutin_inv _ s compute_lane_windows_cutin Hs) | | wp_exn].
  cbv beta. intros _ s1 H1.
  wp_auto; try exact H1.
  eapply wp_conseq; [apply pick_lane_loop_cutin_inv | | wp_exn].
  - cutin_solve.
  - cbv beta. intros b s2 H2. wp_step. cutin_solve.
Qed.

Lemma wp_with_self {A} (a : Actor) (m : M Env A)
    (Q : A * Actor -> Provider -> Prop) (E : exn -> Provider -> Prop)
    (p : Provider) :
  wp m (fun x e => Q (x, self e) (owner e)) (fun err e => E err (owner e))
     (mkEnv a p) ->
  wp (with_self a m) Q E p.
Proof.
  unfold wp, with_self. destruct (m (mkEnv a p)) as [[x | err] e]; auto.
Qed.

Lemma wp_py_gauss (mu sigma : pyfloat) (Q : pyfloat -> Provider -> Prop)
    (E : exn -> Provider -> Prop) (p : Provider) :
  (forall x p', Q x p') -> wp (py_gauss mu sigma) Q E p.
Proof.
  intros H. unfold wp, py_gauss. destruct (random_gauss _ _ _). apply H.
Qed.

(** A new actor has no cut-in commitment, an unset hold timer and a hold
    duration of 3. *)
Lemma init_cutin_state (flow : Flow) (p : Provider) :
  wp (__init__ flow) (fun a _ => cutin_state a = (None, None, Fin 3))
     (fun _ _ => True) p.
Proof.
  unfold __init__, self__log.
  wp_step. apply wp_py_gauss. intros g p1.
  wp_auto; try exact I; reflexivity.
Qed.

Lemma from_flow_cutin_state (flow : Flow) (p : Provider) :
  wp (from_flow flow) (fun a _ => cutin_state a = (None, None, Fin 3))
     (fun _ _ => True) p.
Proof.
  unfold from_flow.
  wp_step. wp_step. destruct (vt_vClass (fl_vtype flow)); [| exact I].
  wp_step. wp_step. destruct (VEHICLE_CONFIGS _); [| exact I].
  wp_step. eapply wp_conseq; [apply init_cutin_state | | auto].
  cbv beta. intros a p1 Ha.
  wp_step. apply wp_with_self.
  apply (wp_frame cutin_frame).
  - cframe.
  - intros x e He. wp_step. cbn [snd]. unfold cutin_frame in He. cbn in He.
    congruence.
  - intros; exact I.
Qed.


(** Crossing into the lane the actor is in takes no time and is always
    feasible. *)
Lemma crossing_time_into_own_lane (a : Actor) (l : Lane) :
  _lane a = Some l ->
  _crossing_time_into (lane_index l) a = Returns (Fin 0, true).
Proof.
  intros Hl. unfold _crossing_time_into. rewrite Hl. cbn [attr oexpect obind].
  rewrite Z.eqb_refl. reflexivity.
Qed.

(** X4. A cut-in commitment is never released by time.  Once the actor is
    in the lane it cut into (and is not about to arrive), the first
    iteration of the loop of [_pick_lane] adds [dt] to
    [_in_front_after_cutin_secs], finds the timer it compares below the
    hold duration and leaves the loop: the target is the window stored at
    the time of the cut-in and the commitment stays, whatever time has been
    accumulated. *)
Theorem cutin_hold_never_released (fuel : nat) (dt : pyfloat)
    (best : LaneWindow) (s : Env) (l dl : Lane) (ci lw : LaneWindow) :
  cutin_inv s ->
  _lane (self s) = Some l ->
  _cutting_into (self s) = Some ci ->
  lane_eqb (lw_lane ci) l = true ->
  lane_index (lw_lane ci) = lane_index l ->
  (0 <= lane_index l < dlen (_lane_windows (self s)))%Z ->
  dget (lane_index l) (_lane_windows (self s)) = Some lw ->
  _dest_lane (self s) = Some dl ->
  (lane_eqb (lw_lane lw) dl = false \/
   exists d, _dest_offset (self s) = Some d /\
             f_ge (f_add (rl_s (lw_lane_coord lw)) (lw_gap lw)) d = false) ->
  pick_lane_loop (S fuel) dt (lane_index l) (lane_index l) best s
  = (Returns ci,
     mkEnv (set__in_front_after_cutin_secs
              (f_add (_in_front_after_cutin_secs (self s)) dt) (self s))
           (owner s)).
Proof.
  intros Hinv Hl Hci Heq Hidx Hrange Hlw Hdl Hdest.
  assert (Hsecs : _in_front_secs (self s) = Some (Fin 0) /\
                  _cutin_hold_secs (self s) = Fin 3).
  { unfold cutin_inv, cutin_frame, cutin_state, cutin_ok in Hinv.
    rewrite Hci in Hinv. destruct Hinv as [H3 [[H _] | H]];
      [discriminate | auto]. }
  destruct Hsecs as [Hsecs Hhold].
  destruct (wp_returns (pick_lane_loop (S fuel) dt (lane_index l) (lane_index l) best)
              (fun r s' =>
                 r = ci /\
                 s' = mkEnv (set__in_front_after_cutin_secs
                               (f_add (_in_front_after_cutin_secs (self s)) dt)
                               (self s)) (owner s)) s)
    as (r & s' & E & -> & ->); [| exact E].
  cbn [pick_lane_loop]. wp_step. wp_step.
  replace ((0 <=? lane_index l)%Z && (lane_index l <? dlen (_lane_windows (self s)))%Z)
    with true by (symmetry; apply andb_true_iff; split;
                  [apply Z.leb_le | apply Z.ltb_lt]; lia).
  wp_step. unfold pick_lane_body.
  wp_step. wp_step. rewrite (crossing_time_into_own_lane _ l Hl). cbn [snd negb].
  wp_step. wp_step. wp_step. wp_step. rewrite Hlw.
  wp_step. wp_step. rewrite Hdl.
  assert (Hat : wp (if lane_eqb (lw_lane lw) dl
                    then dest_offset <- self_attr _dest_offset ;;
                         ret (f_ge (f_add (rl_s (lw_lane_coord lw)) (lw_gap lw))
                                dest_offset)
                    else ret false)
                   (fun b s' => b = false /\ s' = s) (fun _ _ => False) s).
  { destruct Hdest as [Hne | (d & Hd & Hlt)].
    - rewrite Hne. wp_step. auto.
    - destruct (lane_eqb (lw_lane lw) dl); [| wp_step; auto].
      wp_step. wp_step. rewrite Hd. wp_step. auto. }
  wp_step. eapply wp_conseq; [exact Hat | | intros ? ? []].
  cbv beta. intros b s1 [-> ->].
  wp_step. unfold pick_lane_cutin_hold.
  wp_step. wp_step. rewrite Hci.
  wp_step. wp_step. rewrite Hidx, (crossing_time_into_own_lane _ l Hl).
  cbn [snd]. wp_step. wp_step. rewrite Hl, Heq. cbn [negb].
  wp_step. wp_step. wp_step. wp_step. rewrite Hsecs.
  wp_step. wp_step. rewrite Hhold. cbn [f_lt]. rcmp.
  wp_step. wp_step. destruct s. split; reflexivity.
Qed.

End CutIn.

Lemma cutin_hold_never_released_witness :
  let a := set__in_front_after_cutin_secs (Fin 100)
             (set__in_front_secs (Some (Fin 0))
                (set__cutting_into (Some (toy_window 0 1 1))
                   (toy_actor (toy_state "car-1" 10 5) (toy_window 0 60 50)
                      (toy_window 0 60 50)))) in
  @pick_lane_loop toy_host 2 0.1 0%Z 0%Z (toy_window 0 60 50)
    (mkEnv a toy_provider)
  = (Returns (toy_window 0 1 1),
     mkEnv (set__in_front_after_cutin_secs
              (f_add (_in_front_after_cutin_secs a) 0.1) a) toy_provider).
Proof.
  intros a.
  apply (@cutin_hold_never_released toy_host 1 0.1 (toy_window 0 60 50)
           (mkEnv a toy_provider) 0%Z 0%Z (toy_window 0 1 1) (toy_window 0 60 50)).
  - unfold cutin_inv, cutin_frame, cutin_state, cutin_ok. cbn. auto.
  - reflexivity.
  - reflexivity.
  - reflexivity.
  - reflexivity.
  - cbn. lia.
  - reflexivity.
  - reflexivity.
  - right. exists (Fin 100). split; [reflexivity |].
    unfold f_ge, f_le. cbn. rcmp. reflexivity.
Defined.


(* ------------------------------------------------------------------ *)
(** ** The speed that a tick commits *)

Section NextSpeed.
Context {host : Host}.

Lemma pydiv_nonzero (x : pyfloat) (v : R) :
  v <> 0 -> pydiv x (Fin v) = Returns (f_div_ieee x (Fin v)).
Proof. intros H. unfold pydiv. cbn. rewrite (Reqb_false v 0 H). reflexivity. Qed.

Lemma speed_of (a : Actor) (st : VehicleState) :
  _state a = Some st -> speed a = Returns (vs_speed st).
Proof. intros H. unfold speed. rewrite H. reflexivity. Qed.

Lemma f_mod_two_pi (x : pyfloat) :
  exists r, f_mod x (f_mul 2 (Fin PI)) = Returns r.
Proof.
  unfold f_mod. cbn. rcmp. destruct x; eexists; reflexivity.
Qed.

(** The last statements of [compute_next_state] always return, and the
    next speed they store is [speed + acceleration * dt]. *)
Lemma set_next_state_speed (dt w a : pyfloat) (s : Env) (st : VehicleState) :
  _state (self s) = Some st ->
  exists s1 pose acc,
    set_next_state dt w a s = (Returns tt, s1) /\
    _next_speed (self s1) = Some (f_add (vs_speed st) (f_mul a dt)) /\
    _next_pose (self s1) = Some pose /\
    _next_linear_acceleration (self s1) = Some acc /\
    _state (self s1) = Some st.
Proof.
  intros Hst.
  destruct (wp_returns (set_next_state dt w a)
              (fun _ s1 =>
                 _next_speed (self s1) = Some (f_add (vs_speed st) (f_mul a dt)) /\
                 (exists pose, _next_pose (self s1) = Some pose) /\
                 (exists acc, _next_linear_acceleration (self s1) = Some acc) /\
                 _state (self s1) = Some st) s) as ([] & s1 & E & H1 & H2 & H3 & H4).
  - unfold set_next_state.
    wp_step. wp_step. rewrite Hst. wp_step. wp_step.
    destruct (f_mod_two_pi (f_add (pose_heading (vs_pose st)) (f_mul w dt)))
      as [th Eth].
    rewrite Eth. wp_step. wp_step. wp_step. wp_step. rewrite Hst.
    wp_step. wp_step. wp_step. wp_step.
    rewrite (speed_of _ st) by (rec_simpl; exact Hst).
    wp_step. wp_step. rewrite Hst. wp_step.
    repeat split; eauto.
  - destruct H2 as [pose H2]. destruct H3 as [acc H3].
    exists s1, pose, acc. auto.
Qed.

(** The first statements of [step] store the pre-computed values in the
    vehicle state. *)
Lemma commit_next_state_stores (s : Env) (st : VehicleState)
    (pose : Pose) (v : pyfloat) (acc : list pyfloat) :
  _state (self s) = Some st ->
  _next_pose (self s) = Some pose ->
  _next_speed (self s) = Some v ->
  _next_linear_acceleration (self s) = Some acc ->
  exists s2,
    commit_next_state s = (Returns tt, s2) /\
    _state (self s2)
    = Some (set_vs_linear_acceleration (Some acc)
              (set_vs_speed v (set_vs_pose pose st))).
Proof.
  intros Hst Hp Hv Ha.
  destruct (wp_returns commit_next_state
              (fun _ s2 =>
                 _state (self s2)
                 = Some (set_vs_linear_acceleration (Some acc)
                           (set_vs_speed v (set_vs_pose pose st)))) s)
    as ([] & s2 & E & H).
  - unfold commit_next_state.
    wp_step. wp_step. rewrite Hst. wp_step. wp_step. rewrite Hp.
    wp_step. wp_step. wp_step. wp_step. wp_step. wp_step. rewrite Hv.
    wp_step. wp_step. wp_step. wp_step. wp_step. wp_step. rewrite Ha.
    wp_step. reflexivity.
  - exists s2. auto.
Qed.

(** The emergency-brake gate is saturated when the time cushion is at most
    two thirds of [tau]: the acceleration is [-emergencyDecel]. *)
Lemma emergency_gate_saturated (dt : pyfloat) (s : Env) (st : VehicleState)
    (tw lw : LaneWindow) (v tau ed tc : R) :
  _state (self s) = Some st -> vs_speed st = Fin v -> 0 < v ->
  vget (vt_tau (_vtype (self s))) 1 = Fin tau -> 0 < tau ->
  vget (vt_emergencyDecel (_vtype (self s))) 4.5 = Fin ed -> 0 <= ed ->
  _target_lane_win (self s) = Some tw -> _lane_win (self s) = Some lw ->
  time_cush (lw_time_left tw) (f_div_ieee (lw_gap tw) (Fin v))
            (lw_time_left lw) (f_div_ieee (lw_gap lw) (Fin v)) = Fin tc ->
  tc <= 2 / 3 * tau ->
  exists a : R, _compute_acceleration dt s = (Returns (Fin a), s) /\ a = - ed.
Proof.
  intros Hst Hsp Hv Htau Htau0 Hed Hed0 Htw Hlw Htc Hle.
  assert (Hsev : 1 <= 3 * (tau + - tc) / tau).
  { unfold Rdiv. apply (Rmult_le_reg_r tau); [exact Htau0 |].
    rewrite Rmult_assoc, Rinv_l by lra. lra. }
  destruct (wp_returns (_compute_acceleration dt)
              (fun r s' => s' = s /\ exists a : R, r = Fin a /\ a = - ed) s)
    as (r & s' & E & -> & a & -> & Ha).
  - unfold _compute_acceleration.
    wp_step. wp_step. rewrite Hed.
    wp_step. wp_step. unfold f_ge, f_le. cbn [f_lt f_eq].
    destruct (Rltb 0 ed || Reqb 0 ed) eqn:Hge.
    2:{ apply orb_false_iff in Hge. destruct Hge as [H1 H2].
        destruct (Req_dec_T 0 ed) as [E0 | E0].
        - rewrite (Reqb_true _ _ E0) in H2. discriminate.
        - rewrite (Rltb_true 0 ed) in H1 by lra. discriminate. }
    wp_step. wp_step. rewrite Htw.
    wp_step. wp_step. rewrite (speed_of _ st Hst), Hsp.
    wp_step. wp_step. rewrite (pydiv_nonzero _ v) by lra.
    wp_step. wp_step. rewrite Hlw.
    wp_step. wp_step. rewrite (speed_of _ st Hst), Hsp.
    wp_step. wp_step. rewrite (pydiv_nonzero _ v) by lra.
    rewrite Htc, Htau. cbn [f_lt].
    rewrite (Rltb_true tc tau) by lra.
    wp_step. wp_step. rewrite (speed_of _ st Hst), Hsp.
    cbn [f_gt f_lt]. rewrite (Rltb_true 0 v) by lra.
    wp_step. wp_step. unfold time_severity. cbn [f_sub f_neg f_add f_mul].
    rewrite (pydiv_nonzero _ tau) by lra. cbn [f_div_ieee].
    wp_step. split; [reflexivity |].
    set (sev := 3 * (tau + - tc) / tau) in *.
    unfold np_clip, np_maximum, np_minimum. cbn [f_lt].
    rewrite (Rltb_false sev 0) by lra.
    destruct (Rlt_dec 1 sev) as [H1 | H1].
    + rewrite (Rltb_true 1 sev H1). cbn. eexists. split; [reflexivity | lra].
    + rewrite (Rltb_false 1 sev) by lra. cbn.
      eexists. split; [reflexivity |].
      assert (sev = 1) by lra. nra.
  - exists a. split; [exact E | exact Ha].
Qed.


End NextSpeed.


(* ------------------------------------------------------------------ *)
(** ** Emission *)

Section Emission.
Context {host : Host}.

Lemma py_random_emission : preserves emission_frame py_random.
Proof.
  intros p. unfold py_random. destruct (random_random (_rng p)). reflexivity.
Qed.

Lemma py_random_created :
  preserves (fun p => (emission_frame p, _actors_created p)) py_random.
Proof.
  intros p. unfold py_random. destruct (random_random (_rng p)). reflexivity.
Qed.

Lemma in_owner_random_part : preserves owner_part (in_owner py_random).
Proof.
  intros [a p]. unfold in_owner, zoom, owner_part. cbn.
  pose proof (py_random_created p) as H.
  destruct (py_random p) as [r p']. exact H.
Qed.

Ltac oframe := repeat first [ frame_step | apply in_owner_random_part ].

Lemma resolve_flow_pos_owner fl depart dims :
  preserves owner_part (_resolve_flow_pos fl depart dims).
Proof. unfold _resolve_flow_pos. oframe. Qed.

Lemma resolve_flow_speed_owner fl :
  preserves owner_part (_resolve_flow_speed fl).
Proof. unfold _resolve_flow_speed. oframe. Qed.

(** [__init__] counts the new actor and touches nothing else of the
    provider but the random generator; when it raises, the counter is as
    before. *)
Lemma init_counts (flow : Flow) (p : Provider) :
  wp (__init__ flow)
     (fun _ p' => emission_frame p' = emission_frame p /\
                  _actors_created p' = (_actors_created p + 1)%Z)
     (fun _ p' => emission_frame p' = emission_frame p) p.
Proof.
  unfold __init__, self__log.
  wp_step. unfold wp at 1, py_gauss.
  destruct (random_gauss _ _ _) as [g r].
  repeat first
    [ wp_step
    | lazymatch goal with
      | |- wp (if ?c then _ else _) _ _ _ => destruct c
      end ]; auto.
Qed.

(** [from_flow] likewise: a constructed actor has taken one number. *)
Lemma from_flow_counts (flow : Flow) (p : Provider) :
  wp (from_flow flow)
     (fun _ p' => emission_frame p' = emission_frame p /\
                  _actors_created p' = (_actors_created p + 1)%Z)
     (fun _ p' => emission_frame p' = emission_frame p) p.
Proof.
  unfold from_flow.
  wp_step. wp_step. destruct (vt_vClass (fl_vtype flow)); [| reflexivity].
  wp_step. wp_step. destruct (VEHICLE_CONFIGS _); [| reflexivity].
  wp_step. eapply wp_conseq; [apply init_counts | | wp_exn].
  cbv beta. intros a p1 [Hf Hc].
  wp_step. apply wp_with_self.
  apply (wp_frame owner_part).
  - oframe; first [apply resolve_flow_pos_owner | apply resolve_flow_speed_owner].
  - intros x e He. wp_step. unfold owner_part in He. cbn [owner] in He.
    inversion He as [[H1 H2]]. split; congruence.
  - intros x e He. unfold owner_part in He. cbn [owner] in He.
    inversion He as [[H1 H2]]. congruence.
Qed.

(** What [_add_actor_in_flow] answers and changes. *)
Lemma add_actor_in_flow_spec (flow : Flow) (p : Provider) :
  wp (_add_actor_in_flow flow)
     (fun added p' =>
        _actors_created p' = (_actors_created p + 1)%Z /\
        exists a box,
          fst (from_flow flow p) = Returns a /\
          bbox true a = Returns box /\
          if added then
            existsb (fun area => intersects area box)
                    (dvalues (_reserved_areas p)) = false /\
            any_o (fun actor => let! b := bbox false actor in
                                Returns (intersects b box))
                  (dvalues (_my_actors p)) = Returns false /\
            exists id,
              actor_id a = Returns id /\
              _my_actors p' = dset id a (_my_actors p) /\
              _log p' = _log p ++ [mkLog LogInfo "traffic actor entered simulation"] /\
              _flows p' = _flows p /\
              _reserved_areas p' = _reserved_areas p /\
              _other_vehicles p' = _other_vehicles p
          else
            (existsb (fun area => intersects area box)
                     (dvalues (_reserved_areas p)) = true \/
             any_o (fun actor => let! b := bbox false actor in
                                 Returns (intersects b box))
                   (dvalues (_my_actors p)) = Returns true) /\
            emission_frame p' = emission_frame p)
     (fun _ p' => emission_frame p' = emission_frame p) p.
Proof.
  unfold _add_actor_in_flow. apply wp_bind.
  pose proof (from_flow_counts flow p) as H. unfold wp at 1. unfold wp in H.
  destruct (from_flow flow p) as [[a | e] p1] eqn:E; [| exact H].
  destruct H as [Hf Hc].
  assert (Hparts : _flows p1 = _flows p /\ _my_actors p1 = _my_actors p /\
                   _other_vehicles p1 = _other_vehicles p /\
                   _reserved_areas p1 = _reserved_areas p /\ _log p1 = _log p).
  { unfold emission_frame in Hf. inversion Hf. auto. }
  destruct Hparts as (Hfl & Hma & Hov & Hra & Hlog).
  wp_step. wp_step. destruct (bbox true a) as [box | e] eqn:Eb; [| exact Hf].
  wp_step. wp_step. rewrite Hra.
  destruct (existsb _ (dvalues (_reserved_areas p))) eqn:Er.
  { wp_step. split; [exact Hc |]. exists a, box. cbn [fst]. auto. }
  wp_step. wp_step. wp_step. rewrite Hma.
  destruct (any_o _ (dvalues (_my_actors p))) as [[|] | e] eqn:Ea;
    [ | | exact Hf].
  { wp_step. split; [exact Hc |]. exists a, box. cbn [fst]. auto. }
  wp_step. wp_step. destruct (actor_id a) as [id | e] eqn:Ei; [| exact Hf].
  wp_step. wp_step. wp_step. unfold logger_emit. wp_step. wp_step.
  rec_simpl. split; [exact Hc |]. exists a, box. cbn [fst].
  repeat split; auto. exists id. rewrite Hma, Hlog. repeat split; auto.
Qed.

(** X6. Admission of an emitted actor.  [_add_actor_in_flow] builds the
    candidate with [from_flow], which takes the next vehicle number, and
    answers [True] exactly when the candidate's cushioned box meets no
    reserved area and no managed actor's plain box; then the candidate is
    stored under its id, one info record is logged and nothing else of the
    provider changes.  When it answers [False] there is such an
    intersection and actors, flows, reserved areas and log are as before,
    but the vehicle number is used up; when it raises they are as before
    too. *)
Theorem add_actor_in_flow_admission (flow : Flow) (p : Provider) :
  wp (_add_actor_in_flow flow)
     (fun added p' =>
        _actors_created p' = (_actors_created p + 1)%Z /\
        exists a box,
          fst (from_flow flow p) = Returns a /\
          bbox true a = Returns box /\
          if added then
            existsb (fun area => intersects area box)
                    (dvalues (_reserved_areas p)) = false /\
            any_o (fun actor => let! b := bbox false actor in
                                Returns (intersects b box))
                  (dvalues (_my_actors p)) = Returns false /\
            exists id,
              actor_id a = Returns id /\
              _my_actors p' = dset id a (_my_actors p) /\
              _log p' = _log p ++ [mkLog LogInfo "traffic actor entered simulation"] /\
              _flows p' = _flows p /\
              _reserved_areas p' = _reserved_areas p /\
              _other_vehicles p' = _other_vehicles p
          else
            (existsb (fun area => intersects area box)
                     (dvalues (_reserved_areas p)) = true \/
             any_o (fun actor => let! b := bbox false actor in
                                 Returns (intersects b box))
                   (dvalues (_my_actors p)) = Returns true) /\
            emission_frame p' = emission_frame p)
     (fun _ p' => emission_frame p' = emission_frame p) p.
Proof. exact (add_actor_in_flow_spec flow p). Qed.

Lemma flow_due_false (t : pyfloat) (flow : Flow) :
  flow_due t flow = false ->
  negb (f_le (fl_begin flow) t && f_lt t (fl_end flow)) = true \/
  match fl_last_added flow with
  | None => true
  | Some la => f_ge (f_sub t la) (fl_emit_period flow)
  end = false.
Proof.
  unfold flow_due. intros H. apply andb_false_iff in H. destruct H as [H | H].
  - left. rewrite H. reflexivity.
  - right. exact H.
Qed.


End Emission.

(* ------------------------------------------------------------------ *)
(** ** Kinematics: the promise of the docstring *)

Lemma Rltb_cases (a b : R) :
  (a < b /\ Rltb a b = true) \/ (b <= a /\ Rltb a b = false).
Proof.
  destruct (Rlt_dec a b) as [H | H].
  - left. split; [exact H | apply Rltb_true; exact H].
  - right. split; [lra | apply Rltb_false; lra].
Qed.

Lemma Reqb_cases (a b : R) :
  (a = b /\ Reqb a b = true) \/ (a <> b /\ Reqb a b = false).
Proof.
  destruct (Req_dec_T a b) as [H | H].
  - left. split; [exact H | apply Reqb_true; exact H].
  - right. split; [exact H | apply Reqb_false; exact H].
Qed.

Lemma f_ge_zero_is_time (t : pyfloat) : f_ge t 0 = true -> is_time t.
Proof.
  unfold f_ge, f_le. destruct t as [r | | |]; cbn; try discriminate; auto.
  intros H. apply orb_true_iff in H. destruct H as [H | H].
  - apply Rltb_spec in H. lra.
  - apply Reqb_spec in H. lra.
Qed.

Lemma math_sqrt_returns (x : pyfloat) :
  f_lt x 0 = false -> exists r, math_sqrt x = Returns r.
Proof.
  destruct x as [a | | |]; cbn; intros H; try discriminate; eauto.
  rewrite H. eauto.
Qed.

Lemma big_acc_nonzero (acc : pyfloat) :
  f_lt (f_abs acc) 1e9 = false -> f_eq acc 0 = false.
Proof.
  destruct acc as [a | | |]; cbn; auto.
  intros H. destruct (Reqb_cases a 0) as [[E _] | [_ E]]; [| exact E].
  subst a. rewrite Rabs_R0 in H. rewrite Rltb_true in H by lra. discriminate.
Qed.

Lemma py_pow2_raises (x : pyfloat) (e : exn) :
  py_pow2 x = Raises e ->
  e = OverflowError /\ exists v : R, x = Fin v /\ float_overflow <= v * v.
Proof.
  destruct x as [v | | |]; cbn; try discriminate.
  destruct (Rltb_cases (v * v) float_overflow) as [[_ E] | [H E]]; rewrite E;
    [discriminate |].
  intros H0. injection H0 as <-. split; [reflexivity |]. exists v. auto.
Qed.

(** X8. [time_to_cover] keeps its docstring's promise on every float,
    infinities and [nan] included: whenever it returns, the result is a
    non-negative number or [math.inf], never negative and never [nan].  It
    raises nothing but the [OverflowError] of [speed ** 2], and that only
    past the first test ([abs(acc) < 1e9] false) for a finite speed whose
    square is out of range: no division by zero and no square root of a
    negative number. *)
Theorem time_to_cover_keeps_promise (dist speed acc : pyfloat) :
  (exists t, time_to_cover dist speed acc = Returns t /\ is_time t) \/
  (time_to_cover dist speed acc = Raises OverflowError /\
   f_eq dist 0 = false /\
   f_lt (f_abs acc) 1e9 = false /\
   exists v : R, speed = Fin v /\ float_overflow <= v * v).
Proof.
  unfold time_to_cover.
  destruct (f_eq dist 0) eqn:Hdist;
    [left; exists (Fin 0); split; [reflexivity | cbn; lra] |].
  destruct (f_lt (f_abs acc) 1e9) eqn:Hacc.
  - left.
    destruct (f_eq speed 0) eqn:Hs; [exists PInf; split; [reflexivity | exact I] |].
    unfold pydiv. rewrite Hs. cbn [obind].
    destruct (f_ge (f_div_ieee dist speed) 0) eqn:Ht.
    + eexists; split; [reflexivity | apply f_ge_zero_is_time; exact Ht].
    + exists PInf; split; [reflexivity | exact I].
  - unfold time_to_cover_quadratic.
    destruct (py_pow2 speed) as [speed2 | e] eqn:Hsq; cbn [obind].
    2:{ right. destruct (py_pow2_raises speed e Hsq) as [-> Hv]. auto. }
    left.
    destruct (f_lt _ 0) eqn:Hd; [exists PInf; split; [reflexivity | exact I] |].
    destruct (math_sqrt_returns _ Hd) as [rad ->]. cbn [obind].
    unfold pydiv. rewrite (big_acc_nonzero acc Hacc). cbn [obind].
    destruct (f_ge (py_min2 _ _) 0) eqn:H1.
    + eexists; split; [reflexivity | apply f_ge_zero_is_time; exact H1].
    + destruct (f_ge (py_max2 _ _) 0) eqn:H2.
      * eexists; split; [reflexivity | apply f_ge_zero_is_time; exact H2].
      * exists PInf; split; [reflexivity | exact I].
Qed.

(* ------------------------------------------------------------------ *)
(** ** Termination of the route search and of the lane-picking loop *)

Section Termination.
Context {host : Host}.

Lemma entries_beyond_le_length (r : Z) (lens : dict (string * Z) pyfloat) :
  (entries_beyond r lens <= List.length lens)%nat.
Proof.
  induction lens as [| [[id i] v] rest IH]; cbn; [lia |].
  destruct (r <? i)%Z; lia.
Qed.

Lemma entries_beyond_mono (r : Z) (lens : dict (string * Z) pyfloat) :
  (entries_beyond (r + 1) lens <= entries_beyond r lens)%nat.
Proof.
  induction lens as [| [[id i] v] rest IH]; cbn; [lia |].
  destruct (r + 1 <? i)%Z eqn:E1; destruct (r <? i)%Z eqn:E2; lia.
Qed.

(** A key at index [r + 1] is an entry beyond [r] that is not beyond
    [r + 1]. *)
Lemma entries_beyond_key (id : string) (r : Z)
    (lens : dict (string * Z) pyfloat) :
  dmem (id, (r + 1)%Z) lens = true ->
  (S (entries_beyond (r + 1) lens) <= entries_beyond r lens)%nat.
Proof.
  unfold dmem. induction lens as [| [[id' i] v] rest IH]; cbn; [discriminate |].
  unfold key_eqb, KeyEq_pair. cbn [fst snd].
  unfold key_eqb at 2, KeyEq_Z.
  destruct (key_eqb id id' && (r + 1 =? i)%Z) eqn:E.
  - intros _. apply andb_true_iff in E. destruct E as [_ E].
    apply Z.eqb_eq in E. subst i.
    rewrite Z.ltb_irrefl.
    replace (r <? r + 1)%Z with true by (symmetry; apply Z.ltb_lt; lia).
    pose proof (entries_beyond_mono r rest). lia.
  - intros H. specialize (IH H).
    destruct (r + 1 <? i)%Z eqn:E1; destruct (r <? i)%Z eqn:E2; lia.
Qed.

Lemma any_o_returns {X} (f : X -> outcome bool) (xs : list X) :
  (forall x, In x xs -> exists b, f x = Returns b) ->
  exists b, any_o f xs = Returns b.
Proof.
  induction xs as [| x xs IH]; intros H; cbn; [eauto |].
  destruct (H x (or_introl eq_refl)) as [b ->]. cbn [obind].
  destruct b; [eauto |]. apply IH. intros y Hy. apply H. right. exact Hy.
Qed.

Lemma connected_route_lanes_enough (fuel : nat) (start_lane end_lane : Lane)
    (lens : dict (string * Z) pyfloat) (r_ind : Z) :
  (entries_beyond r_ind lens < fuel)%nat ->
  exists b, _connected_route_lanes fuel start_lane end_lane lens r_ind = Returns b.
Proof.
  revert start_lane r_ind.
  induction fuel as [| fuel IH]; intros start_lane r_ind Hf; [lia |].
  cbn [_connected_route_lanes]. apply any_o_returns. intros ogl _.
  destruct (lane_eqb (composite_lane ogl) end_lane); [eauto |].
  destruct (dmem (lane_id (composite_lane ogl), (r_ind + 1)%Z) lens) eqn:Hk;
    [| eauto].
  apply IH. apply entries_beyond_key in Hk. lia.
Qed.


Lemma in_owner_windows {A} (m : M Provider A) :
  preserves (fun e : Env => _lane_windows (self e)) (in_owner m).
Proof. apply (preserves_in_owner_self _lane_windows). Qed.

Ltac wframe := repeat first [ frame_step | apply in_owner_windows ].

Lemma should_cutin_windows lw :
  preserves (fun e : Env => _lane_windows (self e)) (_should_cutin lw).
Proof. unfold _should_cutin. wframe. Qed.

Lemma pick_lane_cutin_hold_windows dt best :
  preserves (fun e : Env => _lane_windows (self e)) (pick_lane_cutin_hold dt best).
Proof. unfold pick_lane_cutin_hold. wframe. Qed.

(** An iteration of the loop does not touch the lane windows. *)
Lemma pick_lane_body_windows dt idx best :
  preserves (fun e : Env => _lane_windows (self e)) (pick_lane_body dt idx best).
Proof.
  unfold pick_lane_body.
  wframe; first [ apply pick_lane_cutin_hold_windows | apply should_cutin_windows ].
Qed.

Lemma cyclic_next (my j n : Z) :
  (0 < n)%Z ->
  (((my + j) mod n + 1) mod n = (my + (j + 1)) mod n)%Z.
Proof.
  intros Hn. rewrite Z.add_mod_idemp_l by lia. f_equal. lia.
Qed.

Lemma cyclic_back (my j n : Z) :
  (0 <= my < n)%Z -> (0 <= j)%Z -> (j + 1 <= n)%Z ->
  ((my + (j + 1)) mod n = my)%Z <-> (j + 1 = n)%Z.
Proof.
  intros Hmy Hj Hle. split.
  - intros E.
    pose proof (Z.div_mod (my + (j + 1)) n ltac:(lia)) as D. rewrite E in D.
    assert (Hq : (j + 1 = n * ((my + (j + 1)) / n))%Z) by lia.
    set (q := ((my + (j + 1)) / n)%Z) in *. clearbody q. clear D E.
    destruct (Z_lt_le_dec q 1) as [H1 | H1]; [nia |].
    destruct (Z_lt_le_dec 1 q) as [H2 | H2]; [nia |].
    assert (q = 1)%Z by lia. subst q. lia.
  - intros ->. rewrite <- (Z.mul_1_l n) at 1. rewrite Z_mod_plus_full.
    apply Z.mod_small. lia.
Qed.

Lemma pick_lane_loop_unrolled (dt : pyfloat) (my : Z) (m : nat) :
  forall (j fuel : nat) (best : LaneWindow) (s : Env),
    (0 <= my < dlen (_lane_windows (self s)))%Z ->
    (Z.of_nat j + Z.of_nat m = dlen (_lane_windows (self s)))%Z ->
    (1 <= m <= fuel)%nat ->
    pick_lane_loop fuel dt my
      ((my + Z.of_nat j) mod dlen (_lane_windows (self s)))%Z best s
    = for_fold
        (map (fun k => ((my + Z.of_nat k) mod dlen (_lane_windows (self s)))%Z)
             (seq j m))
        best (pick_lane_iter dt) s.
Proof.
  induction m as [| m IH]; intros j fuel best s Hmy Hn Hf; [lia |].
  destruct fuel as [| fuel]; [lia |].
  set (n := dlen (_lane_windows (self s))) in *.
  cbn [pick_lane_loop seq map for_fold].
  unfold bind at 1. unfold self_get at 1, gets at 1. fold n.
  assert (Hidx : (0 <= (my + Z.of_nat j) mod n < n)%Z)
    by (apply Z.mod_pos_bound; lia).
  replace ((0 <=? (my + Z.of_nat j) mod n)%Z && ((my + Z.of_nat j) mod n <? n)%Z)
    with true by (symmetry; apply andb_true_iff; split;
                  [apply Z.leb_le | apply Z.ltb_lt]; lia).
  unfold pick_lane_iter. unfold bind.
  pose proof (pick_lane_body_windows dt ((my + Z.of_nat j) mod n)%Z best s) as Hw.
  cbv beta in Hw.
  destruct (pick_lane_body dt ((my + Z.of_nat j) mod n)%Z best s)
    as [[[b | b] | e] s1]; cbn [snd] in Hw; cbn [ret]; try reflexivity.
  unfold self_get, gets. cbv beta iota. rewrite Hw. fold n.
  replace (n =? 0)%Z with false by (symmetry; apply Z.eqb_neq; lia).
  rewrite cyclic_next by lia.
  destruct m as [| m].
  - replace ((my + (Z.of_nat j + 1)) mod n =? my)%Z with true
      by (symmetry; apply Z.eqb_eq; apply cyclic_back; lia).
    reflexivity.
  - replace ((my + (Z.of_nat j + 1)) mod n =? my)%Z with false
      by (symmetry; apply Z.eqb_neq; intros E; apply cyclic_back in E; lia).
    replace (Z.of_nat j + 1)%Z with (Z.of_nat (S j)) by lia.
    unfold n. rewrite <- Hw.
    apply IH; rewrite ?Hw; fold n; lia.
Qed.

(** X12. The loop of [_pick_lane] is a bounded loop.  With the actor's
    lane index inside the range of the lane windows, the [while] loop
    visits the indices in cyclic order from that index and goes around at
    most once: it is the [for] loop over [(my_idx + k) % n] for
    [k = 0, ..., n - 1] with the same body and the same breaks, so it ends
    after at most [n] iterations. *)
Theorem pick_lane_loop_bounded (dt : pyfloat) (my_idx : Z)
    (best : LaneWindow) (s : Env) :
  (0 <= my_idx < dlen (_lane_windows (self s)))%Z ->
  pick_lane_loop (S (List.length (_lane_windows (self s)))) dt my_idx my_idx
    best s
  = for_fold (cyclic_indices my_idx (dlen (_lane_windows (self s)))) best
      (pick_lane_iter dt) s.
Proof.
  intros Hmy. unfold cyclic_indices.
  pose proof (pick_lane_loop_unrolled dt my_idx
                (List.length (_lane_windows (self s))) 0
                (S (List.length (_lane_windows (self s)))) best s Hmy) as H.
  unfold dlen in *. rewrite Nat2Z.id.
  cbn [Z.of_nat] in H. rewrite Z.add_0_r in H.
  rewrite Z.mod_small in H by lia.
  apply H; lia.
Qed.

End Termination.

Lemma pick_lane_loop_bounded_witness :
  let s := mkEnv (toy_actor (toy_state "car-1" 10 5) (toy_window 0 60 50)
                    (toy_window 0 60 50)) toy_provider in
  @pick_lane_loop toy_host 2 0.1 0%Z 0%Z (toy_window 0 60 50) s
  = for_fold (cyclic_indices 0 1) (toy_window 0 60 50) (pick_lane_iter 0.1) s.
Proof.
  intros s.
  apply (@pick_lane_loop_bounded toy_host 0.1 0%Z (toy_window 0 60 50) s).
  cbn. lia.
Defined.

(* ================================================================== *)
(** * Dicts keyed by strings *)
(* ================================================================== *)

Section DictFacts.
Context {V : Type}.
Implicit Types (k : string) (v : V) (d : dict string V).

Lemma key_eqb_string_refl k : key_eqb k k = true.
Proof. apply String.eqb_refl. Qed.

Lemma key_eqb_string_neq k k' : k <> k' -> key_eqb k k' = false.
Proof. intros H. apply String.eqb_neq. exact H. Qed.

Lemma dget_dset_same k v d : dget k (dset k v d) = Some v.
Proof.
  induction d as [| [k0 v0] d IH]; cbn.
  - rewrite key_eqb_string_refl. reflexivity.
  - destruct (key_eqb k k0) eqn:E; cbn; rewrite ?E; auto.
Qed.

Lemma dget_dset_other k k' v d :
  k <> k' -> dget k' (dset k v d) = dget k' d.
Proof.
  intros Hne. induction d as [| [k0 v0] d IH]; cbn.
  - rewrite key_eqb_string_neq by congruence. reflexivity.
  - destruct (key_eqb k k0) eqn:E; cbn.
    + apply String.eqb_eq in E. subst k0.
      rewrite key_eqb_string_neq by congruence. reflexivity.
    + rewrite IH. reflexivity.
Qed.

Lemma dget_ddel_other k k' d :
  k <> k' -> dget k' (ddel k d) = dget k' d.
Proof.
  intros Hne. induction d as [| [k0 v0] d IH]; cbn; [reflexivity |].
  destruct (key_eqb k k0) eqn:E; cbn.
  - apply String.eqb_eq in E. subst k0.
    rewrite key_eqb_string_neq by congruence. reflexivity.
  - rewrite IH. reflexivity.
Qed.

Lemma dget_none_not_in k d : dget k d = None <-> ~ In k (dkeys d).
Proof.
  induction d as [| [k0 v0] d IH]; cbn; [tauto |].
  destruct (key_eqb k k0) eqn:E.
  - apply String.eqb_eq in E. subst k0. split; [discriminate | tauto].
  - apply String.eqb_neq in E. rewrite IH. split; [| tauto].
    intros H [H1 | H1]; [congruence | tauto].
Qed.

Lemma dmem_in k d : dmem k d = true <-> In k (dkeys d).
Proof.
  unfold dmem. destruct (dget k d) eqn:E.
  - split; [| reflexivity]. intros _.
    destruct (in_dec string_dec k (dkeys d)) as [H | H]; [exact H |].
    apply dget_none_not_in in H. congruence.
  - split; [discriminate |]. intros H. apply dget_none_not_in in E. tauto.
Qed.

Lemma dget_ddel_same k d : NoDup (dkeys d) -> dget k (ddel k d) = None.
Proof.
  induction d as [| [k0 v0] d IH]; cbn; [reflexivity |].
  intros Hnd. inversion Hnd as [| ? ? Hnotin Hnd']. subst.
  destruct (key_eqb k k0) eqn:E; cbn.
  - apply String.eqb_eq in E. subst k0. apply dget_none_not_in. exact Hnotin.
  - rewrite E. apply IH. exact Hnd'.
Qed.

Lemma dkeys_dset k v d :
  dkeys (dset k v d) = if dmem k d then dkeys d else dkeys d ++ [k].
Proof.
  unfold dmem, dkeys. induction d as [| [k0 v0] d IH]; cbn; [reflexivity |].
  destruct (key_eqb k k0) eqn:E; cbn; [reflexivity |].
  rewrite IH. destruct (dget k d); reflexivity.
Qed.

Lemma in_dkeys_ddel k k' d : In k' (dkeys (ddel k d)) -> In k' (dkeys d).
Proof.
  induction d as [| [k0 v0] d IH]; cbn; [tauto |].
  destruct (key_eqb k k0); cbn; tauto.
Qed.

Lemma nodup_ddel k d : NoDup (dkeys d) -> NoDup (dkeys (ddel k d)).
Proof.
  induction d as [| [k0 v0] d IH]; cbn; [auto |].
  intros Hnd. inversion Hnd as [| ? ? Hnotin Hnd']. subst.
  destruct (key_eqb k k0); cbn; [exact Hnd' |].
  constructor; [| apply IH; exact Hnd'].
  intros H. apply Hnotin. eapply in_dkeys_ddel. exact H.
Qed.

Lemma nodup_dset k v d : NoDup (dkeys d) -> NoDup (dkeys (dset k v d)).
Proof.
  intros Hnd. rewrite dkeys_dset. destruct (dmem k d) eqn:E; [exact Hnd |].
  apply NoDup_app; [exact Hnd | constructor; [intros [] | constructor] |].
  intros x Hx [<- | []].
  apply dmem_in in Hx. congruence.
Qed.

Lemma dmem_dset k k' v d :
  dmem k' (dset k v d) = (String.eqb k k' || dmem k' d)%bool.
Proof.
  unfold dmem. destruct (String.eqb k k') eqn:E.
  - apply String.eqb_eq in E. subst k'. rewrite dget_dset_same. reflexivity.
  - apply String.eqb_neq in E. rewrite dget_dset_other by exact E. reflexivity.
Qed.

End DictFacts.

(* ------------------------------------------------------------------ *)
(** ** A provider tick and the foreign vehicles *)

Section Foreign.
Context {host : Host}.

Lemma preserves_weaken {S A T U} (proj : S -> T) (g : T -> U) (m : M S A) :
  preserves proj m -> preserves (fun s => g (proj s)) m.
Proof. intros H s. cbv beta. rewrite (H s). reflexivity. Qed.

Lemma in_owner_foreign {A} (m : M Provider A) :
  preserves foreign m -> preserves owner_foreign (in_owner m).
Proof.
  intros H [a p]. unfold in_owner, zoom, owner_foreign. cbn.
  specialize (H p). destruct (m p) as [r p']. exact H.
Qed.

Lemma py_random_foreign : preserves foreign py_random.
Proof.
  intros p. unfold py_random. destruct (random_random (_rng p)). reflexivity.
Qed.

Lemma logger_emit_foreign lvl about : preserves foreign (logger_emit lvl about).
Proof. intros p. reflexivity. Qed.

Ltac fframe :=
  repeat first
    [ frame_step
    | apply in_owner_foreign;
      first [ apply py_random_foreign | apply logger_emit_foreign ] ].

Lemma resolve_flow_pos_foreign fl depart dims :
  preserves owner_foreign (_resolve_flow_pos fl depart dims).
Proof. unfold _resolve_flow_pos. fframe. Qed.

Lemma resolve_flow_speed_foreign fl :
  preserves owner_foreign (_resolve_flow_speed fl).
Proof. unfold _resolve_flow_speed. fframe. Qed.

Lemma reroute_foreign : preserves owner_foreign _reroute.
Proof.
  unfold _reroute.
  fframe; first [ apply resolve_flow_pos_foreign | apply resolve_flow_speed_foreign ].
Qed.

Lemma relocalize_step_foreign nld best_d :
  preserves owner_foreign (relocalize_step nld best_d).
Proof. unfold relocalize_step. fframe. Qed.

Lemma commit_next_state_foreign : preserves owner_foreign commit_next_state.
Proof. unfold commit_next_state. fframe. Qed.

Lemma step_foreign dt : preserves owner_foreign (step dt).
Proof.
  unfold step.
  fframe; first [ apply commit_next_state_foreign | apply relocalize_step_foreign
                | apply reroute_foreign ].
Qed.

Lemma compute_next_state_foreign dt all :
  preserves owner_foreign (compute_next_state dt all).
Proof.
  intros s. pose proof (compute_next_state_frame dt all s) as H.
  unfold env_frame, provider_frame in H. unfold owner_foreign, foreign.
  inversion H. congruence.
Qed.

Lemma on_actor_foreign {A} (key : string) (m : M Env A) :
  preserves owner_foreign m -> preserves foreign (on_actor key m).
Proof.
  intros H p. unfold on_actor. destruct (dget key (_my_actors p)); [| reflexivity].
  specialize (H (mkEnv a p)). destruct (m (mkEnv a p)) as [r e]. exact H.
Qed.

Lemma decide_all_foreign dt : preserves foreign (decide_all dt).
Proof.
  unfold decide_all, decide_one. frame.
  apply on_actor_foreign. apply compute_next_state_foreign.
Qed.

Lemma commit_all_foreign dt : preserves foreign (commit_all dt).
Proof.
  unfold commit_all. frame; apply on_actor_foreign.
  - apply step_foreign.
  - apply preserves_self_get.
  - apply preserves_self_call.
Qed.

Lemma add_actor_in_flow_foreign flow :
  preserves foreign (_add_actor_in_flow flow).
Proof.
  intros p. pose proof (add_actor_in_flow_spec flow p) as H. unfold wp in H.
  destruct (_add_actor_in_flow flow p) as [[[|] | e] p']; cbn [snd].
  - destruct H as (_ & a & box & _ & _ & _ & _ & id & _ & _ & _ & _ & Hr & Ho).
    unfold foreign. congruence.
  - destruct H as (_ & a & box & _ & _ & _ & Hf).
    unfold emission_frame in Hf. unfold foreign. inversion Hf. congruence.
  - unfold emission_frame in H. unfold foreign. inversion H. congruence.
Qed.

Lemma add_actors_for_time_foreign t : preserves foreign (_add_actors_for_time t).
Proof.
  unfold _add_actors_for_time, add_actors_for_flow.
  frame; apply add_actor_in_flow_foreign.
Qed.

(** The release loop deletes the reserved areas of the vehicles it is
    given and nothing else. *)
Lemma release_loop (l : list (VehicleState * option (list string))) :
  forall p, NoDup (dkeys (_reserved_areas p)) ->
    exists p',
      for_all l release_reserved p = (Returns tt, p') /\
      _other_vehicles p' = _other_vehicles p /\
      NoDup (dkeys (_reserved_areas p')) /\
      (forall id, dmem id (_reserved_areas p') = true ->
                  dmem id (_reserved_areas p) = true) /\
      (forall vs r, In (vs, r) l ->
                    dmem (vs_vehicle_id vs) (_reserved_areas p') = false).
Proof.
  induction l as [| [vs r] l IH]; intros p Hnd.
  - exists p. cbn. repeat split; auto. intros vs r [].
  - rewrite for_all_cons. unfold release_reserved at 1.
    unfold bind, gets. cbv beta iota.
    destruct (dmem (vs_vehicle_id vs) (_reserved_areas p)) eqn:Hm.
    + unfold modify.
      set (p1 := set__reserved_areas
                   (ddel (vs_vehicle_id vs) (_reserved_areas p)) p).
      assert (Hnd1 : NoDup (dkeys (_reserved_areas p1)))
        by (apply nodup_ddel; exact Hnd).
      destruct (IH p1 Hnd1) as (p' & E & Ho & Hnd' & Hsub & Hrel).
      exists p'. rewrite E. repeat split; auto.
      * intros id Hid. apply Hsub in Hid. unfold p1 in Hid. cbn in Hid.
        apply dmem_in in Hid. apply in_dkeys_ddel in Hid.
        apply dmem_in. exact Hid.
      * intros vs' r' [Heq | Hin]; [| eapply Hrel; exact Hin].
        injection Heq as <- <-.
        destruct (dmem (vs_vehicle_id vs) (_reserved_areas p')) eqn:Hp';
          [| reflexivity].
        apply Hsub in Hp'. unfold p1, dmem in Hp'. cbn in Hp'.
        rewrite dget_ddel_same in Hp' by exact Hnd. discriminate.
    + unfold ret. destruct (IH p Hnd) as (p' & E & Ho & Hnd' & Hsub & Hrel).
      exists p'. rewrite E. repeat split; auto.
      intros vs' r' [Heq | Hin]; [| eapply Hrel; exact Hin].
      injection Heq as <- <-.
      destruct (dmem (vs_vehicle_id vs) (_reserved_areas p')) eqn:Hp';
        [| reflexivity].
      apply Hsub in Hp'. congruence.
Qed.

Lemma foreign_released_frame (p p' : Provider) :
  foreign p' = foreign p -> foreign_released p -> foreign_released p'.
Proof.
  unfold foreign_released. intros H Hp.
  pose proof (f_equal fst H) as Ho. pose proof (f_equal snd H) as Hr.
  cbn [foreign fst snd] in Ho, Hr. rewrite Ho, Hr. exact Hp.
Qed.


End Foreign.


(* ------------------------------------------------------------------ *)
(** ** Endless traffic *)

Section Endless.
Context {host : Host}.

Lemma wp_on_actor {A} (key : string) (m : M Env A)
    (Q : A -> Provider -> Prop) (E : exn -> Provider -> Prop) (p : Provider) :
  match dget key (_my_actors p) with
  | None => E KeyError p
  | Some a =>
      wp m
         (fun x e => Q x (set__my_actors
                            (dset key (self e) (_my_actors (owner e))) (owner e)))
         (fun err e => E err (set__my_actors
                                (dset key (self e) (_my_actors (owner e)))
                                (owner e)))
         (mkEnv a p)
  end ->
  wp (on_actor key m) Q E p.
Proof.
  unfold wp, on_actor. destruct (dget key (_my_actors p)) as [a |]; [| auto].
  destruct (m (mkEnv a p)) as [[x | err] e]; auto.
Qed.

Lemma in_owner_done_part {A} (m : M Provider A) :
  preserves actors_part m -> preserves done_part (in_owner m).
Proof.
  intros H [a p]. unfold in_owner, zoom, done_part. cbn.
  specialize (H p). destruct (m p) as [r p']. cbn in *. rewrite H. reflexivity.
Qed.

Lemma py_random_actors : preserves actors_part py_random.
Proof.
  intros p. unfold py_random. destruct (random_random (_rng p)). reflexivity.
Qed.

Lemma logger_emit_actors lvl about : preserves actors_part (logger_emit lvl about).
Proof. intros p. reflexivity. Qed.

Ltac dframe :=
  repeat first
    [ frame_step
    | apply in_owner_done_part;
      first [ apply py_random_actors | apply logger_emit_actors ] ].

Lemma resolve_flow_pos_done fl depart dims :
  preserves done_part (_resolve_flow_pos fl depart dims).
Proof. unfold _resolve_flow_pos. dframe. Qed.

Lemma resolve_flow_speed_done fl : preserves done_part (_resolve_flow_speed fl).
Proof. unfold _resolve_flow_speed. dframe. Qed.

Lemma reroute_done : preserves done_part _reroute.
Proof.
  unfold _reroute.
  dframe; first [ apply resolve_flow_pos_done | apply resolve_flow_speed_done ].
Qed.

Lemma relocalize_step_done nld best_d :
  preserves done_part (relocalize_step nld best_d).
Proof. unfold relocalize_step. dframe. Qed.

Lemma commit_next_state_done : preserves done_part commit_next_state.
Proof. unfold commit_next_state. dframe. Qed.

Ltac dsolve :=
  unfold done_part, actors_part in *; rec_simpl; cbn [self owner] in *;
  repeat match goal with
         | H : (_, _) = (_, _) |- _ => rec_simpl_in H; inversion H; clear H
         end;
  try congruence.

(** With endless traffic, [step] never marks the actor as finished. *)
Lemma step_endless dt (s : Env) :
  _endless_traffic (owner s) = true ->
  wp (step dt) (fun _ s' => done_part s' = done_part s)
               (fun _ s' => done_part s' = done_part s) s.
Proof.
  intros Hend. unfold step.
  wp_step. apply (wp_frame done_part);
    [apply commit_next_state_done | | intros; assumption].
  intros [] s1 E1.
  wp_auto; try (dsolve; fail).
  all: apply (wp_frame done_part);
    [ apply preserves_for_fold; intros; apply relocalize_step_done
    | | intros ? s2 E2; dsolve; fail ].
  all: intros bd s2 E2.
  all: wp_auto; try (dsolve; fail).
  all: apply (wp_frame done_part);
    [ apply reroute_done | intros ? s3 E3; dsolve | intros ? s3 E3; dsolve ].
Qed.

Lemma in_dvalues_dset {V} (k : string) (v x : V) (d : dict string V) :
  In x (dvalues (dset k v d)) -> x = v \/ In x (dvalues d).
Proof.
  unfold dvalues. induction d as [| [k0 v0] d IH]; cbn.
  - intros [H | []]; auto.
  - destruct (key_eqb k k0); cbn; intros [H | H]; auto.
    apply IH in H. tauto.
Qed.

Lemma dget_in_dvalues {V} (k : string) (v : V) (d : dict string V) :
  dget k d = Some v -> In v (dvalues d).
Proof.
  unfold dvalues. induction d as [| [k0 v0] d IH]; cbn; [discriminate |].
  destruct (key_eqb k k0); intros H; [injection H as ->; auto | auto].
Qed.

Lemma endless_inv_frame K (p p' : Provider) :
  actors_part p' = actors_part p -> endless_inv K p -> endless_inv K p'.
Proof.
  unfold actors_part, endless_inv, none_finished. intros H.
  pose proof (f_equal fst H) as Ha. pose proof (f_equal snd H) as He.
  cbn [fst snd] in Ha, He. rewrite Ha, He. auto.
Qed.

(** Storing an unfinished actor keeps the invariant. *)
Lemma endless_inv_store K (p p' : Provider) (key : string) (a : Actor) :
  endless_inv K p ->
  _endless_traffic p' = _endless_traffic p ->
  _my_actors p' = dset key a (_my_actors p) ->
  _done_with_route a = false ->
  endless_inv K p'.
Proof.
  intros (He & Hn & Hk) He' Ha Hd. unfold endless_inv, none_finished.
  rewrite He', Ha. split; [exact He |]. split.
  - intros x Hx. apply in_dvalues_dset in Hx. destruct Hx as [-> | Hx]; auto.
  - intros id Hid. rewrite dmem_dset. rewrite (Hk id Hid). apply orb_true_r.
Qed.

Lemma on_actor_step_endless K dt key (p : Provider) :
  endless_inv K p ->
  wp (on_actor key (step dt)) (fun _ p' => endless_inv K p')
     (fun _ p' => endless_inv K p') p.
Proof.
  intros HJ. apply wp_on_actor.
  destruct (dget key (_my_actors p)) as [a |] eqn:Hg; [| exact HJ].
  pose proof HJ as (He & Hn & Hk).
  eapply wp_conseq; [apply (step_endless dt (mkEnv a p)); exact He | |];
    cbv beta; intros ? e Hd;
    unfold done_part, actors_part in Hd; cbn [self owner] in Hd;
    inversion Hd as [[H1 H2 H3]];
    apply (endless_inv_store K p _ key (self e)); auto;
    [ cbn; rewrite H2; reflexivity
    | rewrite H1; apply Hn; eapply dget_in_dvalues; exact Hg
    | cbn; rewrite H2; reflexivity
    | rewrite H1; apply Hn; eapply dget_in_dvalues; exact Hg ].
Qed.

Lemma on_actor_finished_endless K key (p : Provider) :
  endless_inv K p ->
  wp (on_actor key (self_get finished_route))
     (fun fin p' => fin = false /\ endless_inv K p')
     (fun _ p' => endless_inv K p') p.
Proof.
  intros HJ. apply wp_on_actor.
  destruct (dget key (_my_actors p)) as [a |] eqn:Hg; [| exact HJ].
  pose proof HJ as (He & Hn & Hk).
  wp_step. cbn [self owner].
  assert (Hd : _done_with_route a = false)
    by (apply Hn; eapply dget_in_dvalues; exact Hg).
  split; [exact Hd |].
  apply (endless_inv_store K p _ key a); auto.
Qed.

(** With endless traffic the commit pass finds no finished actor. *)
Lemma commit_all_endless K dt (p : Provider) :
  endless_inv K p ->
  wp (commit_all dt) (fun dones p' => dones = [] /\ endless_inv K p')
     (fun _ _ => True) p.
Proof.
  intros HJ. unfold commit_all. wp_step. wp_step.
  apply (wp_for_fold (fun dones p' => dones = [] /\ endless_inv K p'));
    [split; [reflexivity | exact HJ] |].
  intros key dones p0 _ [-> HJ0].
  wp_step. eapply wp_conseq; [apply on_actor_step_endless; exact HJ0 | | auto].
  cbv beta. intros _ p1 HJ1.
  wp_step. eapply wp_conseq; [apply on_actor_finished_endless; exact HJ1 | | auto].
  cbv beta. intros fin p2 [-> HJ2].
  wp_step. cbn [snd]. auto.
Qed.

Lemma map_eq_in {X Y} (f : X -> Y) (l l' : list X) (x : X) :
  map f l' = map f l -> In x l' -> exists y, In y l /\ f x = f y.
Proof.
  revert l. induction l' as [| x' l' IH]; intros [| y l] H; try discriminate.
  - intros [].
  - cbn in H. injection H as Hxy Hl. intros [<- | Hin].
    + exists y. split; [left; reflexivity | exact Hxy].
    + destruct (IH l Hl Hin) as (z & Hz & Hf). exists z. split; [right |]; auto.
Qed.

Lemma endless_inv_view K (p p' : Provider) :
  committed_view p' = committed_view p -> endless_inv K p -> endless_inv K p'.
Proof.
  intros H (He & Hn & Hk). unfold committed_view in H.
  pose proof (f_equal fst H) as Hm. pose proof (f_equal snd H) as Hr.
  cbn [fst snd] in Hm, Hr. inversion Hr as [[E1 E2 E3 E4 E5 E6 E7 E8]].
  clear H Hr. split; [congruence |]. split.
  - intros a Ha. unfold dvalues in Ha. apply in_map_iff in Ha.
    destruct Ha as ([k a'] & <- & Hin). cbn [snd].
    destruct (map_eq_in (fun kv : string * Actor => (fst kv, committed (snd kv)))
                _ _ (k, a') Hm Hin) as ([k0 a0] & Hin0 & Hc).
    cbn [fst snd] in Hc. unfold committed in Hc. inversion Hc.
    transitivity (_done_with_route a0); [congruence |].
    apply Hn. unfold dvalues. apply in_map_iff. exists (k0, a0). auto.
  - intros id Hid. specialize (Hk id Hid). apply dmem_in. apply dmem_in in Hk.
    unfold dkeys in *.
    assert (Hkeys : map fst (_my_actors p') = map fst (_my_actors p)).
    { pose proof (f_equal (map fst) Hm) as Hf. rewrite !map_map in Hf.
      cbn [fst] in Hf. exact Hf. }
    rewrite Hkeys. exact Hk.
Qed.

Lemma decide_all_endless K dt (p : Provider) :
  endless_inv K p ->
  wp (decide_all dt) (fun _ p' => endless_inv K p') (fun _ p' => endless_inv K p') p.
Proof.
  intros HJ.
  assert (Hv : committed_view (snd (decide_all dt p)) = committed_view p).
  { unfold decide_all, bind, gets. cbn.
    apply (decide_loop dt p (dkeys (_my_actors p)) p eq_refl). }
  unfold wp. destruct (decide_all dt p) as [[x | e] p']; cbn [snd] in Hv;
    eapply endless_inv_view; eauto.
Qed.

Lemma init_not_done (flow : Flow) (p : Provider) :
  wp (__init__ flow) (fun a _ => _done_with_route a = false) (fun _ _ => True) p.
Proof.
  unfold __init__, self__log.
  wp_step. apply wp_py_gauss. intros g p1.
  wp_auto; try exact I; reflexivity.
Qed.

Lemma from_flow_not_done (flow : Flow) (p : Provider) :
  wp (from_flow flow) (fun a _ => _done_with_route a = false) (fun _ _ => True) p.
Proof.
  unfold from_flow.
  wp_step. wp_step. destruct (vt_vClass (fl_vtype flow)); [| exact I].
  wp_step. wp_step. destruct (VEHICLE_CONFIGS _); [| exact I].
  wp_step. eapply wp_conseq; [apply init_not_done | | auto].
  cbv beta. intros a p1 Ha.
  wp_step. apply wp_with_self.
  apply (wp_frame done_part).
  - dframe; first [ apply resolve_flow_pos_done | apply resolve_flow_speed_done ].
  - intros x e He. wp_step. cbn [snd]. unfold done_part in He. cbn in He.
    inversion He. congruence.
  - intros; exact I.
Qed.

Lemma add_actor_in_flow_endless K flow (p : Provider) :
  endless_inv K p ->
  wp (_add_actor_in_flow flow) (fun _ p' => endless_inv K p')
     (fun _ _ => True) p.
Proof.
  intros HJ. unfold _add_actor_in_flow. apply wp_bind.
  pose proof (from_flow_counts flow p) as Hc.
  pose proof (from_flow_not_done flow p) as Hd.
  unfold wp at 1. unfold wp in Hc, Hd.
  destruct (from_flow flow p) as [[a | e] p1]; [| exact I].
  destruct Hc as [Hf _].
  assert (Hp : actors_part p1 = actors_part p).
  { unfold emission_frame in Hf. unfold actors_part. inversion Hf. congruence. }
  assert (HJ1 : endless_inv K p1) by (eapply endless_inv_frame; eauto).
  wp_auto; try exact I; try exact HJ1.
  unfold logger_emit. wp_step. wp_step.
  match goal with
  | |- endless_inv K (set__log _ (set__my_actors (dset ?id a _) p1)) =>
      apply (endless_inv_store K p1 _ id a); auto
  end.
Qed.

Lemma add_actors_for_time_endless K t (p : Provider) :
  endless_inv K p ->
  wp (_add_actors_for_time t) (fun _ p' => endless_inv K p') (fun _ _ => True) p.
Proof.
  intros HJ. unfold _add_actors_for_time. wp_step. wp_step.
  apply (wp_for_all (fun p' => endless_inv K p')); [exact HJ |].
  intros key p0 _ HJ0. unfold add_actors_for_flow.
  wp_auto; try exact I; try exact HJ0.
  eapply wp_conseq; [apply add_actor_in_flow_endless; exact HJ0 | | auto].
  cbv beta. intros added p1 HJ1.
  destruct added; wp_step; [| exact HJ1].
  eapply endless_inv_frame; [| exact HJ1]. reflexivity.
Qed.


End Endless.


(* ------------------------------------------------------------------ *)
(** ** Which vehicles a lane window accounts for *)

Section Unseen.
Context {host : Host}.

Lemma for_fold_cons {S X L} (x : X) (xs : list X) (acc : L)
    (body : X -> L -> M S (loop_ctl * L)) (s : S) :
  for_fold (x :: xs) acc body s
  = match body x acc s with
    | (Returns (Continue, acc'), s') => for_fold xs acc' body s'
    | (Returns (Break, acc'), s') => (Returns acc', s')
    | (Raises e, s') => (Raises e, s')
    end.
Proof.
  cbn [for_fold]. unfold bind.
  destruct (body x acc s) as [[[[|] acc'] | e] s']; reflexivity.
Qed.

Lemma find_ov_route_len_none (rinds : list Z) :
  find_ov_route_len rinds None = None.
Proof. induction rinds as [| r rinds IH]; cbn; auto. Qed.

(** The loop passes over an unseen vehicle without any effect. *)
Lemma lane_window_step_unseen lane lens mo pl mfo mbo ovs acc (s : Env) :
  unseen_from lane lens s ovs = true ->
  lane_window_step lane lens mo pl mfo mbo ovs acc s = (Returns (Continue, acc), s).
Proof.
  unfold unseen_from. intros H.
  destruct (_state (self s)) as [st |] eqn:Hst; [| discriminate].
  destruct (dget (vs_vehicle_id ovs) (_nearest_lanes_cache (owner s)))
    as [[ovl |] |] eqn:Hc; try discriminate.
  apply andb_true_iff in H. destruct H as [H H3].
  apply andb_true_iff in H. destruct H as [H1 H2].
  apply negb_true_iff in H1. apply negb_true_iff in H2.
  destruct (dget (lane_id (composite_lane ovl), _route_ind (self s)) lens)
    eqn:Hk; [discriminate |].
  destruct (wp_returns (lane_window_step lane lens mo pl mfo mbo ovs acc)
              (fun r s' => r = (Continue, acc) /\ s' = s) s)
    as (r & s' & E & -> & ->); [| exact E].
  unfold lane_window_step. destruct acc as [[[ttc ttre] gap] ag].
  wp_step. wp_step. rewrite Hst. rewrite H1.
  wp_step. wp_step. wp_step. wp_step. rewrite Hc.
  wp_step. unfold ov_offset_on. rewrite H2.
  wp_step. wp_step. wp_step. wp_step.
  rewrite Hk, find_ov_route_len_none.
  wp_step. wp_step. auto.
Qed.

Lemma unseen_from_frame lane lens (s s' : Env) (ovs : VehicleState) :
  env_frame s' = env_frame s ->
  unseen_from lane lens s' ovs = unseen_from lane lens s ovs.
Proof.
  intros H. unfold env_frame, committed, provider_frame in H.
  inversion H as [[Hst Hl Ho Hri Hd Hor Hr Hrid Hdl Hdo Hfl Hvt
                   He Hfs Hma Hov Hra Hrl Hac Hnc Hlog]].
  unfold unseen_from. rewrite Hst, Hri, Hnc. reflexivity.
Qed.

Lemma lane_window_loop_unseen lane lens mo pl mfo mbo (s0 : Env)
    (all : list VehicleState) :
  forall acc s, env_frame s = env_frame s0 ->
    for_fold all acc (lane_window_step lane lens mo pl mfo mbo) s
    = for_fold (filter (fun ovs => negb (unseen_from lane lens s0 ovs)) all)
        acc (lane_window_step lane lens mo pl mfo mbo) s.
Proof.
  induction all as [| ovs all IH]; intros acc s Hs; [reflexivity |].
  cbn [filter]. destruct (unseen_from lane lens s0 ovs) eqn:Hu; cbn [negb].
  - rewrite for_fold_cons, lane_window_step_unseen
      by (rewrite (unseen_from_frame lane lens s0 s ovs Hs); exact Hu).
    apply IH. exact Hs.
  - rewrite !for_fold_cons.
    pose proof (lane_window_step_frame lane lens mo pl mfo mbo ovs acc s) as Hf.
    destruct (lane_window_step lane lens mo pl mfo mbo ovs acc s)
      as [[[[|] acc'] | e] s']; try reflexivity.
    apply IH. cbn [snd] in Hf. congruence.
Qed.

(** X15. Vehicles further along the route are not seen.  In the loop of
    [_compute_lane_window] over the other vehicles, a vehicle whose lane is
    not the lane under examination is looked up in the route table with
    the actor's current route index for every [rind] of the inner loop, so
    a vehicle whose lane has no entry at the current index is passed over
    whatever entries its lane has at later indices: the loop over all
    vehicles computes what the loop without these vehicles computes. *)
Theorem lane_window_ignores_unseen lane lens mo pl mfo mbo
    (all : list VehicleState) (acc : win_acc) (s : Env) :
  for_fold all acc (lane_window_step lane lens mo pl mfo mbo) s
  = for_fold (filter (fun ovs => negb (unseen_from lane lens s ovs)) all)
      acc (lane_window_step lane lens mo pl mfo mbo) s.
Proof. apply lane_window_loop_unseen. reflexivity. Qed.

End Unseen.

(* ------------------------------------------------------------------ *)
(** ** The lane-offset memo *)

Section Memo.
Context {host : Host}.

Lemma dset_get_same {V} (k : string) (v : V) (d : dict string V) :
  dget k d = Some v -> dset k v d = d.
Proof.
  induction d as [| [k0 v0] d IH]; cbn; [discriminate |].
  destruct (key_eqb k k0) eqn:E; intros H.
  - injection H as ->. reflexivity.
  - rewrite IH by exact H. reflexivity.
Qed.

Lemma setdefault_hit {V} (k : string) (v v0 : V) (d : dict string V) :
  dget k d = Some v0 -> setdefault k v d = (v0, d).
Proof. intros H. unfold setdefault. rewrite H. reflexivity. Qed.

Lemma setdefault_stores {V} (k : string) (v : V) (d : dict string V) :
  dget k (snd (setdefault k v d)) = Some (fst (setdefault k v d)).
Proof.
  unfold setdefault. destruct (dget k d) eqn:E; cbn [fst snd].
  - exact E.
  - apply dget_dset_same.
Qed.

(** X16. The lane-offset memo answers by vehicle id and lane id alone.
    [_cached_lane_offset] always returns, changes nothing but
    [_offsets_cache], and after a call for a vehicle and a lane every call
    for a vehicle state with the same id and a lane with the same id
    returns the value of the first call and changes nothing, wherever the
    vehicle of the later call is. *)
Theorem cached_lane_offset_memo (vs vs' : VehicleState) (lane lane' : Lane)
    (p : Provider) :
  vs_vehicle_id vs' = vs_vehicle_id vs ->
  lane_id lane' = lane_id lane ->
  exists v c,
    _cached_lane_offset vs lane p = (Returns v, set__offsets_cache c p) /\
    _cached_lane_offset vs' lane' (set__offsets_cache c p)
    = (Returns v, set__offsets_cache c p).
Proof.
  intros Hid Hlid. unfold _cached_lane_offset, bind, gets, modify, ret.
  rewrite Hid, Hlid. cbv beta. rec_simpl.
  set (id := vs_vehicle_id vs). set (lid := lane_id lane).
  set (c0 := _offsets_cache p).
  pose proof (setdefault_stores id [] c0) as H1.
  destruct (setdefault id [] c0) as [lo c1] eqn:E1. cbn [fst snd] in H1.
  pose proof (setdefault_stores lid
                (offset_along_lane lane (pose_point (vs_pose vs))) lo) as H2.
  destruct (setdefault lid (offset_along_lane lane (pose_point (vs_pose vs))) lo)
    as [v lo1] eqn:E2. cbn [fst snd] in H2.
  exists v, (dset id lo1 c1). split; [reflexivity |].
  rewrite (setdefault_hit id [] lo1 (dset id lo1 c1)) by apply dget_dset_same.
  rewrite (setdefault_hit lid _ v lo1) by exact H2.
  rewrite (dset_get_same id lo1 (dset id lo1 c1)) by apply dget_dset_same.
  destruct p. reflexivity.
Qed.

End Memo.

Lemma cached_lane_offset_memo_witness :
  exists v c,
    @_cached_lane_offset toy_host (toy_state "car-1" 10 5) 0%Z toy_provider
    = (Returns v, set__offsets_cache c toy_provider) /\
    @_cached_lane_offset toy_host (toy_state "car-1" 70 5) 0%Z
      (set__offsets_cache c toy_provider)
    = (Returns v, set__offsets_cache c toy_provider).
Proof.
  apply (@cached_lane_offset_memo toy_host (toy_state "car-1" 10 5)
           (toy_state "car-1" 70 5) 0%Z 0%Z toy_provider); reflexivity.
Defined.

(* ------------------------------------------------------------------ *)
(** ** Routes of foreign vehicles *)

Section ForeignRoutes.
Context {host : Host}.
Variable py_hash : list string -> Z.
Variable composite_road : Road -> Road.

Lemma last_cons {X} (x d : X) (l : list X) : last (x :: l) d = last l x.
Proof.
  revert x d. induction l as [| y l IH]; intros x d; [reflexivity |].
  change (last (x :: y :: l) d) with (last (y :: l) d).
  rewrite IH. symmetry. apply IH.
Qed.

Lemma last_map_some {X} (l : list X) (d : X) :
  last (map Some l) (Some d) = Some (last l d).
Proof.
  revert d. induction l as [| y l IH]; intros d; [reflexivity |].
  cbn [map]. rewrite !last_cons. apply IH.
Qed.

(** The last road of a route, [None] for an empty one. *)
Lemma dest_of_route_cases (r : list string) :
  match r with
  | r0 :: rs => Some (last rs r0)
  | [] => None
  end = last (map Some r) None.
Proof.
  destruct r as [| r0 rs]; [reflexivity |].
  cbn [map]. rewrite last_cons, last_map_some. reflexivity.
Qed.

(** X17. Routes of foreign vehicles: store and look up.  For a vehicle id
    that is not managed, [update_route_for_vehicle] raises
    [AssertionError] and changes nothing when the id is not a foreign
    vehicle's either, and so does [vehicle_dest_road]; for a foreign
    vehicle it stores the route beside the vehicle state, after which
    [vehicle_dest_road] answers the last road of that route ([None] for an
    empty route) and answers for every other id what it answered before. *)
Theorem foreign_route_round_trip (vehicle_id : string) (roads : list string)
    (p : Provider) :
  dget vehicle_id (_my_actors p) = None ->
  match dget vehicle_id (_other_vehicles p) with
  | None =>
      update_route_for_vehicle py_hash composite_road vehicle_id roads p
      = (Raises AssertionError, p) /\
      vehicle_dest_road vehicle_id p = Raises AssertionError
  | Some (vs, _) =>
      exists p',
        update_route_for_vehicle py_hash composite_road vehicle_id roads p
        = (Returns tt, p') /\
        p' = set__other_vehicles
               (dset vehicle_id (vs, Some roads) (_other_vehicles p)) p /\
        vehicle_dest_road vehicle_id p' = Returns (last (map Some roads) None) /\
        forall id, id <> vehicle_id ->
                   vehicle_dest_road id p' = vehicle_dest_road id p
  end.
Proof.
  intros Hm.
  unfold update_route_for_vehicle, vehicle_dest_road, bind, gets, modify, raise.
  rewrite Hm.
  destruct (dget vehicle_id (_other_vehicles p)) as [[vs old] |] eqn:Ho.
  - eexists. split; [reflexivity |]. split; [reflexivity |].
    rec_simpl. cbn [fst]. split.
    + rewrite Hm, dget_dset_same. cbn [snd].
      rewrite <- dest_of_route_cases. destruct roads; reflexivity.
    + intros id Hid.
      rewrite (dget_dset_other vehicle_id id) by congruence. reflexivity.
  - split; reflexivity.
Qed.

End ForeignRoutes.

Lemma foreign_route_round_trip_witness :
  let p := @set__other_vehicles toy_host
             [("ego-1"%string, (toy_state "ego-1" 50 5, None))] toy_provider in
  exists p',
    @update_route_for_vehicle toy_host (fun _ => 1%Z) (fun r => r)
      "ego-1" ["E1"; "E2"]%string p = (Returns tt, p') /\
    p' = set__other_vehicles
           (dset "ego-1"%string (toy_state "ego-1" 50 5, Some ["E1"; "E2"]%string)
              (_other_vehicles p)) p /\
    vehicle_dest_road "ego-1" p' = Returns (Some "E2"%string) /\
    forall id, id <> "ego-1"%string ->
               vehicle_dest_road id p' = vehicle_dest_road id p.
Proof.
  intros p.
  exact (@foreign_route_round_trip toy_host (fun _ => 1%Z) (fun r => r)
           "ego-1" ["E1"; "E2"]%string p eq_refl).
Defined.

(* ------------------------------------------------------------------ *)
(** ** Synchronisation with the simulation *)

Section Sync.
Context {host : Host}.

Lemma existsb_eqb_in (k : string) (l : list string) :
  existsb (String.eqb k) l = true <-> In k l.
Proof.
  rewrite existsb_exists. split.
  - intros (x & Hx & E). apply String.eqb_eq in E. subst x. exact Hx.
  - intros H. exists k. split; [exact H | apply String.eqb_refl].
Qed.

Lemma NoDup_filter {X} (f : X -> bool) (l : list X) :
  NoDup l -> NoDup (filter f l).
Proof.
  induction 1 as [| x l Hx Hl IH]; cbn; [constructor |].
  destruct (f x); [| exact IH].
  constructor; [| exact IH]. intros H. apply filter_In in H. tauto.
Qed.

(** A loop that deletes the keys [l] from [_my_actors]. *)
Lemma delete_loop (body : string -> M Provider unit) :
  (forall k p, dmem k (_my_actors p) = true ->
     exists p', body k p = (Returns tt, p') /\
                _my_actors p' = ddel k (_my_actors p)) ->
  forall l p,
    NoDup l -> NoDup (dkeys (_my_actors p)) ->
    (forall k, In k l -> dmem k (_my_actors p) = true) ->
    exists p',
      for_all l body p = (Returns tt, p') /\
      NoDup (dkeys (_my_actors p')) /\
      forall id, dget id (_my_actors p')
                 = if in_dec string_dec id l then None
                   else dget id (_my_actors p).
Proof.
  intros Hbody. induction l as [| k l IH]; intros p Hl Hnd Hin.
  - exists p. repeat split; auto.
  - inversion Hl as [| ? ? Hk Hl']. subst.
    destruct (Hbody k p (Hin k (or_introl eq_refl))) as (p1 & E1 & Hm1).
    assert (Hnd1 : NoDup (dkeys (_my_actors p1)))
      by (rewrite Hm1; apply nodup_ddel; exact Hnd).
    assert (Hin1 : forall k', In k' l -> dmem k' (_my_actors p1) = true).
    { intros k' Hk'. unfold dmem. rewrite Hm1.
      rewrite dget_ddel_other by (intros ->; contradiction).
      apply (Hin k'). right. exact Hk'. }
    destruct (IH p1 Hl' Hnd1 Hin1) as (p' & E & Hnd' & Hget).
    exists p'. rewrite for_all_cons, E1. split; [exact E |].
    split; [exact Hnd' |]. intros id. rewrite Hget.
    destruct (in_dec string_dec id l) as [Hi | Hi];
      destruct (in_dec string_dec id (k :: l)) as [Hi' | Hi']; auto.
    + exfalso. apply Hi'. right. exact Hi.
    + rewrite Hm1. destruct Hi' as [<- | Hi']; [| contradiction].
      apply dget_ddel_same. exact Hnd.
    + rewrite Hm1. apply dget_ddel_other. intros ->. apply Hi'. left. reflexivity.
Qed.

Lemma sync_drop_deletes (k : string) (p : Provider) :
  dmem k (_my_actors p) = true ->
  exists p', sync_drop k p = (Returns tt, p') /\
             _my_actors p' = ddel k (_my_actors p).
Proof.
  intros H.
  destruct (wp_returns (sync_drop k)
              (fun _ p' => _my_actors p' = ddel k (_my_actors p)) p)
    as ([] & p' & E & Hm); [| exists p'; auto].
  unfold sync_drop, logger_emit, py_del.
  wp_step. wp_step. wp_step. wp_step. wp_step. wp_step. rewrite H.
  wp_step. reflexivity.
Qed.

Lemma stop_managing_deletes (k : string) (p : Provider) :
  dmem k (_my_actors p) = true ->
  exists p', stop_managing k p = (Returns tt, p') /\
             _my_actors p' = ddel k (_my_actors p).
Proof.
  intros H.
  destruct (wp_returns (stop_managing k)
              (fun _ p' => _my_actors p' = ddel k (_my_actors p)) p)
    as ([] & p' & E & Hm); [| exists p'; auto].
  unfold stop_managing, py_del.
  wp_step. wp_step. wp_step. wp_step. rewrite H.
  wp_step. wp_step. wp_step. reflexivity.
Qed.

Lemma dmem_of_dkeys {V W} (k : string) (d : dict string V) (d' : dict string W) :
  dkeys d = dkeys d' -> dmem k d = dmem k d'.
Proof.
  intros H. destruct (dmem k d') eqn:E.
  - apply dmem_in. rewrite H. apply dmem_in. exact E.
  - destruct (dmem k d) eqn:E'; [| reflexivity].
    apply dmem_in in E'. rewrite H in E'. apply dmem_in in E'. congruence.
Qed.

Lemma sync_vehicles_loop (M0 : dict string Actor) (rest : list VehicleState) :
  forall done p,
    sync_inv M0 done p ->
    (forall vs, In vs rest -> dmem (vs_vehicle_id vs) M0 = true ->
                is_own vs = true) ->
    wp (for_all rest sync_vehicle)
       (fun _ p' => sync_inv M0 (done ++ rest) p')
       (fun e _ => e = AssertionError /\
                   exists vs, In vs rest /\ is_own vs = true /\
                              dmem (vs_vehicle_id vs) M0 = false) p.
Proof.
  induction rest as [| vs rest IH]; intros done p Hinv Hown.
  - cbn. rewrite app_nil_r. exact Hinv.
  - destruct Hinv as (Hk & Hma & Hom & Hoe).
    cbn [for_all]. wp_step. unfold sync_vehicle at 1.
    set (id := vs_vehicle_id vs).
    assert (Hmem : dmem id (_my_actors p) = dmem id M0)
      by (apply dmem_of_dkeys; exact Hk).
    wp_step. wp_step.
    assert (Hnext : forall p1, sync_inv M0 (done ++ [vs]) p1 ->
              wp (for_all rest sync_vehicle)
                 (fun _ p' => sync_inv M0 (done ++ vs :: rest) p')
                 (fun e _ => e = AssertionError /\
                    exists vs0, In vs0 (vs :: rest) /\ is_own vs0 = true /\
                                dmem (vs_vehicle_id vs0) M0 = false) p1).
    { intros p1 H1. eapply wp_conseq.
      - apply (IH (done ++ [vs]) p1 H1).
        intros v Hv. apply Hown. right. exact Hv.
      - cbv beta. intros _ p' H'. rewrite <- app_assoc in H'. exact H'.
      - cbv beta. intros e _ (He & v & Hv & Ho & Hd).
        split; [exact He |]. exists v. split; [right; exact Hv | auto]. }
    destruct (dget id (_my_actors p)) as [a |] eqn:Hg.
    + assert (Hd : dmem id M0 = true)
        by (rewrite <- Hmem; unfold dmem; rewrite Hg; reflexivity).
      assert (Ho : is_own vs = true)
        by (apply Hown; [left; reflexivity | exact Hd]).
      wp_step. wp_step. unfold is_own in Ho. rewrite Ho.
      wp_step. apply Hnext. unfold sync_inv. rec_simpl.
      split; [| split; [| split]].
      * rewrite dkeys_dset. unfold dmem. rewrite Hg. exact Hk.
      * intros id' a'. destruct (string_dec id id') as [<- | Hne].
        -- rewrite dget_dset_same. intros E. injection E as <-.
           left. exists vs. split; [apply in_or_app; right; left; reflexivity |].
           split; reflexivity.
        -- rewrite dget_dset_other by exact Hne. intros E.
           destruct (Hma id' a' E) as [(v & Hv & Hi & Hs) | [Hno Hm0]].
           ++ left. exists v. split; [apply in_or_app; left; exact Hv | auto].
           ++ right. split; [| exact Hm0]. intros v Hv.
              apply in_app_or in Hv. destruct Hv as [Hv | [<- | []]]; auto.
      * intros id'. rewrite Hom. split; intros (v & Hv & Hi & Hf).
        -- exists v. split; [apply in_or_app; left; exact Hv | auto].
        -- apply in_app_or in Hv. destruct Hv as [Hv | [<- | []]].
           ++ exists v. auto.
           ++ unfold is_own in Hf. congruence.
      * intros id' v r E. destruct (Hoe id' v r E) as (H1 & H2 & H3 & H4).
        split; [exact H1 |]. split; [apply in_or_app; left; exact H2 | auto].
    + assert (Hd : dmem id M0 = false)
        by (rewrite <- Hmem; unfold dmem; rewrite Hg; reflexivity).
      wp_step. wp_step. fold (is_own vs).
      destruct (is_own vs) eqn:Ho; cbn [negb].
      { split; [reflexivity |]. exists vs. split; [left; reflexivity | auto]. }
      wp_step. apply Hnext. unfold sync_inv. rec_simpl.
      split; [| split; [| split]].
      * exact Hk.
      * intros id' a' E.
        assert (Hne : id <> id') by (intros <-; congruence).
        destruct (Hma id' a' E) as [(v & Hv & Hi & Hs) | [Hno Hm0]].
        -- left. exists v. split; [apply in_or_app; left; exact Hv | auto].
        -- right. split; [| exact Hm0]. intros v Hv.
           apply in_app_or in Hv. destruct Hv as [Hv | [<- | []]]; auto.
      * intros id'. rewrite dmem_dset. split.
        -- intros H. apply orb_true_iff in H. destruct H as [H | H].
           ++ apply String.eqb_eq in H. subst id'. exists vs.
              split; [apply in_or_app; right; left; reflexivity | auto].
           ++ apply Hom in H. destruct H as (v & Hv & Hi & Hf).
              exists v. split; [apply in_or_app; left; exact Hv | auto].
        -- intros (v & Hv & Hi & Hf). apply orb_true_iff.
           apply in_app_or in Hv. destruct Hv as [Hv | [<- | []]].
           ++ right. apply Hom. exists v. auto.
           ++ left. apply String.eqb_eq. exact Hi.
      * intros id' v r. destruct (string_dec id id') as [<- | Hne].
        -- rewrite dget_dset_same. intros E. injection E as <- <-.
           split; [reflexivity |].
           split; [apply in_or_app; right; left; reflexivity | auto].
        -- rewrite dget_dset_other by exact Hne. intros E.
           destruct (Hoe id' v r E) as (H1 & H2 & H3 & H4).
           split; [exact H1 |]. split; [apply in_or_app; left; exact H2 | auto].
Qed.

Lemma in_sync_missing (vehicles : list VehicleState) (p : Provider) (id : string) :
  In id (sync_missing vehicles p) <->
  In id (dkeys (_my_actors p)) /\ ~ In id (map vs_vehicle_id vehicles).
Proof.
  unfold sync_missing. rewrite filter_In, negb_true_iff.
  pose proof (existsb_eqb_in id (map vs_vehicle_id vehicles)) as H.
  destruct (existsb (String.eqb id) (map vs_vehicle_id vehicles)).
  - split; [intros [_ E]; discriminate | intros [_ E]; exfalso; apply E, H; reflexivity].
  - split; intros [H1 _]; (split; [exact H1 |]); [| reflexivity].
    intros Hin. apply H in Hin. discriminate.
Qed.

Lemma in_sync_hijacked (vehicles : list VehicleState) (p : Provider) (id : string) :
  In id (sync_hijacked vehicles p) <->
  In id (dkeys (_my_actors p)) /\
  exists vs, In vs vehicles /\ vs_vehicle_id vs = id /\ is_own vs = false.
Proof.
  unfold sync_hijacked. rewrite filter_In, existsb_eqb_in, in_map_iff.
  split; intros [H1 (vs & H2 & H3)]; (split; [exact H1 |]); exists vs.
  - apply filter_In in H3. destruct H3 as [H3 H4].
    apply negb_true_iff in H4. auto.
  - split; [tauto |]. apply filter_In. split; [tauto |].
    apply negb_true_iff. tauto.
Qed.

Lemma ids_in (vehicles : list VehicleState) (id : string) :
  In id (map vs_vehicle_id vehicles) <->
  exists vs, In vs vehicles /\ vs_vehicle_id vs = id.
Proof.
  rewrite in_map_iff. split; intros (vs & H1 & H2); exists vs; auto.
Qed.

(** What [sync] does. *)
Lemma sync_spec (vehicles : list VehicleState) (p : Provider) :
  NoDup (dkeys (_my_actors p)) ->
  wp (sync vehicles)
     (fun _ p' => synced vehicles p p')
     (fun e _ => e = AssertionError /\ sync_conflict vehicles p) p.
Proof.
  intros Hnd. unfold sync.
  wp_step. wp_step. wp_step.
  (* the actors that have disappeared *)
  destruct (delete_loop sync_drop sync_drop_deletes (sync_missing vehicles p) p)
    as (p1 & E1 & Hnd1 & Hg1).
  { apply NoDup_filter. exact Hnd. }
  { exact Hnd. }
  { intros k Hk. apply dmem_in. apply in_sync_missing in Hk. tauto. }
  unfold wp at 1. rewrite E1.
  wp_step. wp_step. wp_step.
  (* the actors that have been taken over *)
  destruct (delete_loop stop_managing stop_managing_deletes
              (sync_hijacked vehicles p1) p1) as (p2 & E2 & Hnd2 & Hg2).
  { apply NoDup_filter. exact Hnd1. }
  { exact Hnd1. }
  { intros k Hk. apply dmem_in. apply in_sync_hijacked in Hk. tauto. }
  unfold wp at 1. rewrite E2.
  wp_step. wp_step.
  (* who is managed now *)
  assert (Hman : forall id, dmem id (_my_actors p2) = true <->
            (dmem id (_my_actors p) = true /\
             In id (map vs_vehicle_id vehicles) /\
             forall vs, In vs vehicles -> vs_vehicle_id vs = id ->
                        is_own vs = true)).
  { intros id. unfold dmem at 1. rewrite Hg2, Hg1.
    destruct (in_dec string_dec id (sync_hijacked vehicles p1)) as [Hh | Hh].
    - split; [discriminate |]. intros (Hm & Hi & Ho). exfalso.
      apply in_sync_hijacked in Hh. destruct Hh as (_ & vs & Hv & Hid & Hf).
      rewrite (Ho vs Hv Hid) in Hf. discriminate.
    - destruct (in_dec string_dec id (sync_missing vehicles p)) as [Hmi | Hmi].
      + split; [discriminate |]. intros (Hm & Hi & Ho). exfalso.
        apply in_sync_missing in Hmi. tauto.
      + fold (dmem id (_my_actors p)). split.
        * intros Hm. split; [exact Hm |].
          assert (Hi : In id (map vs_vehicle_id vehicles)).
          { destruct (in_dec string_dec id (map vs_vehicle_id vehicles))
              as [Hi | Hi]; [exact Hi |].
            exfalso. apply Hmi. apply in_sync_missing. split; [| exact Hi].
            apply dmem_in. exact Hm. }
          split; [exact Hi |]. intros vs Hv Hid.
          destruct (is_own vs) eqn:Ho; [reflexivity |]. exfalso.
          apply Hh. apply in_sync_hijacked. split.
          -- apply dmem_in. unfold dmem. rewrite Hg1.
             destruct (in_dec string_dec id (sync_missing vehicles p));
               [contradiction | exact Hm].
          -- exists vs. auto.
        * tauto. }
  (* the loop over the vehicles *)
  eapply wp_conseq.
  - apply (sync_vehicles_loop (_my_actors p2) vehicles []).
    + unfold sync_inv. rec_simpl. split; [reflexivity |].
      split; [| split].
      * intros id a E. right. split; [intros vs [] | exact E].
      * intros id. cbn. split; [discriminate | intros (vs & [] & _)].
      * intros id v r E. discriminate.
    + intros vs Hv Hm. apply Hman in Hm. apply Hm; auto.
  - cbv beta. intros _ p' (Hk & Hma & Hom & Hoe). cbn [app] in *.
    unfold synced, manages_vehicle. split; [| split; [| split]]; auto.
    + intros id. rewrite (dmem_of_dkeys id (_my_actors p') (_my_actors p2) Hk).
      apply Hman.
    + intros id a E. destruct (Hma id a E) as [H | [Hno Hm0]]; [exact H |].
      exfalso.
      assert (Hm : dmem id (_my_actors p2) = true)
        by (unfold dmem; rewrite Hm0; reflexivity).
      apply Hman in Hm. destruct Hm as (_ & Hi & _).
      apply ids_in in Hi. destruct Hi as (vs & Hv & Hid).
      exact (Hno vs Hv Hid).
  - cbv beta. intros e _ (He & vs & Hv & Ho & Hd).
    split; [exact He |]. exists vs. split; [exact Hv |]. split; [exact Ho |].
    unfold manages_vehicle.
    destruct (dmem (vs_vehicle_id vs) (_my_actors p)) eqn:Hm; [| left; reflexivity].
    right.
    destruct (in_dec string_dec (vs_vehicle_id vs)
                (sync_hijacked vehicles p1)) as [Hh | Hh].
    + apply in_sync_hijacked in Hh. destruct Hh as (_ & vs' & Hv' & Hid & Hf).
      exists vs'. auto.
    + exfalso.
      assert (Hall : forall vs', In vs' vehicles ->
                vs_vehicle_id vs' = vs_vehicle_id vs -> is_own vs' = true).
      { intros vs' Hv' Hid. destruct (is_own vs') eqn:Ho'; [reflexivity |].
        exfalso. apply Hh. apply in_sync_hijacked. split.
        - apply dmem_in. unfold dmem. rewrite Hg1.
          destruct (in_dec string_dec (vs_vehicle_id vs)
                      (sync_missing vehicles p)) as [Hmi | Hmi]; [| exact Hm].
          apply in_sync_missing in Hmi. exfalso. apply (proj2 Hmi).
          apply ids_in. exists vs. auto.
        - exists vs'. auto. }
      assert (Hm2 : dmem (vs_vehicle_id vs) (_my_actors p2) = true).
      { apply Hman. split; [exact Hm |]. split; [| exact Hall].
        apply ids_in. exists vs. auto. }
      congruence.
Qed.

(** X18. Synchronisation.  When [sync] returns, the managed actors are
    exactly those that were managed, are listed in the provider state and
    are listed there under this provider's source only; each of them has
    the state of a listed vehicle with its id; the foreign vehicles are
    exactly the listed vehicles with another source, each stored without a
    route (routes given by [update_route_for_vehicle] are forgotten).
    [sync] raises nothing but [AssertionError], and only when a vehicle
    listed with this provider's source is not managed or is listed with
    another source as well. *)
Theorem sync_synchronises (vehicles : list VehicleState) (p : Provider) :
  NoDup (dkeys (_my_actors p)) ->
  match sync vehicles p with
  | (Returns _, p') => synced vehicles p p'
  | (Raises e, _) => e = AssertionError /\ sync_conflict vehicles p
  end.
Proof. intros Hnd. exact (sync_spec vehicles p Hnd). Qed.

End Sync.

Lemma sync_synchronises_witness :
  let car := toy_actor (toy_state "car-1" 10 5) (toy_window 0 60 50)
               (toy_window 0 60 50) in
  let p := @set__my_actors toy_host
             [("car-1"%string, car); ("car-2"%string, car)] toy_provider in
  let vehicles := [toy_state "car-1" 12 5;
                   set_vs_source "agents"%string (toy_state "ego-1" 50 5)] in
  match @sync toy_host vehicles p with
  | (Returns _, p') => synced vehicles p p'
  | (Raises e, _) => e = AssertionError /\ sync_conflict vehicles p
  end.
Proof.
  intros car p vehicles.
  apply (@sync_synchronises toy_host vehicles p).
  cbn. repeat constructor; cbn; intuition discriminate.
Defined.

(* ------------------------------------------------------------------ *)
(** ** The route-length cache *)

Section RouteCache.
Context {host : Host}.
Variable py_hash : list string -> Z.
Variable composite_road : Road -> Road.

Lemma dmem_dset_Z {V} (k : Z) (v : V) (d : dict Z V) :
  dmem k (dset k v d) = true.
Proof.
  unfold dmem. induction d as [| [k0 v0] d IH]; cbn.
  - unfold key_eqb, KeyEq_Z. rewrite Z.eqb_refl. reflexivity.
  - destruct (key_eqb k k0) eqn:E; cbn; rewrite E; [reflexivity | exact IH].
Qed.

Lemma route_table_cached (rid : Z) (p : Provider) :
  dmem rid (_route_lane_lengths p) = true ->
  wp (route_table rid) (fun _ p' => p' = p) (fun _ _ => False) p.
Proof.
  intros H. unfold route_table. wp_step. wp_step. wp_step.
  unfold dmem in H. destruct (dget rid (_route_lane_lengths p));
    [reflexivity | discriminate].
Qed.

Lemma route_table_set_cached (rid : Z) key v (p : Provider) :
  dmem rid (_route_lane_lengths p) = true ->
  wp (route_table_set rid key v) (fun _ p' => dmem rid (_route_lane_lengths p') = true) (fun _ p' => dmem rid (_route_lane_lengths p') = true) p.
Proof.
  intros H. unfold route_table_set.
  wp_step. eapply wp_conseq; [apply route_table_cached; exact H | | intros ? ? []].
  cbv beta. intros tbl p' ->. wp_step. apply dmem_dset_Z.
Qed.

Lemma backprop_cached (n : nat) (rid : Z) :
  forall (bplane : Lane) (length : pyfloat) (p : Provider),
    dmem rid (_route_lane_lengths p) = true ->
    wp (backprop n rid bplane length) (fun _ p' => dmem rid (_route_lane_lengths p') = true) (fun _ p' => dmem rid (_route_lane_lengths p') = true) p.
Proof.
  induction n as [| n IH]; intros bplane length p H; cbn [backprop];
    (apply (wp_for_all (fun p' => dmem rid (_route_lane_lengths p') = true));
     [exact H |]);
    intros il p0 _ H0;
    (wp_step; eapply wp_conseq;
     [apply route_table_cached; exact H0 | | intros ? ? []]);
    cbv beta; intros tbl p1 ->;
    (destruct (dget _ tbl); [| wp_step; exact H0]);
    (wp_step; eapply wp_conseq;
     [apply route_table_set_cached; exact H0 | | wp_exn]);
    cbv beta; intros _ p2 H2.
  - wp_step. exact H2.
  - apply IH. exact H2.
Qed.

Lemma cache_route_road_cached (rid : Z) it last (p : Provider) :
  dmem rid (_route_lane_lengths p) = true ->
  wp (cache_route_road rid it last)
     (fun _ p' => dmem rid (_route_lane_lengths p') = true) (fun _ p' => dmem rid (_route_lane_lengths p') = true) p.
Proof.
  intros H. unfold cache_route_road. destruct it as [r_ind road_name].
  destruct (road_by_id road_name) as [road |]; [| wp_step; exact H].
  wp_step.
  eapply wp_conseq;
    [apply (wp_for_all (fun p' => dmem rid (_route_lane_lengths p') = true));
     [exact H |]
    | cbv beta; intros _ p1 H1; wp_step; exact H1
    | wp_exn ].
  intros lane p0 _ H0.
  wp_step. eapply wp_conseq;
    [apply route_table_cached; exact H0 | | intros ? ? []].
  cbv beta. intros tbl p1 ->.
  wp_step. wp_step. destruct (negb _); [| exact H0].
  wp_step. unfold _backprop_length.
  wp_step. wp_step. destruct (0 <=? r_ind)%Z; [| exact H0].
  eapply wp_conseq; [apply backprop_cached; exact H0 | | wp_exn].
  cbv beta. intros _ p2 H2. apply route_table_set_cached. exact H2.
Qed.

(** After [_cache_route_lengths], returned or raised, the route is in the
    cache. *)
Lemma cache_route_lengths_cached (route : list string) (p : Provider) :
  wp (_cache_route_lengths py_hash composite_road route)
     (fun _ p' => dmem (py_hash route) (_route_lane_lengths p') = true) (fun _ p' => dmem (py_hash route) (_route_lane_lengths p') = true) p.
Proof.
  unfold _cache_route_lengths. set (rid := py_hash route).
  wp_step. wp_step.
  destruct (dmem rid (_route_lane_lengths p)) eqn:Hc; [wp_step; exact Hc |].
  wp_step. wp_step. wp_step.
  assert (H1 : dmem rid (_route_lane_lengths
                 (set__route_lane_lengths (dset rid [] (_route_lane_lengths p)) p))
               = true) by (rec_simpl; apply dmem_dset_Z).
  eapply wp_conseq;
    [apply (wp_for_fold
              (fun (_ : option (Z * Road)) p' =>
                 dmem rid (_route_lane_lengths p') = true));
     [exact H1 | intros it last p0 _ H0; apply cache_route_road_cached; exact H0]
    | | wp_exn ].
  cbv beta. intros last p2 H2.
  destruct last as [[r_ind road] |]; [| wp_step; exact H2].
  wp_step.
  eapply wp_conseq;
    [apply (wp_for_all (fun p' => dmem rid (_route_lane_lengths p') = true));
     [exact H2 |]
    | cbv beta; intros _ p3 H3; wp_step; exact H3
    | wp_exn ].
  intros lane p3 _ H3.
  apply (wp_for_all (fun p' => dmem rid (_route_lane_lengths p') = true));
    [exact H3 |].
  intros og p4 _ H4.
  wp_step. wp_step. destruct (hd_error route) as [first |]; [| exact H4].
  destruct (_ || _); [| wp_step; exact H4].
  wp_step. eapply wp_conseq;
    [apply route_table_cached; exact H4 | | intros ? ? []].
  cbv beta. intros tbl p5 ->.
  wp_step. wp_step. destruct (dget _ tbl); [| exact H4].
  apply route_table_set_cached. exact H4.
Qed.

(** X19. A failed call poisons the route-length cache.
    [_cache_route_lengths] enters the route's id in the cache before it
    looks at the roads, so after any call, returned or raised, the id is
    cached and a second call for the same route returns the id without
    looking at anything and without changing anything.  In particular,
    when the first road of a route that is not yet cached is not in the
    map, the call raises [AssertionError] and leaves an empty table for
    the route, which the next call accepts. *)
Theorem cache_route_lengths_caches_failures (route : list string)
    (p : Provider) :
  let r := _cache_route_lengths py_hash composite_road route p in
  dmem (py_hash route) (_route_lane_lengths (snd r)) = true /\
  _cache_route_lengths py_hash composite_road route (snd r)
  = (Returns (py_hash route), snd r) /\
  (forall r0 rest,
     route = r0 :: rest -> road_by_id r0 = None ->
     dmem (py_hash route) (_route_lane_lengths p) = false ->
     fst r = Raises AssertionError /\
     dget (py_hash route) (_route_lane_lengths (snd r)) = Some []).
Proof.
  cbv zeta.
  assert (Hc : dmem (py_hash route)
                 (_route_lane_lengths
                    (snd (_cache_route_lengths py_hash composite_road route p)))
               = true).
  { pose proof (cache_route_lengths_cached route p) as H. unfold wp in H.
    destruct (_cache_route_lengths py_hash composite_road route p)
      as [[x | e] p']; exact H. }
  split; [exact Hc |]. split.
  - unfold _cache_route_lengths at 1. unfold bind, gets. cbv beta iota.
    rewrite Hc. reflexivity.
  - intros r0 rest -> Hr0 Hnew.
    unfold _cache_route_lengths, bind, gets, modify. cbv beta iota.
    rewrite Hnew. cbv beta iota.
    unfold enumerate. cbn [List.length seq map combine for_fold].
    unfold bind, cache_route_road. rewrite Hr0. unfold raise. cbn [fst snd].
    rec_simpl. split; [reflexivity |].
    generalize (_route_lane_lengths p). intros d.
    induction d as [| [k0 v0] d IH]; cbn.
    + unfold key_eqb, KeyEq_Z. rewrite Z.eqb_refl. reflexivity.
    + destruct (key_eqb (py_hash (r0 :: rest)) k0) eqn:E; cbn; rewrite E;
        [reflexivity | exact IH].
Qed.

End RouteCache.

(* ------------------------------------------------------------------ *)
(** ** Actors taken over from another provider *)

Section Transfer.
Context {host : Host}.
Variable py_hash : list string -> Z.
Variable composite_road : Road -> Road.
Variable random_route : Rng -> list Road * Rng.
Variable nearest_lane_default : Point -> option Lane.

Lemma in_owner_flow_frame {A} (m : M Provider A) :
  preserves (fun e : Env => _flow (self e)) (in_owner m).
Proof. apply (preserves_in_owner_self _flow). Qed.

Lemma resolve_flow_pos_flow fl depart dims :
  preserves (fun e : Env => _flow (self e)) (_resolve_flow_pos fl depart dims).
Proof.
  unfold _resolve_flow_pos.
  repeat first [ frame_step | apply in_owner_flow_frame ].
Qed.

Lemma init_flow (flow : Flow) (p : Provider) :
  wp (__init__ flow) (fun a _ => _flow a = flow) (fun _ _ => True) p.
Proof.
  unfold __init__, self__log.
  wp_step. apply wp_py_gauss. intros g p1.
  wp_auto; try exact I; reflexivity.
Qed.

(** The flow of an actor made by [from_state] has no departure lane. *)
Lemma from_state_flow (st : VehicleState) (route : option (list Road))
    (p : Provider) :
  wp (from_state py_hash composite_road random_route nearest_lane_default
        st route)
     (fun a _ => fl_departLane (_flow a) = None) (fun _ _ => True) p.
Proof.
  unfold from_state.
  wp_step. apply wp_any; [| auto]. intros rt p1.
  wp_step. apply wp_any; [| auto]. intros rid p2.
  wp_step. eapply wp_conseq; [apply init_flow | | auto].
  cbv beta. intros a p3 Ha.
  wp_step. apply wp_with_self.
  apply (wp_frame (fun e : Env => _flow (self e))).
  - repeat first [ frame_step | apply resolve_flow_pos_flow ].
  - intros x e He. wp_step. cbn [snd]. cbn [self] in He. rewrite He, Ha.
    reflexivity.
  - intros; exact I.
Qed.

(** Without a departure lane in its flow an actor cannot be put back to
    the start of its route. *)
Lemma reroute_without_depart_lane (s : Env) (r0 : string) (rest : list string)
    (l : Lane) (st : VehicleState) (rd : Road) :
  fl_departLane (_flow (self s)) = None ->
  _route (self s) = r0 :: rest ->
  _lane (self s) = Some l ->
  existsb (fun oid => String.eqb r0 (road_id oid))
          (outgoing_roads (lane_road l)) = false ->
  _state (self s) = Some st ->
  road_by_id r0 = Some rd ->
  fst (_reroute s) = Raises KeyError.
Proof.
  intros Hd Hr Hl Hloop Hst Hrd.
  destruct (wp_never_returns _reroute (fun e => e = KeyError) s)
    as (e & He & ->); [| exact He].
  unfold _reroute.
  wp_step. wp_step. rewrite Hr. cbn [hd_error].
  wp_step. wp_step. wp_step. wp_step. rewrite Hl, Hloop.
  wp_step. unfold logger_emit. wp_step. wp_step.
  wp_step. wp_step. wp_step. wp_step. rewrite Hst.
  wp_step. unfold _resolve_flow_pos.
  wp_step. wp_step. rewrite Hr. cbn [hd_error].
  wp_step. wp_step. wp_step. wp_step. rewrite Hrd.
  wp_step. wp_step. rewrite Hd. reflexivity.
Qed.

(** X20. An actor taken over with [add_vehicle] cannot be teleported.  The
    flow that [from_state] makes up has no [departLane], and no method
    replaces an actor's flow; so when such an actor (or any actor with
    that flow) has to be put back to the start of a route that does not
    loop, [_reroute] raises [KeyError] at [flow["departLane"]] instead of
    returning. *)
Theorem transferred_actor_cannot_teleport (st : VehicleState)
    (route : option (list Road)) (p p' : Provider) (a : Actor) :
  from_state py_hash composite_road random_route nearest_lane_default
    st route p = (Returns a, p') ->
  fl_departLane (_flow a) = None /\
  forall (s : Env) r0 rest l st' rd,
    _flow (self s) = _flow a ->
    _route (self s) = r0 :: rest ->
    _lane (self s) = Some l ->
    existsb (fun oid => String.eqb r0 (road_id oid))
            (outgoing_roads (lane_road l)) = false ->
    _state (self s) = Some st' ->
    road_by_id r0 = Some rd ->
    fst (_reroute s) = Raises KeyError.
Proof.
  intros Hfs.
  pose proof (from_state_flow st route p) as H. unfold wp in H.
  rewrite Hfs in H. split; [exact H |].
  intros s r0 rest l st' rd Hf. apply reroute_without_depart_lane.
  rewrite Hf. exact H.
Qed.

Lemma in_owner_kept {A} (m : M Provider A) :
  preserves (fun e : Env => (_state (self e), _route (self e))) (in_owner m).
Proof.
  apply (preserves_in_owner_self (fun a => (_state a, _route a))).
Qed.

Lemma resolve_flow_pos_kept fl depart dims :
  preserves (fun e : Env => (_state (self e), _route (self e)))
            (_resolve_flow_pos fl depart dims).
Proof.
  unfold _resolve_flow_pos. repeat first [ frame_step | apply in_owner_kept ].
Qed.

Lemma init_route (flow : Flow) (p : Provider) :
  wp (__init__ flow) (fun a _ => _route a = fl_route flow) (fun _ _ => True) p.
Proof.
  unfold __init__, self__log.
  wp_step. apply wp_py_gauss. intros g p1.
  wp_auto; try exact I; reflexivity.
Qed.

(** The actor that [from_state] returns has the given state and, when a
    route is given, the road ids of that route. *)
Lemma from_state_state (st : VehicleState) (route : option (list Road))
    (p : Provider) :
  wp (from_state py_hash composite_road random_route nearest_lane_default
        st route)
     (fun a _ => _state a = Some st /\
                 forall roads, route = Some roads -> _route a = map road_id roads)
     (fun _ _ => True) p.
Proof.
  unfold from_state.
  wp_step.
  apply (wp_conseq _ _ (fun rt _ => forall roads, route = Some roads -> rt = roads)
           _ (fun _ _ => True)); [| | auto].
  { destruct route as [roads |].
    - wp_step. intros roads' E. congruence.
    - unfold wp. destruct (random_route (_rng p)). intros roads' E. discriminate. }
  cbv beta. intros rt p1 Hrt.
  wp_step. apply wp_any; [| auto]. intros rid p2.
  wp_step. eapply wp_conseq; [apply init_route | | auto].
  cbv beta. intros a p3 Ha. cbn [fl_route state_flow] in Ha.
  wp_step. apply wp_with_self. wp_step. wp_step.
  apply (wp_frame (fun e : Env => (_state (self e), _route (self e)))).
  - repeat first [ frame_step | apply resolve_flow_pos_kept ].
  - intros x e He. wp_step. cbn [snd]. rec_simpl_in He. cbn [self] in He.
    inversion He as [[H1 H2]]. split; [first [reflexivity | exact H1] |].
    intros roads E. rewrite H2, Ha, (Hrt roads E). reflexivity.
  - intros; exact I.
Qed.

(** X21. Taking over a vehicle.  When [add_vehicle] returns, the vehicle
    is managed under its id, its state is the given one with the source
    overwritten by this provider's and the role by [Social], its route is
    the road ids of the given route, and [vehicle_dest_road] answers the
    last of them ([IndexError] for a route without roads). *)
Theorem add_vehicle_takes_over (st : VehicleState)
    (given : option (list Road)) (p : Provider) :
  wp (add_vehicle py_hash composite_road random_route nearest_lane_default
        st given)
     (fun _ p' =>
        manages_vehicle (vs_vehicle_id st) p' = true /\
        exists a,
          dget (vs_vehicle_id st) (_my_actors p') = Some a /\
          _state a = Some (set_vs_role Social (set_vs_source source_str st)) /\
          forall roads, given = Some roads ->
            _route a = map road_id roads /\
            vehicle_dest_road (vs_vehicle_id st) p'
            = match last (map Some (map road_id roads)) None with
              | Some r => Returns (Some r)
              | None => Raises IndexError
              end)
     (fun _ _ => True) p.
Proof.
  unfold add_vehicle.
  wp_step. eapply wp_conseq; [apply from_state_state | | auto].
  cbv beta. intros a p1 [Hst Hrt].
  wp_step. wp_step. unfold actor_id. rewrite Hst. cbn [attr oexpect obind].
  rec_simpl.
  wp_step. wp_step. unfold logger_emit. wp_step. rec_simpl.
  unfold manages_vehicle, dmem, vehicle_dest_road. rec_simpl.
  rewrite dget_dset_same. split; [reflexivity |].
  exists a. split; [reflexivity |]. split; [exact Hst |].
  intros roads E. split; [apply Hrt; exact E |].
  unfold route. rewrite (Hrt roads E).
  destruct (last (map Some (map road_id roads)) None); reflexivity.
Qed.

End Transfer.

Lemma transferred_actor_cannot_teleport_witness :
  exists a p',
    @from_state toy_host (fun _ => 0%Z) (fun r => r) (fun g => ([tt], g))
      (fun _ => Some 0%Z) (toy_state "ego-1" 50 5) (Some [tt]) toy_provider
    = (Returns a, p') /\
    fl_departLane (_flow a) = None /\
    forall (s : @Env toy_host) r0 rest (l : @Lane toy_host)
           (st' : @VehicleState toy_host) (rd : @Road toy_host),
      _flow (self s) = _flow a ->
      _route (self s) = r0 :: rest ->
      _lane (self s) = Some l ->
      existsb (fun oid => String.eqb r0 (road_id oid))
              (outgoing_roads (lane_road l)) = false ->
      _state (self s) = Some st' ->
      road_by_id r0 = Some rd ->
      fst (_reroute s) = Raises KeyError.
Proof.
  eexists. eexists.
  refine ((fun Hrun => conj Hrun
             (@transferred_actor_cannot_teleport toy_host (fun _ => 0%Z)
                (fun r => r) (fun g => ([tt], g)) (fun _ => Some 0%Z)
                (toy_state "ego-1" 50 5) (Some [tt]) toy_provider _ _ Hrun)) _).
  unfold from_state.
  eapply run_bind; [mrun |]. cbv beta iota zeta.
  eapply run_bind; [mrun |]. cbv beta iota zeta.
  eapply run_bind; [mrun |]. cbv beta iota zeta.
  eapply run_bind; [apply run_with_self; mrun |]. cbv beta iota zeta.
  reflexivity.
Defined.

(* ------------------------------------------------------------------ *)
(** ** The range of the acceleration *)

Section Acceleration.
Context {host : Host}.

Lemma np_clip_within (lo hi : R) (x : pyfloat) :
  lo <= hi -> within lo hi (np_clip x (Fin lo) (Fin hi)).
Proof.
  intros Hle. unfold np_clip, np_maximum, np_minimum.
  destruct x as [r | | |]; cbn [f_lt within]; try exact I.
  - destruct (Rltb_cases r lo) as [[H1 E1] | [H1 E1]]; rewrite E1; cbn [f_lt].
    + destruct (Rltb_cases hi lo) as [[H2 E2] | [H2 E2]]; rewrite E2;
        cbn [within]; lra.
    + destruct (Rltb_cases hi r) as [[H2 E2] | [H2 E2]]; rewrite E2;
        cbn [within]; lra.
  - lra.
  - destruct (Rltb_cases hi lo) as [[H2 E2] | [H2 E2]]; rewrite E2;
      cbn [within]; lra.
Qed.

Lemma f_ge_zero_fin (x : R) : f_ge (Fin x) 0 = true -> 0 <= x.
Proof. intros H. apply f_ge_zero_is_time in H. exact H. Qed.

Lemma brake_within (ed lo hi : R) (c : pyfloat) :
  0 <= ed -> lo <= - ed -> 0 <= hi -> within 0 1 c ->
  within lo hi (f_mul (f_neg (Fin ed)) c).
Proof.
  intros He Hlo Hhi Hc. destruct c as [r | | |]; cbn in *; try tauto.
  split; nra.
Qed.

(** What [_compute_acceleration] returns, and that it only reads. *)
Lemma compute_acceleration_range (dt : pyfloat) (s : Env) (ed ac de : R) :
  vget (vt_emergencyDecel (_vtype (self s))) 4.5 = Fin ed ->
  vget (vt_accel (_vtype (self s))) 2.6 = Fin ac ->
  vget (vt_decel (_vtype (self s))) 4.5 = Fin de ->
  wp (_compute_acceleration dt)
     (fun a s' => s' = s /\ within (- Rmax ed de) (Rmax ac 0) a)
     (fun _ s' => s' = s) s.
Proof.
  intros Hed Hac Hde. unfold _compute_acceleration.
  wp_step. wp_step. rewrite Hed.
  wp_step. wp_step. destruct (f_ge (Fin ed) 0) eqn:Hed0; [| reflexivity].
  apply f_ge_zero_fin in Hed0.
  pose proof (Rmax_l ed de) as Hm1. pose proof (Rmax_r ed de) as Hm2.
  pose proof (Rmax_l ac 0) as Hm3. pose proof (Rmax_r ac 0) as Hm4.
  assert (Hz : within (- Rmax ed de) (Rmax ac 0) (Fin 0)) by (cbn; lra).
  assert (Hbrake : forall sev,
            within (- Rmax ed de) (Rmax ac 0)
                   (f_mul (f_neg (Fin ed)) (np_clip sev 0 1))).
  { intros sev. apply brake_within; try lra. apply np_clip_within. lra. }
  wp_auto; try reflexivity; try (split; [reflexivity |]; auto; fail).
  - rewrite Hac in *. split; [reflexivity |].
    match goal with H : f_ge _ _ = true |- _ => apply f_ge_zero_fin in H end.
    match goal with
    | H : f_gt (np_clip ?q ?lo ?hi) _ = true |- _ =>
        pose proof (np_clip_within (-1) 1 q ltac:(lra)) as Hc;
        destruct (np_clip q lo hi) as [c | | |];
        cbn in Hc, H |- *; try tauto; try discriminate;
        apply Rltb_spec in H
    end.
    split; nra.
  - rewrite Hde in *. split; [reflexivity |].
    match goal with H : f_ge _ _ = true |- _ => apply f_ge_zero_fin in H end.
    match goal with
    | H : f_gt (np_clip ?q ?lo ?hi) _ = false |- _ =>
        pose proof (np_clip_within (-1) 1 q ltac:(lra)) as Hc;
        destruct (np_clip q lo hi) as [c | | |];
        cbn in Hc, H |- *; try tauto; try discriminate;
        destruct (Rltb_cases 0 c) as [[H1 E1] | [H1 E1]];
        rewrite E1 in H; try discriminate
    end.
    split; nra.
Qed.

(** X23. The acceleration is bounded and deciding it changes nothing.
    With finite [emergencyDecel], [accel] and [decel], whatever
    [_compute_acceleration] returns lies between
    [-max(emergencyDecel, decel)] and [max(accel, 0)] (or is [nan]), in
    the emergency branches between [-emergencyDecel] and 0; and returned
    or raised, it leaves the actor and the provider exactly as they
    were. *)
Theorem acceleration_is_bounded (dt : pyfloat) (s : Env) (ed ac de : R) :
  vget (vt_emergencyDecel (_vtype (self s))) 4.5 = Fin ed ->
  vget (vt_accel (_vtype (self s))) 2.6 = Fin ac ->
  vget (vt_decel (_vtype (self s))) 4.5 = Fin de ->
  match _compute_acceleration dt s with
  | (Returns a, s') => s' = s /\ within (- Rmax ed de) (Rmax ac 0) a
  | (Raises _, s') => s' = s
  end.
Proof.
  intros Hed Hac Hde. exact (compute_acceleration_range dt s ed ac de Hed Hac Hde).
Qed.

End Acceleration.

Lemma acceleration_is_bounded_witness :
  let s := mkEnv (toy_actor (toy_state "car-1" 10 5) (toy_window 0 60 50)
                    (toy_window 0 60 50)) toy_provider in
  match @_compute_acceleration toy_host 0.1 s with
  | (Returns a, s') => s' = s /\ within (- Rmax 4.5 4.5) (Rmax 2.6 0) a
  | (Raises _, s') => s' = s
  end.
Proof.
  intros s.
  apply (@acceleration_is_bounded toy_host 0.1 s 4.5 2.6 4.5); reflexivity.
Defined.

(* ------------------------------------------------------------------ *)
(** ** Relocalisation in [step] *)

Section Relocalize.
Context {host : Host}.

Lemma f_lt_improves (d b d' : pyfloat) :
  f_lt d b = true -> f_lt d' b = false -> f_lt d' d = false.
Proof.
  destruct d as [x | | |], b as [y | | |], d' as [z | | |]; cbn;
    try reflexivity; try discriminate.
  intros H1 H2. apply Rltb_spec in H1.
  destruct (Rltb_cases z y) as [[H3 E3] | [H3 E3]]; rewrite E3 in H2;
    [discriminate |].
  apply Rltb_false. lra.
Qed.

Lemma f_lt_irrefl (d : pyfloat) : f_lt d d = false.
Proof. destruct d as [x | | |]; cbn; try reflexivity. apply Rltb_false. lra. Qed.

Lemma reloc_shape (a0 : Actor) (l1 l2 : option Lane) (o1 o2 : bool) :
  set__off_route o2 (set__lane l2 (set__off_route o1 (set__lane l1 a0)))
  = set__off_route o2 (set__lane l2 a0).
Proof. destruct a0. reflexivity. Qed.

Lemma reloc_shape_lane (a0 : Actor) (l1 l2 : option Lane) (o1 : bool) :
  set__lane l2 (set__off_route o1 (set__lane l1 a0))
  = set__off_route o1 (set__lane l2 a0).
Proof. destruct a0. reflexivity. Qed.

Lemma reloc_shape_id (a0 : Actor) :
  a0 = set__off_route (_off_route a0) (set__lane (_lane a0) a0).
Proof. destruct a0. reflexivity. Qed.

Lemma route_of_shape (a0 a : Actor) :
  a = set__off_route (_off_route a) (set__lane (_lane a) a0) ->
  _route a = _route a0.
Proof. intros ->. reflexivity. Qed.

Lemma find_app_none {X} (f : X -> bool) (pre rest : list X) :
  (forall x, In x pre -> f x = false) ->
  find f (pre ++ rest) = find f rest.
Proof.
  induction pre as [| x pre IH]; intros H; [reflexivity |].
  cbn. rewrite (H x (or_introl eq_refl)). apply IH.
  intros y Hy. apply H. right. exact Hy.
Qed.

Lemma relocalize_step_on_route nl d best (a : Actor) (p : Provider) :
  on_route (_route a) (nl, d) = true ->
  relocalize_step (nl, d) best (mkEnv a p)
  = (Returns (Break, best),
     mkEnv (set__off_route false (set__lane (Some nl) a)) p).
Proof.
  unfold on_route. cbn [fst]. intros H.
  unfold relocalize_step, bind, self_get, gets. cbn [self owner].
  rewrite H. reflexivity.
Qed.

Lemma relocalize_step_closer nl d best (a : Actor) (p : Provider) :
  on_route (_route a) (nl, d) = false ->
  match best with None => true | Some b => f_lt d b end = true ->
  relocalize_step (nl, d) best (mkEnv a p)
  = (Returns (Continue, Some d), mkEnv (set__lane (Some nl) a) p).
Proof.
  unfold on_route. cbn [fst]. intros H Hb.
  unfold relocalize_step, bind, self_get, gets. cbn [self owner].
  rewrite H, Hb. reflexivity.
Qed.

Lemma relocalize_step_farther nl d best (a : Actor) (p : Provider) :
  on_route (_route a) (nl, d) = false ->
  match best with None => true | Some b => f_lt d b end = false ->
  relocalize_step (nl, d) best (mkEnv a p) = (Returns (Continue, best), mkEnv a p).
Proof.
  unfold on_route. cbn [fst]. intros H Hb.
  unfold relocalize_step, bind, self_get, gets. cbn [self owner].
  rewrite H, Hb. reflexivity.
Qed.

Lemma reloc_loop (a0 : Actor) (p : Provider) :
  forall rest pre best a,
    a = set__off_route (_off_route a) (set__lane (_lane a) a0) ->
    _off_route a = _off_route a0 ->
    (forall nld, In nld pre -> on_route (_route a0) nld = false) ->
    match best with
    | None => pre = [] /\ _lane a = _lane a0
    | Some b =>
        exists nl, In (nl, b) pre /\ _lane a = Some nl /\
                   forall nl' d', In (nl', d') pre -> f_lt d' b = false
    end ->
    exists bd a',
      for_fold rest best relocalize_step (mkEnv a p) = (Returns bd, mkEnv a' p) /\
      relocalized (pre ++ rest) a0 a'.
Proof.
  induction rest as [| [nl d] rest IH]; intros pre best a Hshape Hoff Hpre Hbest.
  - exists best, a. split; [reflexivity |]. rewrite app_nil_r.
    unfold relocalized. split; [exact Hshape |].
    assert (Hnone : find (on_route (_route a0)) pre = None).
    { rewrite <- (app_nil_r pre). rewrite (find_app_none _ pre [] Hpre).
      reflexivity. }
    rewrite Hnone. split; [exact Hoff |].
    destruct best as [b |].
    + destruct Hbest as (nl & Hin & Hl & Hmin).
      destruct pre as [| x pre]; [destruct Hin |].
      exists nl, b. auto.
    + destruct Hbest as [-> Hl]. exact Hl.
  - pose proof (route_of_shape a0 a Hshape) as Hrt.
    rewrite for_fold_cons.
    destruct (on_route (_route a0) (nl, d)) eqn:Hon.
    + rewrite relocalize_step_on_route by (rewrite Hrt; exact Hon).
      exists best. eexists. split; [reflexivity |].
      unfold relocalized. rec_simpl. split.
      * rewrite Hshape at 1. apply reloc_shape.
      * rewrite (find_app_none _ pre _ Hpre). cbn [find]. rewrite Hon. auto.
    + assert (Hpre1 : forall nld, In nld (pre ++ [(nl, d)]) ->
                on_route (_route a0) nld = false).
      { intros nld Hin. apply in_app_or in Hin.
        destruct Hin as [Hin | [<- | []]]; auto. }
      destruct (match best with None => true | Some b => f_lt d b end) eqn:Hb.
      * rewrite relocalize_step_closer by (rewrite ?Hrt; assumption).
        destruct (IH (pre ++ [(nl, d)]) (Some d) (set__lane (Some nl) a))
          as (bd & a' & E & Hrel).
        -- rec_simpl. rewrite Hshape at 1. apply reloc_shape_lane.
        -- rec_simpl. exact Hoff.
        -- exact Hpre1.
        -- exists nl. split; [apply in_or_app; right; left; reflexivity |].
           split; [reflexivity |].
           intros nl' d' Hin. apply in_app_or in Hin.
           destruct Hin as [Hin | [Heq | []]].
           ++ destruct best as [b |].
              ** destruct Hbest as (nl0 & _ & _ & Hmin).
                 apply (f_lt_improves d b d' Hb). eapply Hmin. exact Hin.
              ** destruct Hbest as [-> _]. destruct Hin.
           ++ injection Heq as <- <-. apply f_lt_irrefl.
        -- exists bd, a'. split; [exact E |].
           rewrite <- app_assoc in Hrel. exact Hrel.
      * rewrite relocalize_step_farther by (rewrite ?Hrt; assumption).
        destruct best as [b |]; [| discriminate].
        destruct Hbest as (nl0 & Hin0 & Hl0 & Hmin).
        destruct (IH (pre ++ [(nl, d)]) (Some b) a) as (bd & a' & E & Hrel).
        -- exact Hshape.
        -- exact Hoff.
        -- exact Hpre1.
        -- exists nl0. split; [apply in_or_app; left; exact Hin0 |].
           split; [exact Hl0 |].
           intros nl' d' Hin. apply in_app_or in Hin.
           destruct Hin as [Hin | [Heq | []]].
           ++ eapply Hmin. exact Hin.
           ++ injection Heq as <- <-. exact Hb.
        -- exists bd, a'. split; [exact E |].
           rewrite <- app_assoc in Hrel. exact Hrel.
Qed.

(** X22. Relocalisation prefers the route to the distance.  The loop of
    [step] over the near lanes never raises and touches nothing but
    [_lane] and [_off_route]: if a near lane lies on a road of the route,
    the first such lane in the list is taken, however far it is, and
    [_off_route] becomes false; otherwise [_off_route] stays as it was set
    and the lane taken is a near lane that no near lane is strictly closer
    than (the lane stays as it was when there is no near lane). *)
Theorem relocalize_prefers_route (nls : list (Lane * pyfloat)) (a : Actor)
    (p : Provider) :
  exists bd a',
    for_fold nls None relocalize_step (mkEnv a p) = (Returns bd, mkEnv a' p) /\
    relocalized nls a a'.
Proof.
  destruct (reloc_loop a p nls [] None a) as (bd & a' & E & H).
  - apply reloc_shape_id.
  - reflexivity.
  - intros nld [].
  - split; reflexivity.
  - exists bd, a'. split; [exact E | exact H].
Qed.

End Relocalize.

(* ------------------------------------------------------------------ *)
(** ** Finished actors leave in the same tick *)

Section Finish.
Context {host : Host}.

Lemma in_owner_state_id {A} (m : M Provider A) :
  preserves (fun e : Env => _state (self e)) (in_owner m).
Proof. apply (preserves_in_owner_self _state). Qed.

Lemma relocalize_step_state nld best_d :
  preserves (fun e : Env => _state (self e)) (relocalize_step nld best_d).
Proof. unfold relocalize_step. frame. Qed.

Lemma resolve_flow_pos_state_kept fl depart dims :
  preserves (fun e : Env => _state (self e)) (_resolve_flow_pos fl depart dims).
Proof.
  unfold _resolve_flow_pos. repeat first [ frame_step | apply in_owner_state_id ].
Qed.

Lemma resolve_flow_speed_state_kept fl :
  preserves (fun e : Env => _state (self e)) (_resolve_flow_speed fl).
Proof.
  unfold _resolve_flow_speed. repeat first [ frame_step | apply in_owner_state_id ].
Qed.

Lemma actor_id_of_state (a : Actor) (k : string) :
  actor_id a = Returns k <->
  exists st, _state a = Some st /\ vs_vehicle_id st = k.
Proof.
  unfold actor_id. destruct (_state a) as [st |]; cbn.
  - split; [intros H; injection H as <-; eauto |].
    intros (st' & E & <-). injection E as <-. reflexivity.
  - split; [discriminate | intros (st' & E & _); discriminate].
Qed.

Ltac idsolve :=
  rec_simpl; try congruence;
  apply actor_id_of_state; rec_simpl;
  repeat match goal with
         | H : _state ?a = _state ?b |- _ => rewrite H in *; clear H
         | H : Some _ = _state ?b |- _ => symmetry in H
         | H : _state ?a = Some _, H' : _state ?a = Some _ |- _ =>
             rewrite H in H'
         | H : Some _ = Some _ |- _ => injection H as H
         end;
  subst;
  first [ eexists; split; [eassumption | rec_simpl; congruence]
        | eexists; split; [reflexivity | rec_simpl; congruence] ].

Lemma reroute_keeps_id (s : Env) (k : string) :
  actor_id (self s) = Returns k ->
  wp _reroute (fun _ s' => actor_id (self s') = Returns k)
     (fun _ s' => actor_id (self s') = Returns k) s.
Proof.
  intros Hid. apply actor_id_of_state in Hid. destruct Hid as (st0 & Hst & Hk).
  unfold _reroute.
  wp_auto; try (idsolve; fail).
  all: unfold logger_emit; wp_step; wp_step.
  all: wp_auto; try (idsolve; fail).
  all: apply (wp_frame (fun e : Env => _state (self e)));
    [ apply resolve_flow_pos_state_kept
    | intros [ln off] s1 E1; rec_simpl_in E1
    | intros ? s1 E1; rec_simpl_in E1 ].
  all: try (idsolve; fail).
  all: wp_auto; try (idsolve; fail).
  all: apply (wp_frame (fun e : Env => _state (self e)));
    [ apply resolve_flow_speed_state_kept
    | intros sp s2 E2; rec_simpl_in E2
    | intros ? s2 E2; rec_simpl_in E2 ].
  all: try (idsolve; fail).
  all: wp_auto; try (idsolve; fail).
Qed.

(** [step] keeps the vehicle id. *)
Lemma step_keeps_id dt (s : Env) (k : string) :
  actor_id (self s) = Returns k ->
  wp (step dt) (fun _ s' => actor_id (self s') = Returns k)
     (fun _ s' => actor_id (self s') = Returns k) s.
Proof.
  intros Hid. pose proof Hid as Hid0.
  apply actor_id_of_state in Hid. destruct Hid as (st0 & Hst & Hk).
  unfold step, commit_next_state.
  wp_auto; try (idsolve; fail).
  all: apply (wp_frame (fun e : Env => _state (self e)));
    [ apply preserves_for_fold; intros; apply relocalize_step_state
    | intros bd s1 E1; rec_simpl_in E1
    | intros ? s1 E1; rec_simpl_in E1 ].
  all: try (idsolve; fail).
  all: wp_auto; try (idsolve; fail).
  all: apply reroute_keeps_id; idsolve.
Qed.

Lemma in_owner_actors {A} (m : M Provider A) :
  preserves _my_actors m ->
  preserves (fun e : Env => _my_actors (owner e)) (in_owner m).
Proof.
  intros H [a p]. unfold in_owner, zoom. cbn.
  specialize (H p). destruct (m p) as [r p']. exact H.
Qed.

Lemma py_random_my_actors : preserves _my_actors py_random.
Proof.
  intros p. unfold py_random. destruct (random_random (_rng p)). reflexivity.
Qed.

Lemma logger_emit_my_actors lvl about : preserves _my_actors (logger_emit lvl about).
Proof. intros p. reflexivity. Qed.

Ltac aframe :=
  repeat first
    [ frame_step
    | apply in_owner_actors;
      first [ apply py_random_my_actors | apply logger_emit_my_actors ] ].

Lemma resolve_flow_pos_actors fl depart dims :
  preserves (fun e : Env => _my_actors (owner e)) (_resolve_flow_pos fl depart dims).
Proof. unfold _resolve_flow_pos. aframe. Qed.

Lemma resolve_flow_speed_actors fl :
  preserves (fun e : Env => _my_actors (owner e)) (_resolve_flow_speed fl).
Proof. unfold _resolve_flow_speed. aframe. Qed.

Lemma reroute_actors : preserves (fun e : Env => _my_actors (owner e)) _reroute.
Proof.
  unfold _reroute.
  aframe; first [ apply resolve_flow_pos_actors | apply resolve_flow_speed_actors ].
Qed.

Lemma relocalize_step_actors nld best_d :
  preserves (fun e : Env => _my_actors (owner e)) (relocalize_step nld best_d).
Proof. unfold relocalize_step. aframe. Qed.

(** [step] does not touch the provider's dict of actors. *)
Lemma step_actors dt : preserves (fun e : Env => _my_actors (owner e)) (step dt).
Proof.
  unfold step, commit_next_state.
  aframe; first [ apply relocalize_step_actors | apply reroute_actors ].
Qed.

Lemma ids_ok_store (p p' : Provider) (k : string) (a : Actor) :
  ids_ok p -> _my_actors p' = dset k a (_my_actors p) ->
  actor_id a = Returns k -> ids_ok p'.
Proof.
  intros Hok Hm Ha k' b. rewrite Hm.
  destruct (string_dec k k') as [<- | Hne].
  - rewrite dget_dset_same. intros E. injection E as <-. exact Ha.
  - rewrite dget_dset_other by exact Hne. apply Hok.
Qed.

Lemma on_actor_step_spec dt (k : string) (p : Provider) (a : Actor) :
  dget k (_my_actors p) = Some a -> actor_id a = Returns k ->
  wp (on_actor k (step dt))
     (fun _ p' => exists a', _my_actors p' = dset k a' (_my_actors p) /\
                             actor_id a' = Returns k)
     (fun _ _ => True) p.
Proof.
  intros Hg Hid. apply wp_on_actor. rewrite Hg.
  eapply wp_conseq.
  - apply (wp_and_preserves (fun e : Env => _my_actors (owner e)));
      [apply step_actors | apply (step_keeps_id dt (mkEnv a p) k Hid)].
  - cbv beta. intros _ e [He Hm]. cbn [owner] in Hm. rec_simpl.
    exists (self e). rewrite Hm. auto.
  - auto.
Qed.

Lemma commit_one_spec dt (k : string) (dones : list string) (p : Provider) :
  ids_ok p -> dmem k (_my_actors p) = true ->
  wp (commit_one dt k dones)
     (fun r p' =>
        exists a', _my_actors p' = dset k a' (_my_actors p) /\
                   actor_id a' = Returns k /\
                   r = (Continue,
                        if _done_with_route a' then dones ++ [k] else dones))
     (fun _ _ => True) p.
Proof.
  intros Hok Hm. unfold dmem in Hm.
  destruct (dget k (_my_actors p)) as [a |] eqn:Hg; [| discriminate].
  unfold commit_one. wp_step.
  eapply wp_conseq; [apply (on_actor_step_spec dt k p a Hg (Hok k a Hg)) | | auto].
  cbv beta. intros _ p1 (a' & Hm1 & Hid').
  assert (Hg1 : dget k (_my_actors p1) = Some a')
    by (rewrite Hm1; apply dget_dset_same).
  wp_step. apply wp_on_actor. rewrite Hg1. wp_step. cbn [self owner].
  rewrite (dset_get_same k a' (_my_actors p1) Hg1).
  assert (Hp1 : set__my_actors (_my_actors p1) p1 = p1) by (destruct p1; reflexivity).
  rewrite Hp1. unfold finished_route.
  destruct (_done_with_route a') eqn:Hd.
  - wp_step. apply wp_on_actor. rewrite Hg1. wp_step. cbn [self owner].
    rewrite Hid'. rewrite (dset_get_same k a' (_my_actors p1) Hg1), Hp1.
    wp_step. exists a'. rewrite Hd. auto.
  - wp_step. exists a'. rewrite Hd. auto.
Qed.

Lemma filter_app_one {X} (f : X -> bool) (l : list X) (x : X) :
  filter f (l ++ [x]) = filter f l ++ (if f x then [x] else []).
Proof.
  induction l as [| y l IH]; cbn; [destruct (f x); reflexivity |].
  rewrite IH. destruct (f y); reflexivity.
Qed.

Lemma NoDup_app_mid {X} (pre : list X) (k : X) (ks : list X) :
  NoDup (pre ++ k :: ks) -> ~ In k pre /\ NoDup ((pre ++ [k]) ++ ks).
Proof.
  intros H. split.
  - apply NoDup_remove_2 in H. intros Hin. apply H. apply in_or_app. left. exact Hin.
  - rewrite <- app_assoc. exact H.
Qed.

(** The commit pass collects exactly the keys whose actor has finished. *)
Lemma commit_loop dt (ks : list string) :
  forall pre dones p,
    NoDup (dkeys (_my_actors p)) -> ids_ok p ->
    NoDup (pre ++ ks) ->
    (forall k, In k ks -> dmem k (_my_actors p) = true) ->
    dones = filter (finished_at p) pre ->
    wp (for_fold ks dones (commit_one dt))
       (fun dones' p' =>
          NoDup (dkeys (_my_actors p')) /\ ids_ok p' /\
          dkeys (_my_actors p') = dkeys (_my_actors p) /\
          dones' = filter (finished_at p') (pre ++ ks))
       (fun _ _ => True) p.
Proof.
  induction ks as [| k ks IH]; intros pre dones p Hnd Hok Hpre Hin Hdones.
  - cbn. rewrite app_nil_r. auto.
  - cbn [for_fold]. wp_step.
    eapply wp_conseq;
      [apply (commit_one_spec dt k dones p Hok (Hin k (or_introl eq_refl)))
      | | auto].
    cbv beta. intros r p1 (a' & Hm1 & Hid' & ->).
    destruct (NoDup_app_mid pre k ks Hpre) as [Hk Hpre1].
    assert (Hkeys : dkeys (_my_actors p1) = dkeys (_my_actors p)).
    { rewrite Hm1, dkeys_dset. rewrite (Hin k (or_introl eq_refl)). reflexivity. }
    eapply wp_conseq; [apply (IH (pre ++ [k])) | | auto].
    + rewrite Hkeys. exact Hnd.
    + eapply ids_ok_store; eauto.
    + exact Hpre1.
    + intros k' Hk'. rewrite Hm1, dmem_dset. rewrite (Hin k' (or_intror Hk')).
      apply orb_true_r.
    + rewrite filter_app_one. unfold finished_at at 2. rewrite Hm1, dget_dset_same.
      rewrite Hdones.
      assert (Hf : filter (finished_at p1) pre = filter (finished_at p) pre).
      { apply filter_ext_in. intros k' Hk'. unfold finished_at.
        rewrite Hm1, dget_dset_other by (intros ->; contradiction). reflexivity. }
      rewrite Hf. destruct (_done_with_route a'); [reflexivity |].
      rewrite app_nil_r. reflexivity.
    + cbv beta. intros dones' p' (H1 & H2 & H3 & H4).
      rewrite <- app_assoc in H4. cbn [app] in H4.
      repeat split; auto. congruence.
Qed.

Lemma remove_done_deletes (k : string) (p : Provider) :
  dmem k (_my_actors p) = true ->
  exists p', remove_done k p = (Returns tt, p') /\
             _my_actors p' = ddel k (_my_actors p).
Proof.
  intros H.
  destruct (wp_returns (remove_done k)
              (fun _ p' => _my_actors p' = ddel k (_my_actors p)) p)
    as ([] & p' & E & Hm); [| exists p'; auto].
  unfold remove_done, py_del.
  wp_step. wp_step. wp_step. wp_step. rewrite H.
  wp_step. reflexivity.
Qed.

Lemma in_dvalues_dget {V} (v : V) (d : dict string V) :
  In v (dvalues d) -> exists k, In k (dkeys d) /\ (NoDup (dkeys d) -> dget k d = Some v).
Proof.
  unfold dvalues, dkeys. induction d as [| [k0 v0] d IH]; cbn; [intros [] |].
  intros [<- | Hin].
  - exists k0. split; [left; reflexivity |]. intros _.
    rewrite key_eqb_string_refl. reflexivity.
  - destruct (IH Hin) as (k & Hk & Hg). exists k. split; [right; exact Hk |].
    intros Hnd. inversion Hnd as [| ? ? Hnotin Hnd']. subst.
    rewrite key_eqb_string_neq by (intros ->; contradiction).
    apply Hg. exact Hnd'.
Qed.

Lemma tick_inv_frame (p p' : Provider) :
  _my_actors p' = _my_actors p -> tick_inv p -> tick_inv p'.
Proof.
  unfold tick_inv, ids_ok, none_finished. intros ->. auto.
Qed.

Lemma tick_inv_store (p p' : Provider) (k : string) (a : Actor) :
  tick_inv p -> _my_actors p' = dset k a (_my_actors p) ->
  actor_id a = Returns k -> _done_with_route a = false -> tick_inv p'.
Proof.
  intros (Hnd & Hok & Hn) Hm Hid Hd. split; [| split].
  - rewrite Hm. apply nodup_dset. exact Hnd.
  - eapply ids_ok_store; eauto.
  - intros x Hx. rewrite Hm in Hx. apply in_dvalues_dset in Hx.
    destruct Hx as [-> | Hx]; [exact Hd | apply Hn; exact Hx].
Qed.

Lemma dget_map_values {V W} (f : V -> W) (k : string) (d : dict string V) :
  dget k (map (fun kv => (fst kv, f (snd kv))) d) = option_map f (dget k d).
Proof.
  induction d as [| [k0 v0] d IH]; cbn; [reflexivity |].
  destruct (key_eqb k k0); [reflexivity | exact IH].
Qed.

Lemma tick_inv_view (p p' : Provider) :
  committed_view p' = committed_view p -> tick_inv p -> tick_inv p'.
Proof.
  intros H (Hnd & Hok & Hn). unfold committed_view in H.
  pose proof (f_equal fst H) as Hm. cbn [fst] in Hm. clear H.
  assert (Hkeys : dkeys (_my_actors p') = dkeys (_my_actors p)).
  { unfold dkeys. pose proof (f_equal (map fst) Hm) as Hf.
    rewrite !map_map in Hf. cbn [fst] in Hf. exact Hf. }
  assert (Hget : forall k a', dget k (_my_actors p') = Some a' ->
            exists a, dget k (_my_actors p) = Some a /\ committed a' = committed a).
  { intros k a' Ha'. pose proof (f_equal (dget k) Hm) as Hk.
    rewrite !dget_map_values, Ha' in Hk. cbn in Hk.
    destruct (dget k (_my_actors p)) as [a |]; [| discriminate].
    exists a. split; [reflexivity |]. cbn in Hk. congruence. }
  split; [| split].
  - rewrite Hkeys. exact Hnd.
  - intros k a' Ha'. destruct (Hget k a' Ha') as (a & Ha & Hc).
    unfold committed in Hc. unfold actor_id.
    replace (_state a') with (_state a) by (inversion Hc; congruence).
    apply (Hok k a Ha).
  - intros a' Hin. destruct (in_dvalues_dget a' _ Hin) as (k & Hk & Hg).
    rewrite Hkeys in Hg. specialize (Hg Hnd).
    destruct (Hget k a' Hg) as (a & Ha & Hc). unfold committed in Hc.
    transitivity (_done_with_route a); [inversion Hc; congruence |].
    apply Hn. eapply dget_in_dvalues. exact Ha.
Qed.

Lemma decide_all_tick dt (p : Provider) :
  tick_inv p ->
  wp (decide_all dt) (fun _ p' => tick_inv p') (fun _ _ => True) p.
Proof.
  intros HJ.
  assert (Hv : committed_view (snd (decide_all dt p)) = committed_view p).
  { unfold decide_all, bind, gets. cbn.
    apply (decide_loop dt p (dkeys (_my_actors p)) p eq_refl). }
  unfold wp. destruct (decide_all dt p) as [[x | e] p']; cbn [snd] in Hv;
    [| exact I].
  eapply tick_inv_view; eauto.
Qed.

Lemma add_actor_in_flow_tick flow (p : Provider) :
  tick_inv p ->
  wp (_add_actor_in_flow flow) (fun _ p' => tick_inv p') (fun _ _ => True) p.
Proof.
  intros HJ.
  eapply wp_conseq; [apply add_actor_in_flow_spec | | auto].
  cbv beta. intros added p' (_ & a & box & Ha & _ & H).
  pose proof (from_flow_not_done flow p) as Hd. unfold wp in Hd.
  destruct (from_flow flow p) as [[a0 | e] p1]; cbn [fst] in Ha; [| discriminate].
  injection Ha as ->.
  destruct added.
  - destruct H as (_ & _ & id & Hid & Hm & _).
    eapply tick_inv_store; eauto.
  - destruct H as [_ Hf]. eapply tick_inv_frame; [| exact HJ].
    unfold emission_frame in Hf. inversion Hf. congruence.
Qed.

Lemma add_actors_for_time_tick t (p : Provider) :
  tick_inv p ->
  wp (_add_actors_for_time t) (fun _ p' => tick_inv p') (fun _ _ => True) p.
Proof.
  intros HJ. unfold _add_actors_for_time. wp_step. wp_step.
  apply (wp_for_all (fun p' => tick_inv p')); [exact HJ |].
  intros key p0 _ HJ0. unfold add_actors_for_flow.
  wp_auto; try exact I; try exact HJ0.
  eapply wp_conseq; [apply add_actor_in_flow_tick; exact HJ0 | | auto].
  cbv beta. intros added p1 HJ1.
  destruct added; wp_step; [| exact HJ1].
  eapply tick_inv_frame; [| exact HJ1]. reflexivity.
Qed.

Lemma finished_at_dmem (p : Provider) (k : string) :
  finished_at p k = true -> dmem k (_my_actors p) = true.
Proof.
  unfold finished_at, dmem. destruct (dget k (_my_actors p)); [auto | discriminate].
Qed.

Lemma bind_assoc_at {S A B C} (m : M S A) (f : A -> M S B) (g : B -> M S C)
    (s : S) :
  bind (bind m f) g s = bind m (fun x => bind (f x) g) s.
Proof. unfold bind. destruct (m s) as [[a | e] s']; reflexivity. Qed.

Lemma bind_ext_at {S A B} (m : M S A) (f g : A -> M S B) (s : S) :
  (forall x s', f x s' = g x s') -> bind m f s = bind m g s.
Proof. intros H. unfold bind. destruct (m s) as [[a | e] s']; auto. Qed.

(** [step] is its passes followed by the removals. *)
Lemma provider_step_split dt t (p : Provider) :
  provider_step dt t p = (dones <- step_passes dt t ;; step_removals dones) p.
Proof.
  unfold provider_step, step_passes. symmetry.
  repeat (rewrite bind_assoc_at; apply bind_ext_at; intros; cbv beta).
  reflexivity.
Qed.

Lemma states_of_returns (l : list Actor) :
  (forall a, In a l -> exists st, _state a = Some st) ->
  exists sts, states_of l = Returns sts.
Proof.
  induction l as [| a l IH]; intros H; cbn [states_of]; [eauto |].
  destruct (H a (or_introl eq_refl)) as [st Hst].
  destruct IH as [sts Hs]; [intros b Hb; apply H; right; exact Hb |].
  unfold state, attr. rewrite Hst, Hs. cbn. eauto.
Qed.

Lemma provider_state_returns (p : Provider) :
  NoDup (dkeys (_my_actors p)) -> ids_ok p ->
  exists sts, _provider_state p = Returns sts.
Proof.
  intros Hnd Hok. unfold _provider_state, _my_actor_states.
  apply states_of_returns. intros a Hin.
  destruct (in_dvalues_dget a _ Hin) as (k & _ & Hg).
  destruct (proj1 (actor_id_of_state a k) (Hok k a (Hg Hnd))) as (st & Hst & _).
  eauto.
Qed.

(** The passes of [step] keep keys and ids in step and yield exactly the
    keys of the actors that finished. *)
Lemma step_passes_spec dt t (p : Provider) :
  tick_inv p ->
  wp (step_passes dt t)
     (fun dones p5 =>
        NoDup (dkeys (_my_actors p5)) /\ ids_ok p5 /\
        dones = filter (finished_at p5) (dkeys (_my_actors p5)))
     (fun _ _ => True) p.
Proof.
  intros HJ. unfold step_passes.
  wp_step. eapply wp_conseq; [apply add_actors_for_time_tick; exact HJ | | auto].
  cbv beta. intros _ p1 HJ1.
  wp_step. wp_step. wp_step. apply (wp_frame actors_part).
  { change (fun '(other, _) => _) with release_reserved.
    unfold release_reserved. frame. }
  2:{ auto. }
  intros x p2 E2.
  assert (HJ2 : tick_inv p2).
  { eapply tick_inv_frame; [| exact HJ1]. unfold actors_part in E2. congruence. }
  clear E2. wp_step. wp_step. wp_step. wp_step. wp_step. wp_step.
  destruct (_all_states _) as [all | e]; [| exact I].
  wp_step. apply (wp_frame actors_part); [frame | | auto].
  intros [] p3 E3.
  assert (HJ3 : tick_inv p3).
  { eapply tick_inv_frame; [| exact HJ2]. unfold actors_part in E3.
    cbn in E3. congruence. }
  clear E3. wp_step. wp_step. wp_step.
  eapply wp_conseq; [apply decide_all_tick | | auto].
  { eapply tick_inv_frame; [| exact HJ3]. reflexivity. }
  cbv beta. intros _ p4 (Hnd & Hok & _).
  unfold commit_all. wp_step. wp_step.
  match goal with
  | |- wp (for_fold _ _ ?f) _ _ _ => change f with (commit_one dt)
  end.
  eapply wp_conseq;
    [apply (commit_loop dt (dkeys (_my_actors p4)) [] [] p4 Hnd Hok) | | auto].
  - exact Hnd.
  - intros k Hk. apply dmem_in. exact Hk.
  - reflexivity.
  - cbv beta. intros dones p5 (Hnd5 & Hok5 & Hkeys & ->). cbn [app].
    rewrite <- Hkeys. auto.
Qed.

(** X24. Finished actors leave within the tick, and removing them cannot
    fail.  Let the keys of [_my_actors] be unique and be the ids of the
    actors stored under them, and let no managed actor be marked as
    finished.  If the passes of [step] (emission, decision, commit) raise,
    [step] raises the same exception in the same state.  If they return,
    the ids they collected are exactly the keys of the actors now marked
    as finished, and [step] returns: the deletions by [actor.actor_id] find
    their keys (no [KeyError]), they remove the finished actors and leave
    every other entry as it was, the states listed are those of the
    remaining actors, and the assumption holds again for the next tick. *)
Theorem finished_actors_leave (dt t : pyfloat) (p : Provider) :
  tick_inv p ->
  wp (step_passes dt t)
     (fun dones p5 =>
        (forall k, In k dones <-> finished_at p5 k = true) /\
        exists sts p6,
          provider_step dt t p = (Returns sts, p6) /\
          _provider_state p6 = Returns sts /\
          tick_inv p6 /\
          forall k, dget k (_my_actors p6)
                    = if finished_at p5 k then None else dget k (_my_actors p5))
     (fun e p5 => provider_step dt t p = (Raises e, p5)) p.
Proof.
  intros HJ.
  pose proof (step_passes_spec dt t p HJ) as W.
  pose proof (provider_step_split dt t p) as Hsplit.
  unfold wp in *. unfold bind in Hsplit.
  destruct (step_passes dt t p) as [[dones | e] p5]; [| exact Hsplit].
  destruct W as (Hnd5 & Hok5 & Hdones).
  assert (Hin : forall k, In k dones <-> finished_at p5 k = true).
  { intros k. rewrite Hdones, filter_In. split; [tauto |].
    intros Hk. split; [| exact Hk]. apply dmem_in. apply finished_at_dmem.
    exact Hk. }
  split; [exact Hin |].
  destruct (delete_loop remove_done remove_done_deletes dones p5)
    as (p6 & E & Hnd6 & Hget).
  { rewrite Hdones. apply NoDup_filter. exact Hnd5. }
  { exact Hnd5. }
  { intros k Hk. apply finished_at_dmem. apply Hin. exact Hk. }
  assert (Hget' : forall k, dget k (_my_actors p6)
                    = if finished_at p5 k then None else dget k (_my_actors p5)).
  { intros k. rewrite Hget. destruct (in_dec string_dec k dones) as [Hk | Hk].
    - rewrite (proj1 (Hin k) Hk). reflexivity.
    - destruct (finished_at p5 k) eqn:Hf; [| reflexivity].
      exfalso. apply Hk. apply Hin. exact Hf. }
  assert (Hok6 : ids_ok p6).
  { intros k a Ha. rewrite Hget' in Ha.
    destruct (finished_at p5 k); [discriminate |]. apply (Hok5 k a Ha). }
  destruct (provider_state_returns p6 Hnd6 Hok6) as [sts Hsts].
  exists sts, p6. split; [| split; [exact Hsts | split; [| exact Hget']]].
  - rewrite Hsplit. unfold step_removals, bind, gets, lift.
    rewrite E, Hsts. reflexivity.
  - split; [exact Hnd6 | split; [exact Hok6 |]].
    intros a Ha. destruct (in_dvalues_dget a _ Ha) as (k & _ & Hg).
    specialize (Hg Hnd6). rewrite Hget' in Hg.
    destruct (finished_at p5 k) eqn:Hf; [discriminate |].
    unfold finished_at in Hf. rewrite Hg in Hf. exact Hf.
Qed.

End Finish.
